(** * rtems-tools process and trace-writer core

    A shallow embedding of
      - rtemstoolkit/rld-process.cpp  (temporary files, command-line parser)
      - tester/covoar/TraceWriterQEMU.cc  (QEMU trace writer)
    together with the properties the project documentation states about
    them. *)

From Stdlib Require Import ZArith Lia Ascii String List Bool.
From stdpp Require Import base option list gmap strings pretty.

Local Open Scope string_scope.
Local Open Scope list_scope.

(** ** Exceptions and results

    C++ exceptions are made explicit: a computation over a state [St]
    either returns a value together with the state it leaves behind,
    or throws with the state as mutated up to the throw.  [Undefined]
    stands for an access outside an array.  [OutOfFuel] is the answer of
    a loop model that was not given enough iterations; the entry points
    give their loops a bound that covers every run, as
    [parse_command_line_total] and [read_line_spec] show. *)

Inductive exn : Type :=
| rld_error (what where_ : string)   (* rld::error (what, where) *)
| std_out_of_range.                  (* std::out_of_range from substr *)

Inductive result (St A : Type) : Type :=
| Return (a : A) (s : St)
| Throw (e : exn) (s : St)
| Undefined
| OutOfFuel.

Arguments Return {St A} a s.
Arguments Throw {St A} e s.
Arguments Undefined {St A}.
Arguments OutOfFuel {St A}.

(** The state-and-exception monad of the member functions. *)
Definition M (St A : Type) : Type := St -> result St A.

Definition ret {St A} (a : A) : M St A := fun s => Return a s.

Definition bind {St A B} (m : M St A) (f : A -> M St B) : M St B :=
  fun s =>
    match m s with
    | Return a s' => f a s'
    | Throw e s' => Throw e s'
    | Undefined => Undefined
    | OutOfFuel => OutOfFuel
    end.

Definition throw {St A} (e : exn) : M St A := fun s => Throw e s.
Definition undefined {St A} : M St A := fun _ => Undefined.
Definition out_of_fuel {St A} : M St A := fun _ => OutOfFuel.
Definition gets {St A} (f : St -> A) : M St A := fun s => Return (f s) s.
Definition modify {St} (f : St -> St) : M St unit := fun s => Return tt (f s).

(** Run a computation on a component [get]/[set] of the state. *)
Definition zoom {St T A} (get : St -> T) (set : T -> St -> St) (m : M T A)
  : M St A :=
  fun s =>
    match m (get s) with
    | Return a t => Return a (set t s)
    | Throw e t => Throw e (set t s)
    | Undefined => Undefined
    | OutOfFuel => OutOfFuel
    end.

Notation "x <- m ;; k" := (bind m (fun x => k))
  (at level 100, m at next level, right associativity).
Notation "m ;;; k" := (bind m (fun _ => k))
  (at level 100, right associativity).

Definition LF : ascii := "010"%char.
Definition NUL : ascii := zero.

(** ** The POSIX file interface, as far as rld-process.cpp uses it

    The kernel side of [::open], [::close], [::read], [::write] and
    [::unlink] on regular files.  [short_writes] and [short_reads]
    schedule the results of the coming calls: a [::write] with nothing
    scheduled transfers its whole request, one with [r] scheduled
    transfers [min r request] bytes ([r < 0]: it fails); a [::read] with
    a cap [c] scheduled transfers at most [max 1 c] bytes.
    [create_errors] has the paths at which the kernel cannot create a
    file (a directory of the path is missing or may not be written), each
    with the error number it answers.  A file that is unlinked is gone at
    once. *)

Module posix.

Record open_flags : Type := {
  O_RDWR : bool;      (* false: O_RDONLY *)
  O_CREAT : bool;
  O_TRUNC : bool;
  O_APPEND : bool
}.

Record open_file : Type := {
  of_path : string;
  of_flags : open_flags;
  of_pos : nat
}.

Record kernel : Type := {
  files : gmap string (list ascii);
  fdtable : gmap nat open_file;
  errno : Z;
  short_writes : list Z;
  short_reads : list nat;
  create_errors : gmap string Z
}.

Definition ENOENT : Z := 2.
Definition EIO : Z := 5.
Definition EBADF : Z := 9.

(** [::strerror]: the texts of the GNU C library, by error number; a
    number without a text of its own gives "Unknown error" and the
    number. *)
Definition sys_errlist : list (option string) :=
  [Some "Success";
   Some "Operation not permitted";
   Some "No such file or directory";
   Some "No such process";
   Some "Interrupted system call";
   Some "Input/output error";
   Some "No such device or address";
   Some "Argument list too long";
   Some "Exec format error";
   Some "Bad file descriptor";
   Some "No child processes";
   Some "Resource temporarily unavailable";
   Some "Cannot allocate memory";
   Some "Permission denied";
   Some "Bad address";
   Some "Block device required";
   Some "Device or resource busy";
   Some "File exists";
   Some "Invalid cross-device link";
   Some "No such device";
   Some "Not a directory";
   Some "Is a directory";
   Some "Invalid argument";
   Some "Too many open files in system";
   Some "Too many open files";
   Some "Inappropriate ioctl for device";
   Some "Text file busy";
   Some "File too large";
   Some "No space left on device";
   Some "Illegal seek";
   Some "Read-only file system";
   Some "Too many links";
   Some "Broken pipe";
   Some "Numerical argument out of domain";
   Some "Numerical result out of range";
   Some "Resource deadlock avoided";
   Some "File name too long";
   Some "No locks available";
   Some "Function not implemented";
   Some "Directory not empty";
   Some "Too many levels of symbolic links";
   None;
   Some "No message of desired type";
   Some "Identifier removed";
   Some "Channel number out of range";
   Some "Level 2 not synchronized";
   Some "Level 3 halted";
   Some "Level 3 reset";
   Some "Link number out of range";
   Some "Protocol driver not attached";
   Some "No CSI structure available";
   Some "Level 2 halted";
   Some "Invalid exchange";
   Some "Invalid request descriptor";
   Some "Exchange full";
   Some "No anode";
   Some "Invalid request code";
   Some "Invalid slot";
   None;
   Some "Bad font file format";
   Some "Device not a stream";
   Some "No data available";
   Some "Timer expired";
   Some "Out of streams resources";
   Some "Machine is not on the network";
   Some "Package not installed";
   Some "Object is remote";
   Some "Link has been severed";
   Some "Advertise error";
   Some "Srmount error";
   Some "Communication error on send";
   Some "Protocol error";
   Some "Multihop attempted";
   Some "RFS specific error";
   Some "Bad message";
   Some "Value too large for defined data type";
   Some "Name not unique on network";
   Some "File descriptor in bad state";
   Some "Remote address changed";
   Some "Can not access a needed shared library";
   Some "Accessing a corrupted shared library";
   Some ".lib section in a.out corrupted";
   Some "Attempting to link in too many shared libraries";
   Some "Cannot exec a shared library directly";
   Some "Invalid or incomplete multibyte or wide character";
   Some "Interrupted system call should be restarted";
   Some "Streams pipe error";
   Some "Too many users";
   Some "Socket operation on non-socket";
   Some "Destination address required";
   Some "Message too long";
   Some "Protocol wrong type for socket";
   Some "Protocol not available";
   Some "Protocol not supported";
   Some "Socket type not supported";
   Some "Operation not supported";
   Some "Protocol family not supported";
   Some "Address family not supported by protocol";
   Some "Address already in use";
   Some "Cannot assign requested address";
   Some "Network is down";
   Some "Network is unreachable";
   Some "Network dropped connection on reset";
   Some "Software caused connection abort";
   Some "Connection reset by peer";
   Some "No buffer space available";
   Some "Transport endpoint is already connected";
   Some "Transport endpoint is not connected";
   Some "Cannot send after transport endpoint shutdown";
   Some "Too many references: cannot splice";
   Some "Connection timed out";
   Some "Connection refused";
   Some "Host is down";
   Some "No route to host";
   Some "Operation already in progress";
   Some "Operation now in progress";
   Some "Stale file handle";
   Some "Structure needs cleaning";
   Some "Not a XENIX named type file";
   Some "No XENIX semaphores available";
   Some "Is a named type file";
   Some "Remote I/O error";
   Some "Disk quota exceeded";
   Some "No medium found";
   Some "Wrong medium type";
   Some "Operation canceled";
   Some "Required key not available";
   Some "Key has expired";
   Some "Key has been revoked";
   Some "Key was rejected by service";
   Some "Owner died";
   Some "State not recoverable";
   Some "Operation not possible due to RF-kill";
   Some "Memory page has hardware error"].

Definition strerror (e : Z) : string :=
  let unknown := "Unknown error " +:+ pretty e in
  if (e <? 0)%Z then unknown
  else
    match sys_errlist !! Z.to_nat e with
    | Some (Some text) => text
    | _ => unknown
    end.

Definition set_errno (e : Z) (k : kernel) : kernel :=
  {| files := files k; fdtable := fdtable k; errno := e;
     short_writes := short_writes k; short_reads := short_reads k;
     create_errors := create_errors k |}.

Definition lookup_fd (fd : Z) (k : kernel) : option open_file :=
  if (fd <? 0)%Z then None else fdtable k !! Z.to_nat fd.

Definition file_data (path : string) (k : kernel) : list ascii :=
  default [] (files k !! path).

(** [::open (path, flags, mode)].  A file that exists is opened
    (permissions and the limit on descriptors are not modelled); a file
    that does not exist is created under [O_CREAT], unless the kernel
    cannot create it there, and then [create_errors] has the error. *)
Definition open (path : string) (fl : open_flags) (k : kernel) : Z * kernel :=
  let opened (data : list ascii) :=
    let fd := fresh (dom (fdtable k)) in
    (Z.of_nat fd,
     {| files := <[path := data]> (files k);
        fdtable := <[fd := {| of_path := path; of_flags := fl; of_pos := 0 |}]>
                     (fdtable k);
        errno := errno k;
        short_writes := short_writes k;
        short_reads := short_reads k;
        create_errors := create_errors k |}) in
  match files k !! path with
  | Some c => opened (if O_TRUNC fl then [] else c)
  | None =>
    if O_CREAT fl then
      match create_errors k !! path with
      | Some e => ((-1)%Z, set_errno e k)
      | None => opened []
      end
    else ((-1)%Z, set_errno ENOENT k)
  end.

Definition close (fd : Z) (k : kernel) : Z * kernel :=
  match lookup_fd fd k with
  | None => ((-1)%Z, set_errno EBADF k)
  | Some _ =>
    (0%Z,
     {| files := files k; fdtable := delete (Z.to_nat fd) (fdtable k);
        errno := errno k;
        short_writes := short_writes k; short_reads := short_reads k;
        create_errors := create_errors k |})
  end.

Definition read (fd : Z) (count : nat) (k : kernel)
  : Z * list ascii * kernel :=
  match lookup_fd fd k with
  | None => ((-1)%Z, [], set_errno EBADF k)
  | Some f =>
    let avail := drop (of_pos f) (file_data (of_path f) k) in
    let n := Nat.min count (length avail) in
    let n := match short_reads k with
             | [] => n
             | cap :: _ => Nat.min n (Nat.max 1 cap)
             end in
    (Z.of_nat n, take n avail,
     {| files := files k;
        fdtable := <[Z.to_nat fd := {| of_path := of_path f;
                                       of_flags := of_flags f;
                                       of_pos := of_pos f + n |}]> (fdtable k);
        errno := errno k;
        short_writes := short_writes k;
        short_reads := tail (short_reads k);
        create_errors := create_errors k |})
  end.

(** The file after [n] bytes of [data] went to offset [pos]. *)
Definition overwrite (pos : nat) (data old : list ascii) : list ascii :=
  take pos old ++ replicate (pos - length old) NUL ++ data
    ++ drop (pos + length data) old.

Definition write (fd : Z) (data : list ascii) (k : kernel) : Z * kernel :=
  match lookup_fd fd k with
  | None => ((-1)%Z, set_errno EBADF k)
  | Some f =>
    if negb (O_RDWR (of_flags f)) then ((-1)%Z, set_errno EBADF k)
    else
      let scheduled := head (short_writes k) in
      match scheduled with
      | Some r =>
        if (r <? 0)%Z then
          ((-1)%Z,
           {| files := files k; fdtable := fdtable k; errno := EIO;
              short_writes := tail (short_writes k);
              short_reads := short_reads k;
              create_errors := create_errors k |})
        else
          let n := Nat.min (Z.to_nat r) (length data) in
          let old := file_data (of_path f) k in
          let pos := if O_APPEND (of_flags f) then length old else of_pos f in
          (Z.of_nat n,
           {| files := <[of_path f := overwrite pos (take n data) old]> (files k);
              fdtable := <[Z.to_nat fd := {| of_path := of_path f;
                                             of_flags := of_flags f;
                                             of_pos := pos + n |}]> (fdtable k);
              errno := errno k;
              short_writes := tail (short_writes k);
              short_reads := short_reads k;
              create_errors := create_errors k |})
      | None =>
        let n := length data in
        let old := file_data (of_path f) k in
        let pos := if O_APPEND (of_flags f) then length old else of_pos f in
        (Z.of_nat n,
         {| files := <[of_path f := overwrite pos (take n data) old]> (files k);
            fdtable := <[Z.to_nat fd := {| of_path := of_path f;
                                           of_flags := of_flags f;
                                           of_pos := pos + n |}]> (fdtable k);
            errno := errno k;
            short_writes := tail (short_writes k);
            short_reads := short_reads k;
            create_errors := create_errors k |})
      end
  end.

Definition unlink (path : string) (k : kernel) : Z * kernel :=
  match files k !! path with
  | None => ((-1)%Z, set_errno ENOENT k)
  | Some _ =>
    (0%Z,
     {| files := delete path (files k); fdtable := fdtable k;
        errno := errno k;
        short_writes := short_writes k; short_reads := short_reads k;
        create_errors := create_errors k |})
  end.

(** [::stat (path, &sb)]: the result and [sb.st_size]. *)
Definition stat (path : string) (k : kernel) : (Z * nat) * kernel :=
  match files k !! path with
  | None => (((-1)%Z, 0), set_errno ENOENT k)
  | Some c => ((0%Z, length c), k)
  end.

End posix.

(** ** rld::path

    rld-path.cpp is not part of the sources at hand. *)

Module path.

(** Modelled from the spec: [rld::path::check_file], absent from the
    sources; "fails with a not-found error if the file does not exist"
    makes it the test that the file exists. *)
Definition check_file (path : string) (k : posix.kernel) : bool :=
  bool_decide (is_Some (posix.files k !! path)).

(** Modelled from the spec: [rld::path::unlink], absent from the
    sources; it "deletes the underlying file", and a file that is not
    there is not an error. *)
Definition unlink (path : string) : M posix.kernel unit :=
  fun k =>
    if check_file path k then
      let '(r, k') := posix.unlink path k in
      if (r <? 0)%Z then
        Throw (rld_error (posix.strerror (posix.errno k')) ("unlink: " +:+ path)) k'
      else Return tt k'
    else Return tt k.

End path.

(** ** rld::process *)

Module RldProcess.

(** *** The registry of temporary files *)

Record tempfile_ref : Type := {
  name : string;
  keep : bool
}.

Definition tempfile_container : Type := list tempfile_ref.

(** The state of the process: the globals [keep_temporary_files] and
    [temporaries] (its [tempfiles] container), and the kernel. *)
Record process : Type := {
  keep_temporary_files : bool;
  temporaries : tempfile_container;
  os : posix.kernel
}.

Definition set_temporaries (l : tempfile_container) (p : process) : process :=
  {| keep_temporary_files := keep_temporary_files p;
     temporaries := l;
     os := os p |}.

Definition set_os (k : posix.kernel) (p : process) : process :=
  {| keep_temporary_files := keep_temporary_files p;
     temporaries := temporaries p;
     os := k |}.

Definition set_keep_temporary_files : M process unit :=
  modify (fun p => {| keep_temporary_files := true;
                      temporaries := temporaries p;
                      os := os p |}).

Module temporary_files.

Definition unlink (ref : tempfile_ref) : M process unit :=
  keep_all <- gets keep_temporary_files ;;
  if negb keep_all && negb (keep ref) then
    zoom os set_os (path.unlink (name ref))
  else ret tt.

(** The loop of [erase]: [visited] are the records the iterator has
    passed, [rest] those from [tfi] on. *)
Fixpoint erase_from (name_ : string) (visited rest : tempfile_container)
  : M process unit :=
  match rest with
  | [] => ret tt
  | tfi :: rest' =>
    if String.eqb (name tfi) name_ then
      unlink tfi ;;;
      modify (set_temporaries (visited ++ rest'))
    else erase_from name_ (visited ++ [tfi]) rest'
  end.

Definition erase (name_ : string) : M process unit :=
  tempfiles <- gets temporaries ;;
  erase_from name_ [] tempfiles.

Fixpoint keep_from (name_ : string) (visited rest : tempfile_container)
  : M process unit :=
  match rest with
  | [] => ret tt
  | tfi :: rest' =>
    if String.eqb (name tfi) name_ then
      modify (set_temporaries
                (visited ++ {| name := name tfi; keep := true |} :: rest'))
    else keep_from name_ (visited ++ [tfi]) rest'
  end.

Definition keep (name_ : string) : M process unit :=
  tempfiles <- gets temporaries ;;
  keep_from name_ [] tempfiles.

Fixpoint clean_up_from (rest : tempfile_container) : M process unit :=
  match rest with
  | [] => ret tt
  | tfi :: rest' => unlink tfi ;;; clean_up_from rest'
  end.

Definition clean_up : M process unit :=
  tempfiles <- gets temporaries ;;
  clean_up_from tempfiles.

End temporary_files.

(** *** tempfile *)

Record tempfile : Type := {
  _name : string;
  suffix : string;
  overridden : bool;
  fd : Z;
  buf : list ascii;
  level : nat
}.

(** A member function of [tempfile] runs on its object and the process. *)
Record machine : Type := {
  this : tempfile;
  proc : process
}.

Definition set_this (t : tempfile) (m : machine) : machine :=
  {| this := t; proc := proc m |}.

Definition set_proc (p : process) (m : machine) : machine :=
  {| this := this m; proc := p |}.

Definition kernel_of (m : machine) : posix.kernel := os (proc m).

Definition set_kernel (k : posix.kernel) (m : machine) : machine :=
  set_proc (set_os k (proc m)) m.

Definition with_name (v : string) (t : tempfile) : tempfile :=
  {| _name := v; suffix := suffix t; overridden := overridden t;
     fd := fd t; buf := buf t; level := level t |}.

Definition with_overridden (v : bool) (t : tempfile) : tempfile :=
  {| _name := _name t; suffix := suffix t; overridden := v;
     fd := fd t; buf := buf t; level := level t |}.

Definition with_fd (v : Z) (t : tempfile) : tempfile :=
  {| _name := _name t; suffix := suffix t; overridden := overridden t;
     fd := v; buf := buf t; level := level t |}.

Definition with_buf (v : list ascii) (t : tempfile) : tempfile :=
  {| _name := _name t; suffix := suffix t; overridden := overridden t;
     fd := fd t; buf := v; level := level t |}.

Definition with_level (v : nat) (t : tempfile) : tempfile :=
  {| _name := _name t; suffix := suffix t; overridden := overridden t;
     fd := fd t; buf := buf t; level := v |}.

(** The member [x] of the object, and the assignment to it. *)
Definition member {A} (x : tempfile -> A) : M machine A :=
  gets (fun m => x (this m)).

Definition assign (f : tempfile -> tempfile) : M machine unit :=
  modify (fun m => set_this (f (this m)) m).

(** A system call: it takes and leaves the kernel. *)
Definition sys {A} (call : posix.kernel -> A * posix.kernel) : M machine A :=
  fun m => let '(a, k) := call (kernel_of m) in Return a (set_kernel k m).

(** [strerror (errno)]. *)
Definition strerror_errno : M machine string :=
  gets (fun m => posix.strerror (posix.errno (kernel_of m))).

(** Memory: the array [buf] as the list of its cells. *)

(** [memset (b + off, c, n)]. *)
Definition memset (b : list ascii) (off : nat) (c : ascii) (n : nat) : list ascii :=
  take off b ++ replicate n c ++ drop (off + n) b.

(** The bytes [data] stored from [b + off] on. *)
Definition store (b : list ascii) (off : nat) (data : list ascii) : list ascii :=
  take off b ++ data ++ drop (off + length data) b.

(** [memmove (b + dst, b + src, n)]. *)
Definition memmove (b : list ascii) (dst src n : nat) : list ascii :=
  store b dst (take n (drop src b)).

(** [strchr (b, c)] from cell [i] on: [Some (Some j)] when [c] is found
    at [j], [Some None] when the terminating NUL comes first, [None] when
    the scan leaves the array. *)
Fixpoint strchr_from (b : list ascii) (c : ascii) (i : nat)
  : option (option nat) :=
  match b with
  | [] => None
  | x :: b' =>
    if Ascii.eqb x c then Some (Some i)
    else if Ascii.eqb x NUL then Some None
    else strchr_from b' c (S i)
  end.

Definition strchr (b : list ascii) (c : ascii) : option (option nat) :=
  strchr_from b c 0.

(** The bytes the file behind [fd] still holds past its offset; the
    loops of [read] and [read_line] are bounded by it. *)
Definition unread (fd_ : Z) (k : posix.kernel) : nat :=
  match posix.lookup_fd fd_ k with
  | Some f => length (drop (posix.of_pos f) (posix.file_data (posix.of_path f) k))
  | None => 0
  end.

(** Output streams: what was inserted, in order. *)
Inductive ostream_item : Type :=
| os_str (s : list ascii)
| os_int (n : Z)
| os_chr (c : ascii)
| os_endl
| os_flush.

Definition ostream : Type := list ostream_item.

(** [out << x], on a state whose first component is the stream. *)
Definition put_to {St} (x : ostream_item) : M (ostream * St) unit :=
  modify (fun s => (s.1 ++ [x], s.2)).

(** A member function of the handle, next to the stream. *)
Definition on_handle {A} (m : M machine A) : M (ostream * machine) A :=
  zoom snd (fun h s => (s.1, h)) m.

Module tempfile.
Section members.

(** [sizeof (buf)] and [RLD_LINE_SEPARATOR]: rld-process.h and rld.h
    are not part of the sources at hand. *)
Variable BUF_SIZE : nat.
Variable RLD_LINE_SEPARATOR : list ascii.

Definition open (writable : bool) : M machine unit :=
  fd_ <- member fd ;;
  if (fd_ <? 0)%Z then
    _name_ <- member _name ;;
    ok <- gets (fun m => path.check_file _name_ (kernel_of m)) ;;
    overridden_ <- member overridden ;;
    flags <-
      (if writable && overridden_ then
         ret {| posix.O_RDWR := writable; posix.O_CREAT := true;
                posix.O_TRUNC := true; posix.O_APPEND := true |}
       else if negb ok then
         throw (rld_error "Not found." ("tempfile open:" +:+ _name_))
       else
         ret {| posix.O_RDWR := writable; posix.O_CREAT := false;
                posix.O_TRUNC := false; posix.O_APPEND := false |}) ;;
    assign (with_level 0) ;;;
    r <- sys (posix.open _name_ flags) ;;
    assign (with_fd r) ;;;
    if (r <? 0)%Z then
      what <- strerror_errno ;;
      throw (rld_error what ("tempfile open:" +:+ _name_))
    else ret tt
  else ret tt.

Definition close : M machine unit :=
  fd_ <- member fd ;;
  if negb (fd_ =? -1)%Z then
    sys (posix.close fd_) ;;;
    assign (with_fd (-1)) ;;;
    assign (with_level 0)
  else ret tt.

Definition override (name_ : string) : M machine unit :=
  fd_ <- member fd ;;
  if (0 <=? fd_)%Z then
    throw (rld_error "Already open" "tempfile override")
  else
    _name_ <- member _name ;;
    zoom kernel_of set_kernel (path.unlink _name_) ;;;
    assign (with_overridden true) ;;;
    suffix_ <- member suffix ;;
    assign (with_name (name_ +:+ suffix_)).

Definition keep : M machine unit :=
  _name_ <- member _name ;;
  zoom proc set_proc (temporary_files.keep _name_).

Definition name : M machine string := member _name.

(** [~tempfile ()]. *)
Definition destroy : M machine unit :=
  close ;;;
  _name_ <- member _name ;;
  zoom proc set_proc (temporary_files.erase _name_).

(** The loop of [read]. *)
Fixpoint read_loop (fuel : nat) (all : list ascii) : M machine (list ascii) :=
  match fuel with
  | O => out_of_fuel
  | S fuel' =>
    fd_ <- member fd ;;
    got <- sys (fun k => let '(r, data, k') := posix.read fd_ BUF_SIZE k in
                         ((r, data), k')) ;;
    buf_ <- member buf ;;
    assign (with_buf (store buf_ 0 (snd got))) ;;;
    if (fst got <? 0)%Z then
      what <- strerror_errno ;;
      _name_ <- member _name ;;
      throw (rld_error what ("tempfile get read:" +:+ _name_))
    else if (fst got =? 0)%Z then ret all
    else
      buf_ <- member buf ;;
      read_loop fuel' (all ++ take (Z.to_nat (fst got)) buf_)
  end.

Definition read : M machine (list ascii) :=
  let all := [] in
  fd_ <- member fd ;;
  if negb (fd_ =? -1)%Z then
    level_ <- member level ;;
    buf_ <- member buf ;;
    if (length buf_ <? level_)%nat then undefined
    else
      let all := if negb (level_ =? 0)%nat then all ++ take level_ buf_ else all in
      assign (with_level 0) ;;;
      n <- gets (fun m => unread fd_ (kernel_of m)) ;;
      read_loop (S n) all
  else ret all.

(** The body of the loop of [read_line], first half: top the buffer
    up from the file.  The answer is the new value of [reading]. *)
Definition read_line_fill (reading : bool) : M machine bool :=
  level_ <- member level ;;
  if (level_ <? BUF_SIZE - 1)%nat then
    buf_ <- member buf ;;
    assign (with_buf (memset buf_ level_ NUL (BUF_SIZE - level_))) ;;;
    fd_ <- member fd ;;
    got <- sys (fun k =>
                  let '(r, data, k') :=
                    posix.read fd_ (BUF_SIZE - level_ - 1) k in
                  ((r, data), k')) ;;
    buf_ <- member buf ;;
    assign (with_buf (store buf_ level_ (snd got))) ;;;
    if (fst got <? 0)%Z then
      what <- strerror_errno ;;
      _name_ <- member _name ;;
      throw (rld_error what ("tempfile read:" +:+ _name_))
    else if (fst got =? 0)%Z then ret false
    else
      assign (with_level (level_ + Z.to_nat (fst got))) ;;;
      ret reading
  else ret reading.

(** Second half: move what the buffer holds, up to the first line
    feed, to the line and slide the rest to the front.  A [len] beyond
    [level] would make [level -= len] wrap around and the accesses that
    follow leave the array: the model answers [Undefined], as it does
    when [strchr] or [memmove] leave the array. *)
Definition read_line_take (reading : bool) (line : list ascii)
  : M machine (bool * list ascii) :=
  level_ <- member level ;;
  if negb (level_ =? 0)%nat then
    buf_ <- member buf ;;
    match strchr buf_ LF with
    | None => undefined
    | Some lf =>
      let len := match lf with Some j => j + 1 | None => level_ end in
      let reading := match lf with Some _ => false | None => reading end in
      if (level_ <? len)%nat then undefined
      else
        let line := line ++ take len buf_ in
        assign (with_level (level_ - len)) ;;;
        level_ <- member level ;;
        (if negb (level_ =? 0)%nat then
           if (length buf_ <? len + (level_ + 1))%nat then undefined
           else assign (with_buf (memmove buf_ 0 len (level_ + 1)))
         else ret tt) ;;;
        ret (reading, line)
    end
  else ret (reading, line).

(** An iteration of the loop of [read_line]: whether the loop goes on,
    and the line so far. *)
Definition read_line_body (line : list ascii) : M machine (bool * list ascii) :=
  let reading := true in
  reading <- read_line_fill reading ;;
  read_line_take reading line.

Fixpoint read_line_loop (fuel : nat) (line : list ascii)
  : M machine (list ascii) :=
  match fuel with
  | O => out_of_fuel
  | S fuel' =>
    it <- read_line_body line ;;
    if fst it then read_line_loop fuel' (snd it) else ret (snd it)
  end.

Definition read_line : M machine (list ascii) :=
  let line := [] in
  fd_ <- member fd ;;
  if negb (fd_ =? -1)%Z then
    level_ <- member level ;;
    n <- gets (fun m => unread fd_ (kernel_of m)) ;;
    read_line_loop (S (n + level_)) line
  else ret line.

(** The loop of [write]: [p] is never advanced, [l] counts down. *)
Fixpoint write_loop (fuel : nat) (p : list ascii) (l : nat) : M machine unit :=
  match fuel with
  | O => out_of_fuel
  | S fuel' =>
    if negb (l =? 0)%nat then
      fd_ <- member fd ;;
      written <- sys (posix.write fd_ (take l p)) ;;
      if (written <? 0)%Z then
        what <- strerror_errno ;;
        _name_ <- member _name ;;
        throw (rld_error what ("tempfile write:" +:+ _name_))
      else if (written =? 0)%Z then ret tt
      else write_loop fuel' p (l - Z.to_nat written)
    else ret tt
  end.

Definition write (s : list ascii) : M machine unit :=
  let p := s in
  let l := length s in
  write_loop (S l) p l.

Definition write_line (s : list ascii) : M machine unit :=
  write s ;;;
  write RLD_LINE_SEPARATOR.

Fixpoint write_lines (ss : list (list ascii)) : M machine unit :=
  match ss with
  | [] => ret tt
  | s :: ss' => write_line s ;;; write_lines ss'
  end.

Definition size : M machine nat :=
  fd_ <- member fd ;;
  if (fd_ <? 0)%Z then ret 0
  else
    _name_ <- member _name ;;
    sb <- sys (posix.stat _name_) ;;
    if (fst sb =? 0)%Z then ret (snd sb) else ret 0.

(** The loop of [output]; [lc] is the line count. *)
Fixpoint output_loop (fuel : nat) (prefix : list ascii) (line_numbers : bool)
    (lc : Z) : M (ostream * machine) unit :=
  match fuel with
  | O => out_of_fuel
  | S fuel' =>
    line <- on_handle read_line ;;
    let lc := (lc + 1)%Z in
    level_ <- on_handle (member level) ;;
    if (length line =? 0)%nat && (level_ =? 0)%nat then ret tt
    else
      (if negb (length prefix =? 0)%nat then
         put_to (os_str prefix) ;;; put_to (os_str (list_ascii_of_string ": "))
       else ret tt) ;;;
      (if line_numbers then
         put_to (os_int lc) ;;; put_to (os_str (list_ascii_of_string ": "))
       else ret tt) ;;;
      put_to (os_str line) ;;;
      put_to os_flush ;;;
      output_loop fuel' prefix line_numbers lc
  end.

(** Modelled from the spec: the default argument of [open], declared in
    rld-process.h, which is not part of the sources at hand; [output]
    "reopens the file read-only". *)
Definition open_default_writable : bool := false.

(** [output (prefix, out, line_numbers)].  Every iteration but the
    last takes at least one byte from the file, which bounds the loop. *)
Definition output (prefix : list ascii) (line_numbers : bool)
  : M (ostream * machine) unit :=
  fd_ <- on_handle (member fd) ;;
  if (fd_ =? -1)%Z then
    let lc := 0%Z in
    on_handle (open open_default_writable) ;;;
    n <- on_handle (gets (fun m => unread (fd (this m)) (kernel_of m))) ;;
    output_loop (S n) prefix line_numbers lc ;;;
    on_handle close
  else ret tt.

End members.
End tempfile.

(** [set_keep_temporary_files] is above; [temporaries_clean_up ()]. *)
Definition temporaries_clean_up : M process unit := temporary_files.clean_up.

(** *** parse_command_line *)

Inductive pstate : Type :=
| pstate_discard_space
| pstate_accumulate_quoted
| pstate_accumulate_raw.

Definition arg_container : Type := list string.

Definition quote : ascii := "034"%char.
Definition escape : ascii := "092"%char.

(** [::isspace] in the C locale: space and the controls HT, LF, VT, FF, CR. *)
Definition isspace (c : ascii) : bool :=
  let n := nat_of_ascii c in
  (n =? 32)%nat || ((9 <=? n)%nat && (n <=? 13)%nat).

(** [command[i]]: for [i = size ()] the standard returns a reference to
    the NUL character. *)
Definition at_ (s : string) (i : nat) : ascii :=
  match String.get i s with
  | Some c => c
  | None => zero
  end.

(** The [count] argument of [substr]; [npos] is "to the end". *)
Definition npos : option nat := None.

(** [i - 1] on a [size_t]: at [i = 0] it wraps to [SIZE_MAX], which is
    [npos]. *)
Definition size_t_pred (i : nat) : option nat :=
  match i with
  | O => npos
  | S j => Some j
  end.

(** [s.substr (pos, count)]: throws when [pos > size ()], otherwise the
    characters [pos, min (pos + count, size ())). *)
Definition substr (s : string) (pos : nat) (count : option nat) : option string :=
  if (String.length s <? pos)%nat then None
  else Some (substring pos (default (String.length s) count) s).

Fixpoint parse_loop (fuel : nat) (command : string) (state : pstate)
    (start i : nat) (args : arg_container) : result arg_container unit :=
  match fuel with
  | O => OutOfFuel
  | S fuel' =>
    if (i <? String.length command)%nat then
      match state with
      | pstate_discard_space =>
        if Ascii.eqb (at_ command i) quote then
          parse_loop fuel' command pstate_accumulate_quoted (i + 1) (i + 1) args
        else if isspace (at_ command i) then
          parse_loop fuel' command pstate_discard_space start (i + 1) args
        else
          parse_loop fuel' command pstate_accumulate_raw i i args
      | pstate_accumulate_quoted =>
        if Ascii.eqb (at_ command i) quote then
          match substr command start (size_t_pred i) with
          | Some tok =>
            parse_loop fuel' command pstate_discard_space start (i + 1)
                       (args ++ [tok])
          | None => Throw std_out_of_range args
          end
        else if Ascii.eqb (at_ command i) escape
                && Ascii.eqb (at_ command (i + 1)) quote then
          parse_loop fuel' command pstate_accumulate_quoted start (i + 2) args
        else
          parse_loop fuel' command pstate_accumulate_quoted start (i + 1) args
      | pstate_accumulate_raw =>
        if Ascii.eqb (at_ command i) quote then
          Throw (rld_error "quote in token" "command parse") args
        else if Ascii.eqb (at_ command i) escape
                && Ascii.eqb (at_ command (i + 1)) quote then
          parse_loop fuel' command pstate_accumulate_raw start (i + 2) args
        else if isspace (at_ command i) then
          match substr command start (size_t_pred i) with
          | Some tok =>
            parse_loop fuel' command pstate_discard_space start (i + 1)
                       (args ++ [tok])
          | None => Throw std_out_of_range args
          end
        else
          parse_loop fuel' command pstate_accumulate_raw start (i + 1) args
      end
    else Return tt args
  end.

(** [args.clear ()]. *)
Definition clear (args : arg_container) : arg_container := [].

(** Every iteration advances [i], except the one that leaves
    [pstate_discard_space] for [pstate_accumulate_raw], and that one is
    followed by an advancing iteration: twice the size (plus the final
    test) bounds the loop. *)
Definition parse_fuel (command : string) : nat :=
  S (2 * String.length command + 1).

Definition parse_command_line (command : string) (args : arg_container)
  : result arg_container unit :=
  let args := clear args in
  parse_loop (parse_fuel command) command pstate_discard_space 0 0 args.

(** The command of the documentation's tokenizer example:
    ["foo" bar "baz qux"], the quotes being part of the command. *)
Definition cmd_foo_bar_baz : string :=
  String quote ("foo" +:+ String quote (" bar " +:+ String quote ("baz qux" +:+ String quote ""))).

(** *** execute *)

Inductive status_type : Type :=
| normal
| signal
| stopped.

Record status : Type := {
  type : status_type;
  code : Z
}.

(** The macros that take the wait status apart. *)
Record wait_macros : Type := {
  WIFEXITED : Z -> bool;
  WEXITSTATUS : Z -> Z;
  WIFSIGNALED : Z -> bool;
  WTERMSIG : Z -> Z;
  WIFSTOPPED : Z -> bool;
  WSTOPSIG : Z -> Z
}.

(** The definitions the file gives the macros where the platform's
    headers give none. *)
Definition file_wait_macros : wait_macros :=
  {| WIFEXITED := fun S => (Z.land S 255 =? 0)%Z;
     WEXITSTATUS := fun S => Z.shiftr (Z.land S 65280) 8;
     WIFSIGNALED := fun S =>
       negb (Z.land S 255 =? 0)%Z && negb (Z.land S 255 =? 127)%Z;
     WTERMSIG := fun S => Z.land S 127;
     WIFSTOPPED := fun S => (Z.land S 255 =? 0)%Z;
     WSTOPSIG := fun S => Z.shiftr (Z.land S 65280) 8 |}.

(** What [pex_one] of libiberty hands back: its result [serr], [*err]
    and the wait status [*status]. *)
Record pex_result : Type := {
  serr : option string;
  err : Z;
  s : Z
}.

(** The platform of [execute]: the wait macros, [rld::verbose
    (RLD_VERBOSE_TRACE)], and [pex_one] as a function of the program, the
    argument vector, [pname], [outname] and [errname]. *)
Record platform : Type := {
  wait_h : wait_macros;
  verbose_trace : bool;
  pex_one : string -> arg_container -> string -> string -> string -> pex_result
}.

Definition cout {St} (x : ostream_item) : M (ostream * St) unit := put_to x.

Definition text (x : string) : ostream_item := os_str (list_ascii_of_string x).

(** The loop that echoes the arguments. *)
Fixpoint echo_args (args : arg_container) : M (ostream * unit) unit :=
  match args with
  | [] => ret tt
  | a :: args' => cout (text a) ;;; cout (os_chr " "%char) ;;; echo_args args'
  end.

(** [execute (pname, args, outname, errname)].  [args[0]] on an empty
    container is outside the array. *)
Definition execute (P : platform) (pname : string) (args : arg_container)
    (outname errname : string) : M (ostream * unit) status :=
  (if verbose_trace P then
     cout (text "execute: ") ;;; echo_args args ;;; cout os_endl
   else ret tt) ;;;
  match args with
  | [] => undefined
  | args_0 :: _ =>
    let r := pex_one P args_0 args pname outname errname in
    match serr r with
    | Some msg => throw (rld_error ("execute: " +:+ args_0) msg)
    | None =>
      if negb (err r =? 0)%Z then
        throw (rld_error ("execute: " +:+ args_0) (posix.strerror (err r)))
      else
        (if verbose_trace P then cout (text "execute: status: ") else ret tt) ;;;
        if WIFEXITED (wait_h P) (s r) then
          let _status := {| type := normal; code := WEXITSTATUS (wait_h P) (s r) |} in
          (if verbose_trace P then
             cout (os_int (code _status)) ;;; cout os_endl
           else ret tt) ;;;
          ret _status
        else if WIFSIGNALED (wait_h P) (s r) then
          let _status := {| type := signal; code := WTERMSIG (wait_h P) (s r) |} in
          (if verbose_trace P then
             cout (text "signal: ") ;;; cout (os_int (code _status)) ;;; cout os_endl
           else ret tt) ;;;
          ret _status
        else if WIFSTOPPED (wait_h P) (s r) then
          let _status := {| type := stopped; code := WSTOPSIG (wait_h P) (s r) |} in
          (if verbose_trace P then
             cout (text "stopped: ") ;;; cout (os_int (code _status)) ;;; cout os_endl
           else ret tt) ;;;
          ret _status
        else
          throw (rld_error ("execute: " +:+ args_0) "unknown status returned")
    end
  end.

(** [execute (pname, command, outname, errname)]: the arguments come
    from [parse_command_line] on a fresh container. *)
Definition execute_command (P : platform) (pname command outname errname : string)
  : M (ostream * unit) status :=
  fun st =>
    let args : arg_container := [] in
    match parse_command_line command args with
    | Return _ args => execute P pname args outname errname st
    | Throw e _ => Throw e st
    | Undefined => Undefined
    | OutOfFuel => OutOfFuel
    end.

End RldProcess.

(** ** Trace::TraceWriterQEMU *)

(** The range records of a trace list (TraceList.h); only the members
    the writer reads. *)
Module TraceList.
Record traceRange_t : Type := {
  lowAddress : Z;
  length : Z;
  exitReason : Z
}.
End TraceList.

Module TraceWriterQEMU.

(** The format constants of qemu-traces.h and the enumerators of
    [TraceList::exitReason_t].  Neither header is part of the sources at
    hand, so the values are parameters of the model. *)
Record qemu_traces_h : Type := {
  QEMU_TRACE_MAGIC : string;
  QEMU_TRACE_VERSION : Z;
  QEMU_TRACE_KIND_RAW : Z;
  TRACE_OP_BLOCK : Z;
  EXIT_REASON_BRANCH_TAKEN : Z;
  EXIT_REASON_BRANCH_NOT_TAKEN : Z;
  EXIT_REASON_OTHER : Z
}.

Record trace_header : Type := {
  magic : string;
  version : Z;
  kind : Z;
  sizeof_target_pc : Z;
  big_endian : bool;
  machine : Z * Z
}.

Record trace_entry32 : Type := {
  pc : Z;
  size : Z;
  op : Z
}.

(** What the writer needs from [TargetInfo], [Verbose] and the C
    library: whether [fopen] succeeds, and what the k-th call of
    [fwrite] returns. *)
Record environment : Type := {
  qemuTakenBit : Z;
  qemuNotTakenBit : Z;
  Verbose : bool;
  fopen_ok : string -> bool;
  fwrite_status : nat -> Z
}.

Inductive printf_arg : Type :=
| arg_s (s : string)
| arg_d (z : Z).

(** The observable actions of [writeFile], in program order. *)
Inductive event : Type :=
| ev_fprintf_stderr (format : string) (args : list printf_arg)
| ev_fopen (file mode : string) (opened : bool)
| ev_fwrite_header (h : trace_header) (status : Z)
| ev_fwrite_entry (e : trace_entry32) (status : Z)
| ev_fclose.

Inductive outcome : Type :=
| returned (b : bool)
| exited (code : Z).       (* exit (code) *)

Definition uint8_t (z : Z) : Z := z mod 256.

(** The newline of the format strings. *)
Definition nl : string := String "010"%char "".

Section writer.
Variable H : qemu_traces_h.
Variable env : environment.

(** The [switch] on [itr->exitReason], applied to
    [entry.op = TRACE_OP_BLOCK]; [None] is the [default:] branch. *)
Definition entry_op (taken notTaken : Z) (exitReason : Z) : option Z :=
  let op := uint8_t (TRACE_OP_BLOCK H) in
  if (exitReason =? EXIT_REASON_BRANCH_TAKEN H)%Z then
    Some (uint8_t (Z.lor op taken))
  else if (exitReason =? EXIT_REASON_BRANCH_NOT_TAKEN H)%Z then
    Some (uint8_t (Z.lor op notTaken))
  else if (exitReason =? EXIT_REASON_OTHER H)%Z then
    Some op
  else None.

(** The [for] loop over [log->Trace.set]; [k] counts the calls of
    [fwrite] made so far. *)
Fixpoint write_entries (file : string) (taken notTaken : Z) (k : nat)
    (set : list TraceList.traceRange_t) : outcome * list event :=
  match set with
  | [] => (returned true, [ev_fclose])
  | itr :: rest =>
    match entry_op taken notTaken (TraceList.exitReason itr) with
    | None =>
      (exited 1, [ev_fprintf_stderr ("Unknown exit Reason" +:+ nl) []])
    | Some o =>
      let entry := {| pc := TraceList.lowAddress itr;
                      size := TraceList.length itr;
                      op := o |} in
      let trace :=
        if Verbose env then
          [ev_fprintf_stderr ("%x %x %x" +:+ nl) [arg_d (pc entry); arg_d (size entry); arg_d (op entry)]]
        else [] in
      let status := fwrite_status env k in
      if (status =? 1)%Z then
        let '(r, evs) := write_entries file taken notTaken (S k) rest in
        (r, trace ++ ev_fwrite_entry entry status :: evs)
      else
        (returned false,
         trace ++ [ev_fwrite_entry entry status;
                   ev_fprintf_stderr ("Unable to write entry to %s" +:+ nl) [arg_s file]])
    end
  end.

Definition writeFile (file : string) (log : list TraceList.traceRange_t)
  : outcome * list event :=
  let taken := uint8_t (qemuTakenBit env) in
  let notTaken := uint8_t (qemuNotTakenBit env) in
  match log with
  | [] => (returned false, [ev_fprintf_stderr ("ERROR: Empty TraceList" +:+ nl) []])
  | _ :: _ =>
    if negb (fopen_ok env file) then
      (returned false,
       [ev_fopen file "w" false;
        ev_fprintf_stderr ("Unable to open %s" +:+ nl) [arg_s file]])
    else
      let header := {| magic := QEMU_TRACE_MAGIC H;
                       version := QEMU_TRACE_VERSION H;
                       kind := QEMU_TRACE_KIND_RAW H;
                       sizeof_target_pc := 32;
                       big_endian := false;
                       machine := (0, 0)%Z |} in
      let status := fwrite_status env 0 in
      if negb (status =? 1)%Z then
        (returned false,
         [ev_fopen file "w" true;
          ev_fwrite_header header status;
          ev_fprintf_stderr ("Unable to write header to %s" +:+ nl) [arg_s file]])
      else
        let trace :=
          if Verbose env then
            [ev_fprintf_stderr
               ("magic = %s" +:+ nl +:+ "version = %d" +:+ nl +:+ "kind = %d" +:+ nl
                  +:+ "sizeof_target_pc = %d" +:+ nl +:+ "big_endian = %d" +:+ nl
                  +:+ "machine = %02x:%02x" +:+ nl)
               [arg_s (magic header); arg_d (version header);
                arg_d (kind header); arg_d (sizeof_target_pc header);
                arg_d (if big_endian header then 1 else 0)%Z;
                arg_d (fst (machine header)); arg_d (snd (machine header))]]
          else [] in
        let '(r, evs) := write_entries file taken notTaken 1 log in
        (r, ev_fopen file "w" true :: ev_fwrite_header header status
              :: trace ++ evs)
  end.

(** What the events say about the file system and the file. *)
Definition opens_file (e : event) : bool :=
  match e with ev_fopen _ _ _ => true | _ => false end.

Definition header_of (e : event) : option trace_header :=
  match e with ev_fwrite_header h 1 => Some h | _ => None end.

Definition entry_of (e : event) : option trace_entry32 :=
  match e with ev_fwrite_entry x 1 => Some x | _ => None end.

Definition headers_written (evs : list event) : list trace_header :=
  omap header_of evs.

Definition entries_written (evs : list event) : list trace_entry32 :=
  omap entry_of evs.

End writer.

End TraceWriterQEMU.

(** * Auxiliary definitions for the proofs *)

(** The variant of the parser's loop. *)
Definition parse_measure (command : string) (state : RldProcess.pstate) (i : nat) : nat :=
  2 * (String.length command - i)
  + match state with RldProcess.pstate_discard_space => 1 | _ => 0 end.

(** A command without quote and white space: one unquoted word. *)
Fixpoint plain_word (s : string) : bool :=
  match s with
  | EmptyString => true
  | String c s' =>
    negb (Ascii.eqb c RldProcess.quote) && negb (RldProcess.isspace c)
    && plain_word s'
  end.

(** The exit reasons the writer's [switch] has a [case] for. *)
Definition recognized (H : TraceWriterQEMU.qemu_traces_h) (reason : Z) : bool :=
  (reason =? TraceWriterQEMU.EXIT_REASON_BRANCH_TAKEN H)%Z
  || (reason =? TraceWriterQEMU.EXIT_REASON_BRANCH_NOT_TAKEN H)%Z
  || (reason =? TraceWriterQEMU.EXIT_REASON_OTHER H)%Z.

(** The operation byte the documentation asks for, by exit reason. *)
Definition op_spec (H : TraceWriterQEMU.qemu_traces_h)
    (env : TraceWriterQEMU.environment) (reason o : Z) : Prop :=
  (reason = TraceWriterQEMU.EXIT_REASON_BRANCH_TAKEN H ->
   o = Z.lor (TraceWriterQEMU.TRACE_OP_BLOCK H) (TraceWriterQEMU.qemuTakenBit env))
  /\ (reason = TraceWriterQEMU.EXIT_REASON_BRANCH_NOT_TAKEN H ->
      o = Z.lor (TraceWriterQEMU.TRACE_OP_BLOCK H) (TraceWriterQEMU.qemuNotTakenBit env))
  /\ (reason = TraceWriterQEMU.EXIT_REASON_OTHER H ->
      o = TraceWriterQEMU.TRACE_OP_BLOCK H).

(** The entries [fwrite] was called with, written or not. *)
Definition entries_attempted (evs : list TraceWriterQEMU.event)
  : list TraceWriterQEMU.trace_entry32 :=
  omap (fun e => match e with
                 | TraceWriterQEMU.ev_fwrite_entry x _ => Some x
                 | _ => None
                 end) evs.

(** A record and the entry written for it agree on address, length and
    operation byte. *)
Definition entry_for (H : TraceWriterQEMU.qemu_traces_h)
    (env : TraceWriterQEMU.environment)
    (itr : TraceList.traceRange_t) (e : TraceWriterQEMU.trace_entry32) : Prop :=
  TraceWriterQEMU.pc e = TraceList.lowAddress itr
  /\ TraceWriterQEMU.size e = TraceList.length itr
  /\ recognized H (TraceList.exitReason itr) = true
  /\ op_spec H env (TraceList.exitReason itr) (TraceWriterQEMU.op e).

(** A byte, as [uint8_t] holds it. *)
Definition is_byte (z : Z) : Prop := (0 <= z < 256)%Z.

(** Sample values, for running the writer: format constants in the
    style of qemu-traces.h, a target whose taken bit is 0x01, and a C
    library whose calls all succeed. *)
Definition sample_constants : TraceWriterQEMU.qemu_traces_h :=
  {| TraceWriterQEMU.QEMU_TRACE_MAGIC := "#QEMU-Traces";
     TraceWriterQEMU.QEMU_TRACE_VERSION := 1;
     TraceWriterQEMU.QEMU_TRACE_KIND_RAW := 0;
     TraceWriterQEMU.TRACE_OP_BLOCK := 16;
     TraceWriterQEMU.EXIT_REASON_BRANCH_TAKEN := 0;
     TraceWriterQEMU.EXIT_REASON_BRANCH_NOT_TAKEN := 1;
     TraceWriterQEMU.EXIT_REASON_OTHER := 2 |}.

Definition sample_environment : TraceWriterQEMU.environment :=
  {| TraceWriterQEMU.qemuTakenBit := 1;
     TraceWriterQEMU.qemuNotTakenBit := 2;
     TraceWriterQEMU.Verbose := false;
     TraceWriterQEMU.fopen_ok := fun _ => true;
     TraceWriterQEMU.fwrite_status := fun _ => 1%Z |}.

(** The record {address = 0x1000, length = 4, exit reason = taken}. *)
Definition sample_record : TraceList.traceRange_t :=
  {| TraceList.lowAddress := 4096;
     TraceList.length := 4;
     TraceList.exitReason := 0 |}.

(** A process to run the temporary files in: one registered temporary
    file, present and empty, no descriptor open; [sw] and [sr] schedule the
    short writes and reads of the kernel. *)
Definition sample_path : string := "/tmp/ccTf9a.tmp".

Definition sample_kernel (sw : list Z) (sr : list nat) : posix.kernel :=
  {| posix.files := {[ sample_path := [] ]};
     posix.fdtable := ∅;
     posix.errno := 0;
     posix.short_writes := sw;
     posix.short_reads := sr;
     posix.create_errors := ∅ |}.

Definition sample_tempfile (BUF_SIZE : nat) : RldProcess.tempfile :=
  {| RldProcess._name := sample_path;
     RldProcess.suffix := ".tmp";
     RldProcess.overridden := false;
     RldProcess.fd := -1;
     RldProcess.buf := replicate BUF_SIZE "x"%char;
     RldProcess.level := 0 |}.

Definition sample_machine (BUF_SIZE : nat) (keep_all keep_one : bool)
    (sw : list Z) (sr : list nat) : RldProcess.machine :=
  {| RldProcess.this := sample_tempfile BUF_SIZE;
     RldProcess.proc :=
       {| RldProcess.keep_temporary_files := keep_all;
          RldProcess.temporaries :=
            [ {| RldProcess.name := sample_path; RldProcess.keep := keep_one |} ];
          RldProcess.os := sample_kernel sw sr |} |}.

(** The content of the file [path] once a member function has returned. *)
Definition file_after {A} (path : string) (r : result RldProcess.machine A)
  : option (list ascii) :=
  match r with
  | Return _ m => posix.files (RldProcess.kernel_of m) !! path
  | _ => None
  end.

(** Text as [read_line] can scan it: no NUL (the scan of [strchr] stops
    there); a line has no line feed either. *)
Definition nul_free (l : list ascii) : Prop := Forall (fun c => c <> NUL) l.

Definition line_text (l : list ascii) : Prop :=
  Forall (fun c => c <> LF /\ c <> NUL) l.

(** The position of the first line feed. *)
Fixpoint lf_index (l : list ascii) : option nat :=
  match l with
  | [] => None
  | c :: l' => if Ascii.eqb c LF then Some 0 else S <$> lf_index l'
  end.

(** The first line of a stream of bytes, through its line feed (all of
    it when there is none), and what follows it. *)
Definition first_line (R : list ascii) : list ascii * list ascii :=
  match lf_index R with
  | Some j => (take (S j) R, drop (S j) R)
  | None => (R, [])
  end.

(** The handle is open on a file and its buffer is in order: the bytes
    it still has to deliver, buffered and unread, are [R]. *)
Definition reading_inv (BUF_SIZE : nat) (m : RldProcess.machine)
    (R : list ascii) : Prop :=
  exists f,
    posix.lookup_fd (RldProcess.fd (RldProcess.this m)) (RldProcess.kernel_of m)
    = Some f
    /\ length (RldProcess.buf (RldProcess.this m)) = BUF_SIZE
    /\ RldProcess.level (RldProcess.this m) + 1 < BUF_SIZE
    /\ R = take (RldProcess.level (RldProcess.this m))
             (RldProcess.buf (RldProcess.this m))
           ++ drop (posix.of_pos f)
                (posix.file_data (posix.of_path f) (RldProcess.kernel_of m))
    /\ nul_free R.

(** The same, between the two halves of an iteration of [read_line]:
    the buffer holds [C], terminated by a NUL, and [A] is unread. *)
Definition filled_inv (BUF_SIZE : nat) (m : RldProcess.machine)
    (C A : list ascii) : Prop :=
  exists f Zs,
    posix.lookup_fd (RldProcess.fd (RldProcess.this m)) (RldProcess.kernel_of m)
    = Some f
    /\ RldProcess.buf (RldProcess.this m) = C ++ NUL :: Zs
    /\ length (RldProcess.buf (RldProcess.this m)) = BUF_SIZE
    /\ 2 <= BUF_SIZE
    /\ RldProcess.level (RldProcess.this m) = length C
    /\ A = drop (posix.of_pos f)
             (posix.file_data (posix.of_path f) (RldProcess.kernel_of m))
    /\ nul_free (C ++ A).

(** What a member function of the handle leaves alone. *)
Definition frame (m m' : RldProcess.machine) : Prop :=
  RldProcess._name (RldProcess.this m') = RldProcess._name (RldProcess.this m)
  /\ RldProcess.overridden (RldProcess.this m')
     = RldProcess.overridden (RldProcess.this m)
  /\ posix.files (RldProcess.kernel_of m') = posix.files (RldProcess.kernel_of m)
  /\ posix.short_writes (RldProcess.kernel_of m')
     = posix.short_writes (RldProcess.kernel_of m).

(** The handle is open for writing at the end of its file, whose
    content is [F], and no short write is scheduled. *)
Definition writing_inv (m : RldProcess.machine) (F : list ascii) : Prop :=
  exists f,
    posix.lookup_fd (RldProcess.fd (RldProcess.this m)) (RldProcess.kernel_of m)
    = Some f
    /\ posix.O_RDWR (posix.of_flags f) = true
    /\ posix.of_path f = RldProcess._name (RldProcess.this m)
    /\ posix.files (RldProcess.kernel_of m) !! posix.of_path f = Some F
    /\ posix.of_pos f = length F
    /\ posix.short_writes (RldProcess.kernel_of m) = [].

(** Read line after line, as the loop of [tempfile::output] does, for
    [n] calls of [read_line]. *)
Fixpoint read_lines (BUF_SIZE : nat) (n : nat)
  : M RldProcess.machine (list (list ascii)) :=
  match n with
  | O => ret []
  | S n' =>
    line <- RldProcess.tempfile.read_line BUF_SIZE ;;
    lines <- read_lines BUF_SIZE n' ;;
    ret (line :: lines)
  end.

(** Write the lines, reopen the file and read [n] lines back; the
    lines read, when every call returns. *)
Definition write_then_read (BUF_SIZE : nat) (RLD_LINE_SEPARATOR : list ascii)
    (ss : list (list ascii)) (n : nat) : M RldProcess.machine (list (list ascii)) :=
  RldProcess.tempfile.open true ;;;
  RldProcess.tempfile.write_lines RLD_LINE_SEPARATOR ss ;;;
  RldProcess.tempfile.close ;;;
  RldProcess.tempfile.open false ;;;
  read_lines BUF_SIZE n.

Definition returned_value {St A} (r : result St A) : option A :=
  match r with
  | Return a _ => Some a
  | _ => None
  end.

(** Two lines without line feed, the first with a NUL in it. *)
Definition nul_lines : list (list ascii) :=
  [ ["a"%char; NUL; "b"%char]; ["c"%char] ].

(** Three lines of text, the first longer than a small buffer, the
    second empty. *)
Definition text_lines : list (list ascii) :=
  [ list_ascii_of_string "hello world"; []; list_ascii_of_string "ab" ].

(** Whether [path] is the path of a record that is not marked keep. *)
Definition unkept (regs : RldProcess.tempfile_container) (path : string) : bool :=
  existsb (fun r => String.eqb (RldProcess.name r) path
                    && negb (RldProcess.keep r)) regs.

(** The handle is open for writing at the end of its file, whose
    content is [F], and [sw] are the short writes scheduled. *)
Definition writable_at (m : RldProcess.machine) (F : list ascii)
    (sw : list Z) : Prop :=
  exists f,
    posix.lookup_fd (RldProcess.fd (RldProcess.this m)) (RldProcess.kernel_of m)
    = Some f
    /\ posix.O_RDWR (posix.of_flags f) = true
    /\ posix.of_path f = RldProcess._name (RldProcess.this m)
    /\ posix.files (RldProcess.kernel_of m) !! posix.of_path f = Some F
    /\ posix.of_pos f = length F
    /\ posix.short_writes (RldProcess.kernel_of m) = sw.

(** The sample handle, closed and overridden to [path], in a process
    whose kernel cannot create a file there and answers error [e]. *)
Definition sample_no_create (path : string) (e : Z) : RldProcess.machine :=
  {| RldProcess.this :=
       RldProcess.with_overridden true
         (RldProcess.with_name path (sample_tempfile 8));
     RldProcess.proc :=
       {| RldProcess.keep_temporary_files := false;
          RldProcess.temporaries :=
            [ {| RldProcess.name := sample_path; RldProcess.keep := false |} ];
          RldProcess.os :=
            {| posix.files := {[ sample_path := [] ]};
               posix.fdtable := ∅;
               posix.errno := 0;
               posix.short_writes := [];
               posix.short_reads := [];
               posix.create_errors := {[ path := e ]} |} |} |}.

(** The handle is open for writing on its file, whose content is [F];
    the next [::write] goes to offset [pos], which is the end of the file
    under [O_APPEND], and no short write is scheduled. *)
Definition writable_from (m : RldProcess.machine) (F : list ascii)
    (pos : nat) : Prop :=
  exists f,
    posix.lookup_fd (RldProcess.fd (RldProcess.this m)) (RldProcess.kernel_of m)
    = Some f
    /\ posix.O_RDWR (posix.of_flags f) = true
    /\ posix.of_path f = RldProcess._name (RldProcess.this m)
    /\ posix.files (RldProcess.kernel_of m) !! posix.of_path f = Some F
    /\ (if posix.O_APPEND (posix.of_flags f) then length F
        else posix.of_pos f) = pos
    /\ posix.short_writes (RldProcess.kernel_of m) = [].


(** The state a member function leaves, returning or throwing. *)
Definition state_of {St A} (r : result St A) (d : St) : St :=
  match r with
  | Return _ s => s
  | Throw _ s => s
  | _ => d
  end.

(** The sample handle, opened for writing on its empty file, with the
    short writes [sw] scheduled. *)
Definition sample_writer (sw : list Z) : RldProcess.machine :=
  state_of (RldProcess.tempfile.open true (sample_machine 8 false false sw []))
    (sample_machine 8 false false sw []).

(** The handle is open and its buffer in order; [R] is what it still
    has to deliver, whatever the bytes are. *)
Definition buffered_inv (BUF_SIZE : nat) (m : RldProcess.machine)
    (R : list ascii) : Prop :=
  exists f,
    posix.lookup_fd (RldProcess.fd (RldProcess.this m)) (RldProcess.kernel_of m)
    = Some f
    /\ length (RldProcess.buf (RldProcess.this m)) = BUF_SIZE
    /\ RldProcess.level (RldProcess.this m) + 1 < BUF_SIZE
    /\ R = take (RldProcess.level (RldProcess.this m))
             (RldProcess.buf (RldProcess.this m))
           ++ drop (posix.of_pos f)
                (posix.file_data (posix.of_path f) (RldProcess.kernel_of m)).

(** The lines of a text: each through its line feed, the last one
    possibly without.  [fuel] bounds the number of lines. *)
Fixpoint lines_of (fuel : nat) (R : list ascii) : list (list ascii) :=
  match fuel with
  | O => []
  | S fuel' =>
    match R with
    | [] => []
    | _ :: _ => (first_line R).1 :: lines_of fuel' (first_line R).2
    end
  end.

(** What [output] is to insert for the lines, [lc] lines having gone
    before. *)
Fixpoint render (prefix : list ascii) (line_numbers : bool) (lc : Z)
    (lines : list (list ascii)) : RldProcess.ostream :=
  match lines with
  | [] => []
  | line :: rest =>
    (if negb (length prefix =? 0)%nat then
       [RldProcess.os_str prefix; RldProcess.os_str (list_ascii_of_string ": ")]
     else [])
    ++ (if line_numbers then
          [RldProcess.os_int (lc + 1);
           RldProcess.os_str (list_ascii_of_string ": ")]
        else [])
    ++ [RldProcess.os_str line; RldProcess.os_flush]
    ++ render prefix line_numbers (lc + 1) rest
  end.

(** [read_line] followed by [read]. *)
Definition read_line_then_read (BUF_SIZE : nat)
  : M RldProcess.machine (list ascii * list ascii) :=
  line <- RldProcess.tempfile.read_line BUF_SIZE ;;
  rest <- RldProcess.tempfile.read BUF_SIZE ;;
  ret (line, rest).

(** The sample handle opened for reading on a file that holds [F], by
    a kernel that cuts the reads as [sr] says; its buffer has 4 bytes. *)
Definition sample_file_machine (F : list ascii) (sr : list nat)
  : RldProcess.machine :=
  {| RldProcess.this := sample_tempfile 4;
     RldProcess.proc :=
       {| RldProcess.keep_temporary_files := false;
          RldProcess.temporaries :=
            [ {| RldProcess.name := sample_path; RldProcess.keep := false |} ];
          RldProcess.os :=
            {| posix.files := {[ sample_path := F ]};
               posix.fdtable := ∅;
               posix.errno := 0;
               posix.short_writes := [];
               posix.short_reads := sr;
               posix.create_errors := ∅ |} |} |}.

Definition sample_reader (F : list ascii) (sr : list nat) : RldProcess.machine :=
  state_of (RldProcess.tempfile.open false (sample_file_machine F sr))
    (sample_file_machine F sr).

(** The sample handle opened for writing on a file that holds [F]:
    the name is not overridden, so the file is neither truncated nor
    opened for appending. *)
Definition sample_rewriter (F : list ascii) : RldProcess.machine :=
  state_of (RldProcess.tempfile.open true (sample_file_machine F []))
    (sample_file_machine F []).

(** A text whose last line has no line feed. *)
Definition sample_text : list ascii :=
  list_ascii_of_string "first line" ++ [LF] ++ list_ascii_of_string "last".

(** The exception a call left with, if it threw. *)
Definition thrown {St A} (r : result St A) : option exn :=
  match r with
  | Throw e _ => Some e
  | _ => None
  end.

(** A platform to run [execute] on: the file's own wait macros, tracing
    on, and a child that leaves the wait status [st]. *)
Definition sample_platform (st : Z) : RldProcess.platform :=
  {| RldProcess.wait_h := RldProcess.file_wait_macros;
     RldProcess.verbose_trace := true;
     RldProcess.pex_one := fun _ _ _ _ _ =>
       {| RldProcess.serr := None; RldProcess.err := 0; RldProcess.s := st |} |}.

(** The exception of [parse_command_line]. *)
Definition quote_error : exn := rld_error "quote in token" "command parse".

(** [a] is a run of consecutive characters of [command]. *)
Definition piece_of (command a : string) : Prop :=
  exists pos n, a = substring pos n command.

(** Characters of an unquoted word that need no escape: no quote, no
    white space, no backslash. *)
Fixpoint word_chars (s : string) : bool :=
  match s with
  | EmptyString => true
  | String c s' =>
    negb (Ascii.eqb c RldProcess.quote) && negb (RldProcess.isspace c)
    && negb (Ascii.eqb c RldProcess.escape) && word_chars s'
  end.

(** Characters between quotes that need no escape: no quote, no
    backslash. *)
Fixpoint quoted_chars (s : string) : bool :=
  match s with
  | EmptyString => true
  | String c s' =>
    negb (Ascii.eqb c RldProcess.quote) && negb (Ascii.eqb c RldProcess.escape)
    && quoted_chars s'
  end.

(** White space only. *)
Fixpoint all_space (s : string) : bool :=
  match s with
  | EmptyString => true
  | String c s' => RldProcess.isspace c && all_space s'
  end.


(** The environment with [Verbose] set to [b]. *)
Definition with_Verbose (b : bool) (env : TraceWriterQEMU.environment)
  : TraceWriterQEMU.environment :=
  {| TraceWriterQEMU.qemuTakenBit := TraceWriterQEMU.qemuTakenBit env;
     TraceWriterQEMU.qemuNotTakenBit := TraceWriterQEMU.qemuNotTakenBit env;
     TraceWriterQEMU.Verbose := b;
     TraceWriterQEMU.fopen_ok := TraceWriterQEMU.fopen_ok env;
     TraceWriterQEMU.fwrite_status := TraceWriterQEMU.fwrite_status env |}.

(** The calls on the trace file, as opposed to the messages on stderr. *)
Definition file_event (e : TraceWriterQEMU.event) : bool :=
  match e with
  | TraceWriterQEMU.ev_fprintf_stderr _ _ => false
  | _ => true
  end.

Definition closes_file (e : TraceWriterQEMU.event) : bool :=
  match e with
  | TraceWriterQEMU.ev_fclose => true
  | _ => false
  end.

(** * Properties *)

(** ** The command-line parser *)

Section parse_facts.
Import RldProcess.

Lemma parse_loop_total fuel : forall command state start i args,
  parse_measure command state i < fuel ->
  parse_loop fuel command state start i args <> OutOfFuel.
Proof.
  induction fuel as [|fuel IH]; intros command state start i args Hm.
  - lia.
  - simpl. destruct (i <? String.length command)%nat eqn:Hi; [|discriminate].
    apply Nat.ltb_lt in Hi. unfold parse_measure in *.
    destruct state.
    + destruct (Ascii.eqb _ quote); [apply IH; lia|].
      destruct (isspace _); apply IH; lia.
    + destruct (Ascii.eqb _ quote).
      * destruct (substr _ _ _); [apply IH; lia | discriminate].
      * destruct (_ && _); apply IH; lia.
    + destruct (Ascii.eqb _ quote); [discriminate|].
      destruct (_ && _); [apply IH; lia|].
      destruct (isspace _); [|apply IH; lia].
      destruct (substr _ _ _); [apply IH; lia | discriminate].
Qed.

(** The loop of [parse_command_line] ends on every command. *)
Lemma parse_command_line_total command args :
  parse_command_line command args <> OutOfFuel.
Proof.
  unfold parse_command_line. apply parse_loop_total.
  unfold parse_measure, parse_fuel. lia.
Qed.

(** The parser has no out-of-bounds access either. *)
Lemma parse_loop_defined fuel : forall command state start i args,
  parse_loop fuel command state start i args <> Undefined.
Proof.
  induction fuel as [|fuel IH]; intros command state start i args; simpl.
  - discriminate.
  - destruct (i <? String.length command)%nat; [|discriminate].
    destruct state; repeat (case_match; try discriminate; try apply IH).
Qed.

Lemma plain_word_at s : forall i,
  plain_word s = true ->
  Ascii.eqb (at_ s i) quote = false /\ isspace (at_ s i) = false.
Proof.
  induction s as [|c s IH]; intros i Hp.
  - destruct i; split; reflexivity.
  - simpl in Hp. apply andb_true_iff in Hp as [Hc Hs].
    apply andb_true_iff in Hc as [Hq Hw].
    apply negb_true_iff in Hq, Hw.
    destruct i as [|i]; [split; assumption|].
    apply (IH i Hs).
Qed.

Lemma parse_loop_plain_word fuel : forall command start i args,
  plain_word command = true ->
  parse_measure command pstate_accumulate_raw i < fuel ->
  parse_loop fuel command pstate_accumulate_raw start i args = Return tt args.
Proof.
  induction fuel as [|fuel IH]; intros command start i args Hp Hm; [lia|].
  simpl. destruct (i <? String.length command)%nat eqn:Hi; [|reflexivity].
  apply Nat.ltb_lt in Hi. unfold parse_measure in *.
  destruct (plain_word_at command i Hp) as [-> ->].
  destruct (plain_word_at command (i + 1) Hp) as [-> _].
  rewrite andb_false_r. apply IH; [assumption | lia].
Qed.

(** Claim C1.  The documentation's tokenizer example: the command
    ["foo" bar "baz qux"] (quotes included) is said to parse to the three
    arguments [foo], [bar] and [baz qux].  The parser passes the end
    position [i - 1] to [substr] where a length is expected, so only a
    token that starts at position 1 is cut where it ends: the second
    argument runs on into the third token and the third keeps its closing
    quote. *)
Theorem parse_command_line_example_tokens :
  parse_command_line cmd_foo_bar_baz []
  = Return tt ["foo";
               "bar " +:+ String quote "baz";
               "baz qux" +:+ String quote ""]
  /\ parse_command_line cmd_foo_bar_baz [] <> Return tt ["foo"; "bar"; "baz qux"].
Proof.
  split; [vm_compute; reflexivity|].
  vm_compute. intros Heq. discriminate Heq.
Qed.

(** Claim C2.  A command that ends inside a token: the loop stops at the end
    of the string and nothing is pushed after it, so the pending token is
    lost.  A command that is one unquoted word yields no argument at
    all. *)
Theorem parse_command_line_drops_pending_token command args :
  plain_word command = true ->
  parse_command_line command args = Return tt [].
Proof.
  intros Hp. unfold parse_command_line, parse_fuel, clear.
  cbn [parse_loop].
  destruct (0 <? String.length command)%nat eqn:Hlen; [|reflexivity].
  destruct (plain_word_at command 0 Hp) as [-> ->].
  apply parse_loop_plain_word; [assumption|].
  unfold parse_measure. lia.
Qed.

Lemma parse_command_line_drops_pending_token_witness :
  plain_word "abc" = true
  /\ parse_command_line "abc" ["stale"] = Return tt [].
Proof.
  split; [reflexivity|].
  apply (parse_command_line_drops_pending_token "abc" ["stale"]).
  reflexivity.
Defined.

(** The same loss inside a quoted token: a quote that is never closed. *)
Example parse_command_line_unterminated_quote :
  parse_command_line (String quote "abc def") [] = Return tt [].
Proof. vm_compute. reflexivity. Qed.

(** Claim C10.  [parse_command_line] starts with [args.clear ()]: what the
    container held before the call has no part in the result, which is a
    function of the command alone (and the call ends on every
    command). *)
Theorem parse_command_line_clears_args command args args' :
  parse_command_line command args = parse_command_line command args'
  /\ parse_command_line command args = parse_command_line command []
  /\ parse_command_line command args <> OutOfFuel.
Proof.
  split; [reflexivity|]. split; [reflexivity|].
  apply parse_command_line_total.
Qed.

End parse_facts.

(** ** The trace writer *)

Section writer_facts.
Import TraceWriterQEMU.

Variable H : qemu_traces_h.
Variable env : environment.

Lemma lor_byte a b : is_byte a -> is_byte b -> uint8_t (Z.lor a b) = Z.lor a b.
Proof.
  unfold is_byte, uint8_t. intros Ha Hb. change 256%Z with (2 ^ 8)%Z.
  rewrite <- Z.land_ones by lia.
  rewrite Z.land_lor_distr_l, !Z.land_ones by lia.
  change (2 ^ 8)%Z with 256%Z. rewrite !Z.mod_small by lia. reflexivity.
Qed.

Lemma uint8_t_byte a : is_byte a -> uint8_t a = a.
Proof. unfold is_byte, uint8_t. intros Ha. apply Z.mod_small. lia. Qed.

Lemma entry_op_None taken notTaken reason :
  entry_op H taken notTaken reason = None <-> recognized H reason = false.
Proof.
  unfold entry_op, recognized.
  destruct (reason =? EXIT_REASON_BRANCH_TAKEN H)%Z; [split; discriminate|].
  destruct (reason =? EXIT_REASON_BRANCH_NOT_TAKEN H)%Z; [split; discriminate|].
  destruct (reason =? EXIT_REASON_OTHER H)%Z; [split; discriminate|].
  split; reflexivity.
Qed.


Lemma write_entries_no_header file taken notTaken : forall set k,
  headers_written (write_entries H env file taken notTaken k set).2 = [].
Proof.
  unfold headers_written.
  induction set as [|itr rest IH]; intros k; cbn [write_entries].
  - reflexivity.
  - destruct (entry_op _ _ _ _) as [o|]; [|reflexivity].
    destruct (fwrite_status env k =? 1)%Z.
    + specialize (IH (S k)).
      destruct (write_entries H env file taken notTaken (S k) rest) as [r evs].
      cbn [snd] in *. destruct (Verbose env); cbn; exact IH.
    + destruct (Verbose env); reflexivity.
Qed.

(** Claim C6.  An empty record list: [writeFile] reports the error and returns
    [false] without having called [fopen], so the call creates no file;
    with at least one record the first thing it does is [fopen] the path
    for writing. *)
Theorem writeFile_empty_log file :
  writeFile H env file []
  = (returned false, [ev_fprintf_stderr ("ERROR: Empty TraceList" +:+ nl) []])
  /\ existsb opens_file (writeFile H env file []).2 = false
  /\ forall itr rest,
       exists evs,
         (writeFile H env file (itr :: rest)).2
         = ev_fopen file "w" (fopen_ok env file) :: evs.
Proof.
  split; [reflexivity|]. split; [reflexivity|].
  intros itr rest. unfold writeFile.
  destruct (fopen_ok env file); cbn [negb]; [|eexists; reflexivity].
  destruct (negb _); [eexists; reflexivity|].
  destruct (write_entries _ _ _ _ _ _ _) as [r evs]. eexists. reflexivity.
Qed.

(** Claim C8.  A call of [writeFile] that returns [true] has written exactly
    one header, and its fields are: the magic string and the version of
    the format, the raw kind, a target pc of 32 bits, not big endian, and
    the two machine bytes zero. *)
Theorem writeFile_header file log evs :
  writeFile H env file log = (returned true, evs) ->
  exists h,
    headers_written evs = [h]
    /\ magic h = QEMU_TRACE_MAGIC H
    /\ version h = QEMU_TRACE_VERSION H
    /\ kind h = QEMU_TRACE_KIND_RAW H
    /\ sizeof_target_pc h = 32%Z
    /\ big_endian h = false
    /\ machine h = (0%Z, 0%Z).
Proof.
  unfold writeFile. destruct log as [|itr rest]; [discriminate|].
  destruct (fopen_ok env file); cbn [negb]; [|discriminate].
  destruct (Z.eqb_spec (fwrite_status env 0) 1) as [Hst|Hst]; cbn [negb];
    [|discriminate].
  pose proof (write_entries_no_header file (uint8_t (qemuTakenBit env))
                (uint8_t (qemuNotTakenBit env)) (itr :: rest) 1) as Hno.
  destruct (write_entries _ _ _ _ _ _ _) as [r evs'].
  intros [= -> <-]. cbn [snd] in Hno. eexists. split.
  - unfold headers_written in *.
    destruct (Verbose env); cbn; rewrite Hst; cbn; rewrite Hno; reflexivity.
  - repeat split.
Qed.

Section with_bytes.
Hypothesis enumerators_distinct :
  NoDup [EXIT_REASON_BRANCH_TAKEN H; EXIT_REASON_BRANCH_NOT_TAKEN H;
         EXIT_REASON_OTHER H].
Hypothesis block_byte : is_byte (TRACE_OP_BLOCK H).
Hypothesis taken_byte : is_byte (qemuTakenBit env).
Hypothesis notTaken_byte : is_byte (qemuNotTakenBit env).

Lemma entry_op_Some reason o :
  entry_op H (uint8_t (qemuTakenBit env)) (uint8_t (qemuNotTakenBit env)) reason
  = Some o ->
  recognized H reason = true /\ op_spec H env reason o.
Proof.
  assert (Hd : EXIT_REASON_BRANCH_TAKEN H <> EXIT_REASON_BRANCH_NOT_TAKEN H
               /\ EXIT_REASON_BRANCH_TAKEN H <> EXIT_REASON_OTHER H
               /\ EXIT_REASON_BRANCH_NOT_TAKEN H <> EXIT_REASON_OTHER H).
  { pose proof enumerators_distinct as Hnd.
    apply NoDup_cons in Hnd as [H1 H2]. apply NoDup_cons in H2 as [H2 _].
    apply not_elem_of_cons in H1 as [H1 H3].
    apply not_elem_of_cons in H3 as [H3 _].
    apply not_elem_of_cons in H2 as [H2 _]. auto. }
  destruct Hd as (Hd1 & Hd2 & Hd3).
  unfold entry_op, recognized, op_spec.
  rewrite (uint8_t_byte _ block_byte), (uint8_t_byte _ taken_byte),
    (uint8_t_byte _ notTaken_byte).
  destruct (Z.eqb_spec reason (EXIT_REASON_BRANCH_TAKEN H)) as [->|].
  { intros [= <-]. rewrite lor_byte by assumption.
    split; [reflexivity|]. repeat split; congruence. }
  destruct (Z.eqb_spec reason (EXIT_REASON_BRANCH_NOT_TAKEN H)) as [->|].
  { intros [= <-]. rewrite lor_byte by assumption.
    split; [reflexivity|]. repeat split; congruence. }
  destruct (Z.eqb_spec reason (EXIT_REASON_OTHER H)) as [->|]; [|discriminate].
  intros [= <-]. split; [reflexivity|]. repeat split; congruence.
Qed.

(** The loop: what it hands to [fwrite] are the entries of a prefix of
    the records, one for one; on [true] the prefix is the whole list and
    every entry was written. *)
Lemma write_entries_entries file : forall set k,
  let taken := uint8_t (qemuTakenBit env) in
  let notTaken := uint8_t (qemuNotTakenBit env) in
  let run := write_entries H env file taken notTaken k set in
  exists n,
    Forall2 (entry_for H env) (take n set) (entries_attempted run.2)
    /\ (run.1 = returned true ->
        n = length set /\ entries_written run.2 = entries_attempted run.2).
Proof.
  induction set as [|itr rest IH]; intros k; cbn zeta.
  - exists 0. cbn. split; [constructor | auto].
  - cbn [write_entries].
    destruct (entry_op _ _ _ _) as [o|] eqn:Hop.
    2:{ exists 0. cbn. split; [constructor | discriminate]. }
    apply entry_op_Some in Hop as [Hrec Hspec].
    destruct (Z.eqb_spec (fwrite_status env k) 1) as [Hst|Hst].
    + specialize (IH (S k)). cbn zeta in IH.
      destruct (write_entries H env file _ _ (S k) rest) as [r evs] eqn:Hrun.
      destruct IH as (n & Hall & Htrue). exists (S n).
      unfold entries_attempted, entries_written in *.
      destruct (Verbose env); cbn in *; rewrite Hst; cbn; (split;
        [ constructor; [|exact Hall]; repeat split; try assumption; apply Hspec
        | intros Hr; destruct (Htrue Hr) as [-> ->]; split; reflexivity ]).
    + exists 1. unfold entries_attempted, entries_written.
      destruct (Verbose env); cbn; (split; [|discriminate]);
        (constructor; [|rewrite take_0; constructor]);
        repeat split; try assumption; apply Hspec.
Qed.

(** The loop on a record it has no [case] for, every [fwrite] before it
    having succeeded: the process exits with status 1 there, after the
    entries of the records before it and nothing else. *)
Lemma write_entries_unknown file : forall pre k bad post,
  Forall (fun itr => recognized H (TraceList.exitReason itr) = true) pre ->
  recognized H (TraceList.exitReason bad) = false ->
  (forall j, fwrite_status env j = 1%Z) ->
  let run := write_entries H env file (uint8_t (qemuTakenBit env))
               (uint8_t (qemuNotTakenBit env)) k (pre ++ bad :: post) in
  run.1 = exited 1
  /\ Forall2 (entry_for H env) pre (entries_written run.2)
  /\ last run.2 = Some (ev_fprintf_stderr ("Unknown exit Reason" +:+ nl) []).
Proof.
  induction pre as [|itr pre IH]; intros k bad post Hpre Hbad Hw; cbn zeta.
  - cbn [app write_entries]. rewrite (proj2 (entry_op_None _ _ _) Hbad).
    cbn. repeat split. constructor.
  - apply Forall_cons in Hpre as [Hitr Hpre].
    cbn [app write_entries].
    destruct (entry_op _ _ _ _) as [o|] eqn:Hop.
    2:{ apply entry_op_None in Hop. congruence. }
    apply entry_op_Some in Hop as [Hrec Hspec].
    rewrite Hw. cbn [Z.eqb Pos.eqb].
    specialize (IH (S k) bad post Hpre Hbad Hw). cbn zeta in IH.
    destruct (write_entries H env file _ _ (S k) (pre ++ bad :: post))
      as [r evs] eqn:Hrun.
    cbn [fst snd] in *. destruct IH as (-> & Hall & Hlast).
    split; [reflexivity|]. unfold entries_written in *.
    destruct (Verbose env); cbn; (split;
      [ constructor; [|exact Hall]; repeat split; try assumption; apply Hspec
      | destruct evs; [discriminate Hlast | exact Hlast] ]).
Qed.

(** The loop leaves through [exit] only with status 1 and only at a
    record whose exit reason has no [case]. *)
Lemma write_entries_exited file code : forall set k,
  (write_entries H env file (uint8_t (qemuTakenBit env))
     (uint8_t (qemuNotTakenBit env)) k set).1 = exited code ->
  code = 1%Z
  /\ exists itr, itr ∈ set /\ recognized H (TraceList.exitReason itr) = false.
Proof.
  induction set as [|itr rest IH]; intros k; cbn [write_entries].
  - discriminate.
  - destruct (entry_op _ _ _ _) as [o|] eqn:Hop.
    + destruct (fwrite_status env k =? 1)%Z; [|discriminate].
      specialize (IH (S k)).
      destruct (write_entries H env file _ _ (S k) rest) as [r evs].
      cbn [fst] in *. intros Hr. destruct (IH Hr) as (-> & bad & Hin & Hbad).
      split; [reflexivity|]. exists bad. split; [|assumption].
      apply elem_of_cons. right. assumption.
    + cbn. intros [= <-]. split; [reflexivity|]. exists itr.
      split; [apply elem_of_cons; left; reflexivity|].
      apply entry_op_None in Hop. assumption.
Qed.

(** Claim C5.  The operation byte of every entry handed to [fwrite] is
    [TRACE_OP_BLOCK] or-ed with the taken bit for a record that ended in a
    taken branch, with the not-taken bit for one that ended in a branch not
    taken, and with nothing for exit reason other; the entries follow the
    records one for one, and a successful call has written one for every
    record.  An exit reason outside the three ends the process at once
    with [exit (1)], and [exit] is reached in no other way. *)
Theorem writeFile_operation_byte file log :
  let run := writeFile H env file log in
  (exists n, Forall2 (entry_for H env) (take n log) (entries_attempted run.2))
  /\ (run.1 = returned true ->
      Forall2 (entry_for H env) log (entries_written run.2))
  /\ (forall pre bad post,
        log = pre ++ bad :: post ->
        Forall (fun itr => recognized H (TraceList.exitReason itr) = true) pre ->
        recognized H (TraceList.exitReason bad) = false ->
        fopen_ok env file = true ->
        (forall j, fwrite_status env j = 1%Z) ->
        run.1 = exited 1
        /\ Forall2 (entry_for H env) pre (entries_written run.2)
        /\ last run.2 = Some (ev_fprintf_stderr ("Unknown exit Reason" +:+ nl) []))
  /\ (forall code, run.1 = exited code ->
        code = 1%Z
        /\ exists itr, itr ∈ log
                       /\ recognized H (TraceList.exitReason itr) = false).
Proof.
  cbn zeta. unfold writeFile.
  destruct log as [|itr0 rest] eqn:Hlog.
  { cbn. split; [exists 0; constructor|]. split; [discriminate|].
    split; [|discriminate].
    intros pre bad post Heq. destruct pre; discriminate Heq. }
  rewrite <- Hlog. assert (Hne : log <> []) by (subst; discriminate).
  clear Hlog itr0 rest.
  destruct (fopen_ok env file) eqn:Hopen; cbn [negb].
  2:{ cbn. split; [exists 0; rewrite take_0; constructor|].
      split; [discriminate|]. split; [|discriminate].
      intros pre bad post _ _ _ Hopen'. discriminate Hopen'. }
  destruct (Z.eqb_spec (fwrite_status env 0) 1) as [Hst|Hst]; cbn [negb].
  2:{ cbn. split; [exists 0; rewrite take_0; constructor|].
      split; [discriminate|]. split; [|discriminate].
      intros pre bad post _ _ _ _ Hw. rewrite Hw in Hst. congruence. }
  pose proof (write_entries_entries file log 1) as Hent.
  pose proof (fun pre bad post => write_entries_unknown file pre 1 bad post) as Hunk.
  pose proof (fun code => write_entries_exited file code log 1) as Hex.
  cbn zeta in Hent, Hunk.
  destruct (write_entries H env file _ _ 1 log) as [r evs] eqn:Hrun.
  cbn [fst snd] in *.
  unfold entries_attempted, entries_written in *.
  split; [|split; [|split]].
  - destruct Hent as (n & Hall & _). exists n.
    destruct (Verbose env); cbn; exact Hall.
  - intros ->. destruct Hent as (n & Hall & Htrue).
    destruct (Htrue eq_refl) as [-> Heq]. rewrite firstn_all in Hall.
    destruct (Verbose env); cbn; rewrite Heq; exact Hall.
  - intros pre bad post -> Hpre Hbad _ Hw.
    specialize (Hunk pre bad post Hpre Hbad Hw). rewrite Hrun in Hunk.
    cbn [fst snd] in Hunk. destruct Hunk as (-> & Hall & Hlast).
    split; [reflexivity|].
    destruct (Verbose env); cbn;
      (split; [exact Hall|]);
      (destruct evs; [discriminate Hlast | exact Hlast]).
  - intros code ->. apply Hex. reflexivity.
Qed.

End with_bytes.

End writer_facts.

Lemma writeFile_operation_byte_witness :
  NoDup [TraceWriterQEMU.EXIT_REASON_BRANCH_TAKEN sample_constants;
         TraceWriterQEMU.EXIT_REASON_BRANCH_NOT_TAKEN sample_constants;
         TraceWriterQEMU.EXIT_REASON_OTHER sample_constants]
  /\ TraceWriterQEMU.entries_written
       (TraceWriterQEMU.writeFile sample_constants sample_environment
          "trace" [sample_record]).2
     = [ {| TraceWriterQEMU.pc := 4096; TraceWriterQEMU.size := 4;
            TraceWriterQEMU.op := Z.lor 16 1 |} ]
  /\ Forall2 (entry_for sample_constants sample_environment) [sample_record]
       (TraceWriterQEMU.entries_written
          (TraceWriterQEMU.writeFile sample_constants sample_environment
             "trace" [sample_record]).2).
Proof.
  assert (Hnd : NoDup [TraceWriterQEMU.EXIT_REASON_BRANCH_TAKEN sample_constants;
         TraceWriterQEMU.EXIT_REASON_BRANCH_NOT_TAKEN sample_constants;
         TraceWriterQEMU.EXIT_REASON_OTHER sample_constants]).
  { vm_compute. repeat constructor; rewrite ?elem_of_cons, ?elem_of_nil; lia. }
  split; [exact Hnd|]. split; [reflexivity|].
  apply (writeFile_operation_byte sample_constants sample_environment Hnd);
    [unfold is_byte; simpl; lia .. | reflexivity].
Defined.

Lemma writeFile_header_witness :
  TraceWriterQEMU.writeFile sample_constants sample_environment "trace"
    [sample_record]
  = (TraceWriterQEMU.returned true,
     (TraceWriterQEMU.writeFile sample_constants sample_environment "trace"
        [sample_record]).2)
  /\ exists h,
       TraceWriterQEMU.headers_written
         (TraceWriterQEMU.writeFile sample_constants sample_environment "trace"
            [sample_record]).2 = [h]
       /\ TraceWriterQEMU.magic h = "#QEMU-Traces"
       /\ TraceWriterQEMU.version h = 1%Z
       /\ TraceWriterQEMU.kind h = 0%Z
       /\ TraceWriterQEMU.sizeof_target_pc h = 32%Z
       /\ TraceWriterQEMU.big_endian h = false
       /\ TraceWriterQEMU.machine h = (0%Z, 0%Z).
Proof.
  split; [reflexivity|].
  apply (writeFile_header sample_constants sample_environment "trace"
           [sample_record]).
  reflexivity.
Defined.

(** ** Temporary files: registry and handle *)

Section tempfile_facts.
Import RldProcess.

Lemma path_unlink_files path k :
  exists k',
    path.unlink path k = Return tt k'
    /\ posix.files k' = delete path (posix.files k)
    /\ posix.fdtable k' = posix.fdtable k.
Proof.
  unfold path.unlink, path.check_file, posix.unlink.
  destruct (posix.files k !! path) as [c|] eqn:Hf.
  - rewrite bool_decide_eq_true_2 by eauto. cbn. eexists. repeat split.
  - rewrite bool_decide_eq_false_2 by (intros [? ?]; congruence).
    exists k. repeat split. symmetry. apply delete_id. assumption.
Qed.

Lemma temporary_files_unlink_files ref p :
  exists p',
    temporary_files.unlink ref p = Return tt p'
    /\ keep_temporary_files p' = keep_temporary_files p
    /\ temporaries p' = temporaries p
    /\ posix.files (os p')
       = if keep ref || keep_temporary_files p then posix.files (os p)
         else delete (name ref) (posix.files (os p)).
Proof.
  unfold temporary_files.unlink, bind, gets, zoom, ret.
  destruct (keep_temporary_files p) eqn:Hall; cbn [negb andb].
  { exists p. rewrite orb_true_r. repeat split; assumption. }
  destruct (keep ref); cbn [negb andb orb].
  { exists p. repeat split; assumption. }
  destruct (path_unlink_files (name ref) (os p)) as (k' & -> & Hfiles & _).
  eexists. split; [reflexivity|]. cbn. repeat split; assumption.
Qed.


Lemma erase_from_unregistered name_ : forall rest visited p,
  Forall (fun x => name x <> name_) rest ->
  temporary_files.erase_from name_ visited rest p = Return tt p.
Proof.
  induction rest as [|x rest IH]; intros visited p Hrest; [reflexivity|].
  apply Forall_cons in Hrest as [Hx Hrest].
  cbn [temporary_files.erase_from].
  rewrite (proj2 (String.eqb_neq _ _) Hx). apply IH. assumption.
Qed.

Lemma close_keeps m :
  exists m',
    tempfile.close m = Return tt m'
    /\ _name (this m') = _name (this m)
    /\ fd (this m') = (-1)%Z
    /\ keep_temporary_files (proc m') = keep_temporary_files (proc m)
    /\ temporaries (proc m') = temporaries (proc m)
    /\ posix.files (kernel_of m') = posix.files (kernel_of m).
Proof.
  unfold tempfile.close, bind, member, gets, assign, modify, sys, ret.
  destruct (Z.eqb_spec (fd (this m)) (-1)) as [Hfd|Hfd]; cbn [negb].
  { exists m. repeat split. assumption. }
  destruct (posix.close (fd (this m)) (kernel_of m)) as [r k] eqn:Hclose.
  eexists. split; [reflexivity|]. cbn. repeat split.
  unfold posix.close in Hclose.
  destruct (posix.lookup_fd _ _); injection Hclose as <- <-; reflexivity.
Qed.

(** Claim C9.  A handle that is not open ([fd] is -1): [read] and [read_line]
    clear their result and return it empty; nothing is thrown and neither
    the handle nor the process changes. *)
Theorem read_not_open BUF_SIZE m :
  fd (this m) = (-1)%Z ->
  tempfile.read BUF_SIZE m = Return [] m
  /\ tempfile.read_line BUF_SIZE m = Return [] m.
Proof.
  intros Hfd.
  unfold tempfile.read, tempfile.read_line, bind, member, gets, ret.
  rewrite Hfd. split; reflexivity.
Qed.

Lemma read_not_open_witness :
  fd (this (sample_machine 8 false false [] [])) = (-1)%Z
  /\ tempfile.read 8 (sample_machine 8 false false [] [])
     = Return [] (sample_machine 8 false false [] [])
  /\ tempfile.read_line 8 (sample_machine 8 false false [] [])
     = Return [] (sample_machine 8 false false [] []).
Proof.
  split; [reflexivity|].
  apply (read_not_open 8 (sample_machine 8 false false [] [])).
  reflexivity.
Defined.




(** Claim C3.  A partial write: [write] takes the count of what is left but
    never moves [p], so the call after a partial write sends the start of
    the string again.  The string [abcd] against a kernel that takes two
    bytes of the first request leaves [abab] in the file, not [abcd]. *)
Theorem tempfile_write_after_partial_write :
  file_after sample_path
    ((tempfile.open true ;;; tempfile.write (list_ascii_of_string "abcd"))
       (sample_machine 8 false false [2%Z] []))
  = Some (list_ascii_of_string "abab")
  /\ file_after sample_path
       ((tempfile.open true ;;; tempfile.write (list_ascii_of_string "abcd"))
          (sample_machine 8 false false [2%Z] []))
     <> Some (list_ascii_of_string "abcd").
Proof.
  split; [vm_compute; reflexivity|].
  vm_compute. intros Heq. discriminate Heq.
Qed.

End tempfile_facts.

(** ** Line input and output *)

Section line_facts.
Import RldProcess.

Lemma lf_index_lt l : forall j, lf_index l = Some j -> j < length l.
Proof.
  induction l as [|c l IH]; intros j; cbn; [discriminate|].
  destruct (Ascii.eqb c LF).
  - intros [= <-]. lia.
  - destruct (lf_index l) as [i|]; [|discriminate].
    intros [= <-]. specialize (IH i eq_refl). lia.
Qed.

Lemma lf_index_app_Some l X : forall j,
  lf_index l = Some j -> lf_index (l ++ X) = Some j.
Proof.
  induction l as [|c l IH]; intros j; cbn; [discriminate|].
  destruct (Ascii.eqb c LF); [auto|].
  destruct (lf_index l) as [i|]; [|discriminate].
  intros [= <-]. rewrite (IH i eq_refl). reflexivity.
Qed.

Lemma lf_index_app_None l X :
  lf_index l = None ->
  lf_index (l ++ X) = (fun j => length l + j) <$> lf_index X.
Proof.
  induction l as [|c l IH]; cbn.
  - intros _. destruct (lf_index X); reflexivity.
  - destruct (Ascii.eqb c LF); [discriminate|].
    destruct (lf_index l) as [i|]; [discriminate|]. intros _.
    rewrite IH by reflexivity. destruct (lf_index X); reflexivity.
Qed.

Lemma lf_index_line_text l : line_text l -> lf_index l = None.
Proof.
  induction 1 as [|c l [Hlf _] _ IH]; cbn; [reflexivity|].
  rewrite (proj2 (Ascii.eqb_neq _ _) Hlf), IH. reflexivity.
Qed.

Lemma first_line_app_None C X :
  lf_index C = None ->
  first_line (C ++ X) = (C ++ (first_line X).1, (first_line X).2).
Proof.
  intros HC. unfold first_line. rewrite lf_index_app_None by assumption.
  destruct (lf_index X) as [j|]; cbn.
  - replace (S (length C + j)) with (length C + S j) by lia.
    rewrite take_app_add, drop_app_add. reflexivity.
  - reflexivity.
Qed.

Lemma first_line_terminated t X :
  line_text t -> first_line ((t ++ [LF]) ++ X) = (t ++ [LF], X).
Proof.
  intros Ht. rewrite <- app_assoc.
  rewrite first_line_app_None by (apply lf_index_line_text; assumption).
  cbn. unfold first_line. cbn. rewrite drop_0. reflexivity.
Qed.

(** [strchr] on text followed by its terminating NUL finds the first
    line feed of the text. *)
Lemma strchr_from_text C Z : forall i,
  nul_free C ->
  strchr_from (C ++ NUL :: Z) LF i = Some ((fun j => i + j) <$> lf_index C).
Proof.
  induction C as [|c C IH]; intros i HC; cbn.
  - reflexivity.
  - apply Forall_cons in HC as [Hc HC].
    destruct (Ascii.eqb c LF); [cbn; f_equal; f_equal; lia|].
    rewrite (proj2 (Ascii.eqb_neq _ _) Hc), IH by assumption.
    destruct (lf_index C); cbn; [f_equal; f_equal; lia | reflexivity].
Qed.

End line_facts.

Section read_line_facts.
Import RldProcess.

(** Stepping through a member function. *)
Lemma bind_bind {St A B C} (m : M St A) (f : A -> M St B) (g : B -> M St C) s :
  bind (bind m f) g s = bind m (fun x => bind (f x) g) s.
Proof. unfold bind. destruct (m s); reflexivity. Qed.

Lemma bind_ret {St A B} (a : A) (f : A -> M St B) s : bind (ret a) f s = f a s.
Proof. reflexivity. Qed.

Lemma bind_gets {St A B} (g : St -> A) (f : A -> M St B) s :
  bind (gets g) f s = f (g s) s.
Proof. reflexivity. Qed.

Lemma bind_member {A B} (x : tempfile -> A) (f : A -> M machine B) m :
  bind (member x) f m = f (x (this m)) m.
Proof. reflexivity. Qed.

Lemma bind_assign {B} (g : tempfile -> tempfile) (f : unit -> M machine B) m :
  bind (assign g) f m = f tt (set_this (g (this m)) m).
Proof. reflexivity. Qed.

Lemma bind_sys {A B} (call : posix.kernel -> A * posix.kernel)
    (f : A -> M machine B) m a k :
  call (os (proc m)) = (a, k) ->
  bind (sys call) f m = f a (set_proc (set_os k (proc m)) m).
Proof. intros Hcall. unfold bind, sys, kernel_of. rewrite Hcall. reflexivity. Qed.

Lemma bind_throw {St A B} e (f : A -> M St B) s : bind (throw e) f s = Throw e s.
Proof. reflexivity. Qed.

Lemma bind_undefined {St A B} (f : A -> M St B) s :
  bind (@undefined St A) f s = Undefined.
Proof. reflexivity. Qed.

Ltac msimpl :=
  unfold kernel_of, set_kernel;
  cbn [this proc _name suffix overridden fd buf level set_this set_proc
       set_os with_buf with_level with_fd with_name
       with_overridden os fst snd keep_temporary_files temporaries].

Ltac mstep :=
  repeat first
    [ rewrite bind_bind | rewrite bind_member | rewrite bind_gets
    | rewrite bind_assign | rewrite bind_ret
    | rewrite bind_throw | rewrite bind_undefined ];
  msimpl.

Lemma lookup_fd_nonneg fd_ k f : posix.lookup_fd fd_ k = Some f -> (0 <= fd_)%Z.
Proof.
  unfold posix.lookup_fd. destruct (Z.ltb_spec fd_ 0); [discriminate | lia].
Qed.

Lemma lookup_fd_insert fd_ k f g files_ errno_ sw sr ce :
  posix.lookup_fd fd_ k = Some f ->
  posix.lookup_fd fd_
    {| posix.files := files_;
       posix.fdtable := <[Z.to_nat fd_ := g]> (posix.fdtable k);
       posix.errno := errno_;
       posix.short_writes := sw;
       posix.short_reads := sr;
       posix.create_errors := ce |} = Some g.
Proof.
  unfold posix.lookup_fd. destruct (fd_ <? 0)%Z; [discriminate|]. intros _.
  cbn. apply lookup_insert_eq.
Qed.

(** [::read] on an open descriptor: it transfers a prefix of the unread
    bytes, at least one byte when any is left, and moves the offset. *)
Lemma posix_read_open fd_ count k f :
  posix.lookup_fd fd_ k = Some f ->
  0 < count ->
  let A := drop (posix.of_pos f) (posix.file_data (posix.of_path f) k) in
  exists n k',
    posix.read fd_ count k = (Z.of_nat n, take n A, k')
    /\ n <= count /\ n <= length A /\ (n = 0 -> A = [])
    /\ posix.lookup_fd fd_ k'
       = Some {| posix.of_path := posix.of_path f;
                 posix.of_flags := posix.of_flags f;
                 posix.of_pos := posix.of_pos f + n |}
    /\ posix.files k' = posix.files k
    /\ posix.short_writes k' = posix.short_writes k.
Proof.
  intros Hfd Hcount A. unfold posix.read. rewrite Hfd. fold A.
  set (n := match posix.short_reads k with
            | [] => count `min` length A
            | cap :: _ => (count `min` length A) `min` (1 `max` cap)
            end).
  exists n. eexists. split; [reflexivity|].
  assert (Hn : n <= count /\ n <= length A /\ (n = 0 -> length A = 0)).
  { subst n. destruct (posix.short_reads k); lia. }
  destruct Hn as (Hn1 & Hn2 & Hn3).
  split; [assumption|]. split; [assumption|].
  split; [intros Hz; apply nil_length_inv; auto|].
  split; [|split; reflexivity].
  eapply lookup_fd_insert. eassumption.
Qed.

Lemma memset_to_end (b : list ascii) off c N :
  length b = N -> off <= N ->
  memset b off c (N - off) = take off b ++ replicate (N - off) c.
Proof.
  intros Hlen Hoff. unfold memset.
  rewrite drop_ge by lia. rewrite app_nil_r. reflexivity.
Qed.

Lemma store_in_zeros (B D : list ascii) off k :
  off = length B -> length D < k ->
  store (B ++ replicate k NUL) off D
  = (B ++ D) ++ NUL :: replicate (k - length D - 1) NUL.
Proof.
  intros -> HD. unfold store. rewrite take_app_length.
  rewrite drop_app_add, drop_replicate, <- app_assoc. do 2 f_equal.
  destruct (k - length D) as [|x] eqn:E; [lia|].
  cbn. rewrite Nat.sub_0_r. reflexivity.
Qed.

(** The slide: after [memmove (buf, buf + len, rest + 1)] the buffer
    starts with the [rest] bytes that followed the line. *)
Lemma memmove_slide (C Zs : list ascii) len rest :
  len + rest = length C -> 0 < length Zs ->
  take rest (memmove (C ++ Zs) 0 len (rest + 1)) = drop len C
  /\ length (memmove (C ++ Zs) 0 len (rest + 1)) = length (C ++ Zs).
Proof.
  intros Hlen HZ. unfold memmove, store. rewrite take_0. cbn [app].
  assert (HX : length (take (rest + 1) (drop len (C ++ Zs))) = rest + 1).
  { rewrite length_take, length_drop, length_app. lia. }
  split.
  - rewrite take_app_le by lia. rewrite take_take.
    replace (rest `min` (rest + 1)) with rest by lia.
    rewrite drop_app_le by lia. rewrite take_app_le by (rewrite length_drop; lia).
    apply take_ge. rewrite length_drop. lia.
  - rewrite length_app, HX, length_drop, !length_app. lia.
Qed.


Lemma file_data_files path k k' :
  posix.files k' = posix.files k -> posix.file_data path k' = posix.file_data path k.
Proof. unfold posix.file_data. intros ->. reflexivity. Qed.

(** First half of an iteration. *)
Lemma read_line_fill_spec BUF_SIZE m R :
  reading_inv BUF_SIZE m R ->
  exists m' n C A,
    tempfile.read_line_fill BUF_SIZE true m = Return (negb (n =? 0)%nat) m'
    /\ filled_inv BUF_SIZE m' C A
    /\ R = C ++ A
    /\ (n = 0 -> A = [])
    /\ (n <> 0 -> length A < length R)
    /\ frame m m'.
Proof.
  intros (f & Hfd & Hlen & Hlev & HR & Hnul).
  destruct m as [t p]. destruct t as [nm sfx ovr fd_ buf_ lvl].
  unfold kernel_of in *. cbn [this proc _name suffix overridden fd buf level] in *.
  unfold tempfile.read_line_fill. mstep.
  rewrite (proj2 (Nat.ltb_lt lvl (BUF_SIZE - 1))) by lia. mstep.
  destruct (posix_read_open fd_ (BUF_SIZE - lvl - 1) (os p) f Hfd ltac:(lia))
    as (n & k' & Hread & Hn1 & Hn2 & Hn3 & Hfd' & Hfiles & Hsw).
  erewrite bind_sys; [|msimpl; rewrite Hread; reflexivity]. mstep.
  set (A := drop (posix.of_pos f) (posix.file_data (posix.of_path f) (os p))) in *.
  assert (HB : length (take lvl buf_) = lvl) by (rewrite length_take; lia).
  assert (Hbuf : store (memset buf_ lvl NUL (BUF_SIZE - lvl)) lvl (take n A)
                 = (take lvl buf_ ++ take n A)
                   ++ NUL :: replicate (BUF_SIZE - lvl - length (take n A) - 1) NUL).
  { rewrite memset_to_end by lia. apply store_in_zeros; [congruence|].
    rewrite length_take. lia. }
  assert (Hlenbuf : length (store (memset buf_ lvl NUL (BUF_SIZE - lvl)) lvl
                              (take n A)) = BUF_SIZE).
  { rewrite Hbuf. rewrite !length_app. cbn [length].
    rewrite length_replicate, HB, !length_take. lia. }
  assert (Hsplit : R = (take lvl buf_ ++ take n A) ++ drop n A).
  { rewrite <- app_assoc, take_drop. exact HR. }
  assert (Hfiled : drop n A
          = drop (posix.of_pos f + n) (posix.file_data (posix.of_path f) k')).
  { unfold A. rewrite drop_drop, (file_data_files _ _ _ Hfiles). reflexivity. }
  replace (Z.of_nat n <? 0)%Z with false by (symmetry; apply Z.ltb_ge; lia).
  destruct n as [|n'].
  - cbn [Z.of_nat Z.eqb]. mstep. eexists _, 0, _, (drop 0 A).
    split; [reflexivity|]. split; [|split; [|split; [|split]]].
    + eexists _, _. msimpl. split; [exact Hfd'|]. split; [exact Hbuf|].
      split; [exact Hlenbuf|]. split; [lia|].
      split; [rewrite length_app, HB, length_take; lia|].
      split; [exact Hfiled|]. rewrite <- Hsplit. exact Hnul.
    + exact Hsplit.
    + intros _. rewrite (Hn3 eq_refl). reflexivity.
    + intros Hne. congruence.
    + unfold frame. msimpl. repeat split; assumption.
  - replace (Z.of_nat (S n') =? 0)%Z with false by (symmetry; apply Z.eqb_neq; lia).
    mstep. rewrite Nat2Z.id.
    eexists _, (S n'), _, (drop (S n') A).
    split; [reflexivity|]. split; [|split; [|split; [|split]]].
    + eexists _, _. msimpl. split; [exact Hfd'|]. split; [exact Hbuf|].
      split; [exact Hlenbuf|]. split; [lia|].
      split; [rewrite length_app, HB, length_take; lia|].
      split; [exact Hfiled|]. rewrite <- Hsplit. exact Hnul.
    + exact Hsplit.
    + intros Hz. discriminate Hz.
    + intros _. rewrite HR, length_app, length_drop. fold A. lia.
    + unfold frame. msimpl. repeat split; assumption.
Qed.

Lemma strchr_text C Zs :
  nul_free C -> strchr (C ++ NUL :: Zs) LF = Some (lf_index C).
Proof.
  intros HC. unfold strchr. rewrite strchr_from_text by assumption.
  destruct (lf_index C); reflexivity.
Qed.

(** Second half of an iteration. *)
Lemma read_line_take_spec BUF_SIZE m reading line C A :
  filled_inv BUF_SIZE m C A ->
  exists m' reading' line',
    tempfile.read_line_take reading line m = Return (reading', line') m'
    /\ frame m m'
    /\ match lf_index C with
       | Some j =>
         reading' = false /\ line' = line ++ take (S j) C
         /\ reading_inv BUF_SIZE m' (drop (S j) C ++ A)
       | None =>
         reading' = reading /\ line' = line ++ C
         /\ reading_inv BUF_SIZE m' A
       end.
Proof.
  intros (f & Zs & Hfd & Hbuf & Hlen & Hsize & Hlev & HA & Hnul).
  destruct m as [t p]. destruct t as [nm sfx ovr fd_ buf_ lvl].
  unfold kernel_of in *. cbn [this proc _name suffix overridden fd buf level] in *.
  assert (HC : nul_free C) by (apply Forall_app in Hnul as [? _]; assumption).
  assert (HCsize : length C + 1 <= BUF_SIZE).
  { rewrite <- Hlen, Hbuf, length_app. cbn [length]. lia. }
  unfold tempfile.read_line_take. mstep.
  destruct (Nat.eqb_spec lvl 0) as [Hz|Hnz]; cbn [negb].
  { mstep. assert (C = []) as -> by (apply nil_length_inv; lia).
    eexists _, _, _. split; [reflexivity|]. split; [unfold frame; repeat split|].
    cbn [lf_index]. split; [reflexivity|]. split; [rewrite app_nil_r; reflexivity|].
    exists f. msimpl. rewrite Hz. cbn [take app].
    repeat split; try assumption; lia. }
  mstep.
  replace (strchr buf_ LF) with (Some (lf_index C))
    by (rewrite Hbuf; symmetry; apply strchr_text; assumption).
  destruct (lf_index C) as [j|] eqn:Hj.
  - pose proof (lf_index_lt C j Hj) as Hjlt.
    rewrite (proj2 (Nat.ltb_ge lvl (j + 1))) by lia. mstep.
    assert (Htake : take (j + 1) buf_ = take (S j) C).
    { rewrite Hbuf, take_app_le by lia. f_equal. lia. }
    destruct (Nat.eqb_spec (lvl - (j + 1)) 0) as [Hrest|Hrest]; cbn [negb].
    + mstep. eexists _, _, _. split; [reflexivity|].
      split; [unfold frame; repeat split|].
      split; [reflexivity|]. split; [rewrite Htake; reflexivity|].
      exists f. msimpl. rewrite Hrest, take_0, drop_ge by lia. cbn [app].
      repeat split; try assumption; try lia.
      apply Forall_app in Hnul as [_ ?]. assumption.
    + rewrite (proj2 (Nat.ltb_ge (length buf_) (j + 1 + (lvl - (j + 1) + 1))))
        by lia.
      mstep. eexists _, _, _. split; [reflexivity|].
      split; [unfold frame; repeat split|].
      split; [reflexivity|]. split; [rewrite Htake; reflexivity|].
      destruct (memmove_slide C (NUL :: Zs) (j + 1) (lvl - (j + 1)))
        as [Hslide Hmlen]; [lia | cbn [length]; lia |].
      rewrite <- Hbuf in Hslide, Hmlen.
      exists f. msimpl. rewrite Hslide, Hmlen.
      replace (j + 1) with (S j) by lia.
      split; [assumption|]. split; [assumption|]. split; [lia|].
      split; [congruence|].
      apply Forall_app. apply Forall_app in Hnul as [HC' HA'].
      split; [apply Forall_drop|]; assumption.
  - rewrite Nat.ltb_irrefl. mstep. rewrite Nat.sub_diag. cbn [Nat.eqb negb]. mstep.
    eexists _, _, _. split; [reflexivity|].
    split; [unfold frame; repeat split|].
    split; [reflexivity|].
    split; [rewrite Hbuf, Hlev, take_app_length; reflexivity|].
    exists f. msimpl. rewrite take_0. cbn [app].
    repeat split; try assumption; try lia.
    apply Forall_app in Hnul as [_ ?]. assumption.
Qed.

Lemma frame_refl m : frame m m.
Proof. unfold frame. repeat split. Qed.

Lemma frame_trans m1 m2 m3 : frame m1 m2 -> frame m2 m3 -> frame m1 m3.
Proof.
  unfold frame. intros (H1 & H2 & H3 & H4) (H5 & H6 & H7 & H8).
  repeat split; congruence.
Qed.

(** An iteration of the loop of [read_line]: it ends the line at its
    line feed, or takes all the buffer has and, unless the file is at its
    end, goes on. *)
Lemma read_line_body_spec BUF_SIZE m line R :
  reading_inv BUF_SIZE m R ->
  exists m' reading line' R',
    tempfile.read_line_body BUF_SIZE line m = Return (reading, line') m'
    /\ reading_inv BUF_SIZE m' R'
    /\ frame m m'
    /\ ((exists j, lf_index R = Some j /\ reading = false
                   /\ line' = line ++ take (S j) R /\ R' = drop (S j) R)
        \/ (exists C, R = C ++ R' /\ lf_index C = None /\ line' = line ++ C
                      /\ if reading then length R' < length R else R' = [])).
Proof.
  intros Hinv.
  destruct (read_line_fill_spec BUF_SIZE m R Hinv)
    as (m1 & n & C & A & Hfill & Hfilled & HR & Hzero & Hmore & Hframe1).
  destruct (read_line_take_spec BUF_SIZE m1 (negb (n =? 0)%nat) line C A Hfilled)
    as (m2 & reading' & line' & Htake & Hframe2 & Hcase).
  unfold tempfile.read_line_body, bind. rewrite Hfill, Htake.
  destruct (lf_index C) as [j|] eqn:Hj.
  - destruct Hcase as (-> & -> & Hinv2).
    pose proof (lf_index_lt C j Hj) as Hjlt.
    eexists _, _, _, _. split; [reflexivity|]. split; [exact Hinv2|].
    split; [eapply frame_trans; eassumption|]. left. exists j.
    rewrite HR. split; [apply lf_index_app_Some; assumption|].
    split; [reflexivity|].
    rewrite take_app_le, drop_app_le by lia. split; reflexivity.
  - destruct Hcase as (-> & -> & Hinv2).
    eexists _, _, _, _. split; [reflexivity|]. split; [exact Hinv2|].
    split; [eapply frame_trans; eassumption|]. right. exists C.
    split; [assumption|]. split; [assumption|]. split; [reflexivity|].
    destruct (Nat.eqb_spec n 0) as [Hn|Hn]; cbn [negb]; auto.
Qed.

Lemma read_line_loop_spec BUF_SIZE : forall fuel m line R,
  reading_inv BUF_SIZE m R ->
  length R < fuel ->
  exists m',
    tempfile.read_line_loop BUF_SIZE fuel line m
    = Return (line ++ (first_line R).1) m'
    /\ reading_inv BUF_SIZE m' (first_line R).2
    /\ frame m m'.
Proof.
  induction fuel as [|fuel IH]; intros m line R Hinv Hfuel; [lia|].
  destruct (read_line_body_spec BUF_SIZE m line R Hinv)
    as (m1 & reading & line' & R' & Hbody & Hinv1 & Hframe1 & Hcase).
  cbn [tempfile.read_line_loop]. unfold bind at 1. rewrite Hbody. cbn [fst snd].
  destruct Hcase as [(j & Hj & -> & -> & ->) | (C & -> & HC & -> & Hgo)].
  - unfold first_line. rewrite Hj. cbn [fst snd].
    exists m1. split; [reflexivity|]. split; assumption.
  - rewrite first_line_app_None by assumption. cbn [fst snd].
    destruct reading.
    + destruct (IH m1 (line ++ C) R' Hinv1 ltac:(lia)) as (m2 & Hloop & Hinv2 & Hframe2).
      exists m2. rewrite Hloop, <- app_assoc.
      split; [reflexivity|]. split; [assumption|].
      eapply frame_trans; eassumption.
    + subst R'. exists m1. cbn. rewrite app_nil_r.
      split; [reflexivity|]. split; assumption.
Qed.

(** [read_line] on an open handle returns the next line of what the
    handle still has to deliver and keeps the rest. *)
Lemma read_line_spec BUF_SIZE m R :
  reading_inv BUF_SIZE m R ->
  exists m',
    tempfile.read_line BUF_SIZE m = Return (first_line R).1 m'
    /\ reading_inv BUF_SIZE m' (first_line R).2
    /\ frame m m'.
Proof.
  intros Hinv. pose proof Hinv as (f & Hfd & Hlen & Hlev & HR & Hnul).
  unfold tempfile.read_line. mstep.
  pose proof (lookup_fd_nonneg _ _ _ Hfd) as Hnonneg.
  replace (fd (this m) =? -1)%Z with false by (symmetry; apply Z.eqb_neq; lia).
  cbn [negb]. mstep.
  apply (read_line_loop_spec BUF_SIZE _ m [] R Hinv).
  unfold unread. unfold kernel_of in Hfd. rewrite Hfd.
  rewrite HR, length_app, length_take. unfold kernel_of. lia.
Qed.

(** Reading back lines that are all terminated. *)
Lemma read_lines_spec BUF_SIZE : forall ts m,
  Forall line_text ts ->
  reading_inv BUF_SIZE m (concat (map (fun t => t ++ [LF]) ts)) ->
  exists m',
    read_lines BUF_SIZE (S (length ts)) m
    = Return (map (fun t => t ++ [LF]) ts ++ [[]]) m'
    /\ reading_inv BUF_SIZE m' []
    /\ frame m m'.
Proof.
  induction ts as [|t ts IH]; intros m Hts Hinv.
  - destruct (read_line_spec BUF_SIZE m [] Hinv) as (m1 & Hline & Hinv1 & Hframe1).
    change (first_line []) with (@nil ascii, @nil ascii) in Hline, Hinv1.
    cbn [fst snd] in Hline, Hinv1.
    cbn [length read_lines map app]. unfold bind at 1. rewrite Hline.
    exists m1. split; [reflexivity|]. split; assumption.
  - apply Forall_cons in Hts as [Ht Hts]. cbn [map concat] in Hinv.
    destruct (read_line_spec BUF_SIZE m _ Hinv) as (m1 & Hline & Hinv1 & Hframe1).
    rewrite first_line_terminated in Hline, Hinv1 by assumption.
    cbn [fst snd] in *.
    destruct (IH m1 Hts Hinv1) as (m2 & Hrest & Hinv2 & Hframe2).
    cbn [length read_lines] in *. unfold bind at 1. rewrite Hline.
    unfold bind at 1. rewrite Hrest. exists m2.
    split; [reflexivity|]. split; [assumption|]. eapply frame_trans; eassumption.
Qed.

(** [::write] when no short write is scheduled, at the end of the
    file: the whole request is appended. *)
Lemma posix_write_complete fd_ data k f F :
  posix.lookup_fd fd_ k = Some f ->
  posix.O_RDWR (posix.of_flags f) = true ->
  posix.files k !! posix.of_path f = Some F ->
  posix.of_pos f = length F ->
  posix.short_writes k = [] ->
  exists k',
    posix.write fd_ data k = (Z.of_nat (length data), k')
    /\ posix.lookup_fd fd_ k'
       = Some {| posix.of_path := posix.of_path f;
                 posix.of_flags := posix.of_flags f;
                 posix.of_pos := length (F ++ data) |}
    /\ posix.files k' = <[posix.of_path f := F ++ data]> (posix.files k)
    /\ posix.short_writes k' = [].
Proof.
  intros Hfd Hrdwr Hfile Hpos Hsw. unfold posix.write.
  rewrite Hfd, Hrdwr, Hsw. cbn [negb head tail].
  unfold posix.file_data. rewrite Hfile. cbn [default from_option id].
  assert (Hp : (if posix.O_APPEND (posix.of_flags f) then length F
                else posix.of_pos f) = length F)
    by (destruct (posix.O_APPEND _); congruence).
  rewrite Hp. eexists. split; [reflexivity|].
  assert (Hov : posix.overwrite (length F) (take (length data) data) F = F ++ data).
  { unfold posix.overwrite. rewrite !take_ge, drop_ge, Nat.sub_diag by lia.
    cbn. rewrite app_nil_r. reflexivity. }
  split; [|split; [cbn; rewrite Hov; reflexivity | reflexivity]].
  erewrite lookup_fd_insert by eassumption. rewrite length_app. reflexivity.
Qed.

Lemma write_spec s m F :
  writing_inv m F ->
  exists m',
    tempfile.write s m = Return tt m'
    /\ writing_inv m' (F ++ s)
    /\ this m' = this m.
Proof.
  intros (f & Hfd & Hrdwr & Hpath & Hfile & Hpos & Hsw).
  unfold tempfile.write. destruct s as [|c s].
  { exists m. rewrite app_nil_r. split; [reflexivity|]. split; [|reflexivity].
    exists f. repeat split; assumption. }
  set (data := c :: s).
  destruct (posix_write_complete (fd (this m)) data (kernel_of m) f F
              Hfd Hrdwr Hfile Hpos Hsw) as (k' & Hwrite & Hfd' & Hfiles' & Hsw').
  change (length data) with (S (length s)) at 1 2.
  cbn [tempfile.write_loop Nat.eqb negb]. mstep.
  erewrite bind_sys;
    [|rewrite take_ge by (subst data; cbn [length]; lia); exact Hwrite].
  replace (Z.of_nat (length data) <? 0)%Z with false
    by (symmetry; apply Z.ltb_ge; lia).
  replace (Z.of_nat (length data) =? 0)%Z with false
    by (symmetry; apply Z.eqb_neq; subst data; cbn [length]; lia).
  rewrite Nat2Z.id. change (length data) with (S (length s)).
  rewrite Nat.sub_diag.
  cbn [tempfile.write_loop Nat.eqb negb]. eexists. split; [reflexivity|].
  split; [|reflexivity].
  eexists. msimpl. split; [exact Hfd'|]. cbn [posix.of_flags posix.of_path posix.of_pos].
  split; [assumption|]. split; [assumption|].
  split; [rewrite Hfiles'; apply lookup_insert_eq|]. split; [reflexivity|assumption].
Qed.

Lemma write_line_spec SEP s m F :
  writing_inv m F ->
  exists m',
    tempfile.write_line SEP s m = Return tt m'
    /\ writing_inv m' (F ++ s ++ SEP)
    /\ this m' = this m.
Proof.
  intros Hinv.
  destruct (write_spec s m F Hinv) as (m1 & Hw1 & Hinv1 & Hthis1).
  destruct (write_spec SEP m1 (F ++ s) Hinv1) as (m2 & Hw2 & Hinv2 & Hthis2).
  unfold tempfile.write_line, bind. rewrite Hw1, Hw2. exists m2.
  rewrite <- app_assoc in Hinv2. split; [reflexivity|].
  split; [assumption | congruence].
Qed.

Lemma write_lines_spec SEP : forall ss m F,
  writing_inv m F ->
  exists m',
    tempfile.write_lines SEP ss m = Return tt m'
    /\ writing_inv m' (F ++ concat (map (fun s => s ++ SEP) ss))
    /\ this m' = this m.
Proof.
  induction ss as [|s ss IH]; intros m F Hinv.
  - exists m. cbn. rewrite app_nil_r. split; [reflexivity|]. split; [assumption|reflexivity].
  - destruct (write_line_spec SEP s m F Hinv) as (m1 & Hw1 & Hinv1 & Hthis1).
    destruct (IH m1 _ Hinv1) as (m2 & Hw2 & Hinv2 & Hthis2).
    cbn [tempfile.write_lines map concat]. unfold bind. rewrite Hw1, Hw2.
    exists m2. rewrite <- !app_assoc in Hinv2. rewrite <- app_assoc.
    split; [reflexivity|]. split; [assumption | congruence].
Qed.

Lemma posix_open_existing path fl k c :
  posix.files k !! path = Some c ->
  exists n k',
    posix.open path fl k = (Z.of_nat n, k')
    /\ posix.lookup_fd (Z.of_nat n) k'
       = Some {| posix.of_path := path; posix.of_flags := fl; posix.of_pos := 0 |}
    /\ posix.files k'
       = <[path := if posix.O_TRUNC fl then [] else c]> (posix.files k)
    /\ posix.short_writes k' = posix.short_writes k.
Proof.
  intros Hfile. unfold posix.open. rewrite Hfile.
  eexists _, _. split; [reflexivity|]. split; [|split; reflexivity].
  unfold posix.lookup_fd.
  replace (Z.of_nat (fresh (dom (posix.fdtable k))) <? 0)%Z with false
    by (symmetry; apply Z.ltb_ge; lia).
  rewrite Nat2Z.id. cbn. apply lookup_insert_eq.
Qed.

Lemma check_file_present path k c :
  posix.files k !! path = Some c -> path.check_file path k = true.
Proof. intros Hfile. unfold path.check_file. apply bool_decide_eq_true_2. eauto. Qed.

(** [open (true)] on a closed handle whose file is there and empty. *)
Lemma open_for_writing m :
  fd (this m) = (-1)%Z ->
  posix.files (kernel_of m) !! _name (this m) = Some [] ->
  posix.short_writes (kernel_of m) = [] ->
  exists m',
    tempfile.open true m = Return tt m'
    /\ writing_inv m' []
    /\ _name (this m') = _name (this m)
    /\ buf (this m') = buf (this m).
Proof.
  intros Hclosed Hfile Hsw.
  destruct m as [t p]. destruct t as [nm sfx ovr fd_ buf_ lvl].
  unfold kernel_of in *. cbn [this proc _name suffix overridden fd buf level] in *.
  subst fd_. unfold tempfile.open. mstep. cbn [Z.ltb Z.compare]. mstep.
  rewrite (check_file_present _ _ _ Hfile). cbn [negb andb].
  set (fl := {| posix.O_RDWR := true; posix.O_CREAT := ovr;
                posix.O_TRUNC := ovr; posix.O_APPEND := ovr |}).
  destruct (posix_open_existing nm fl (os p) [] Hfile)
    as (n & k' & Hopen & Hfd' & Hfiles' & Hsw').
  assert (Hdata : (if posix.O_TRUNC fl then [] else []) = @nil ascii)
    by (destruct (posix.O_TRUNC fl); reflexivity).
  rewrite Hdata in Hfiles'.
  destruct ovr; mstep;
    (erewrite bind_sys; [|exact Hopen]); mstep;
    (replace (Z.of_nat n <? 0)%Z with false by (symmetry; apply Z.ltb_ge; lia));
    (eexists; split; [reflexivity|]); msimpl;
    (split; [|split; reflexivity]);
    (eexists; msimpl; split; [exact Hfd'|]);
    cbn [posix.of_flags posix.of_path posix.of_pos posix.O_RDWR fl];
    (split; [reflexivity|]); (split; [reflexivity|]);
    (split; [rewrite Hfiles'; apply lookup_insert_eq|]);
    (split; [reflexivity | congruence]).
Qed.

(** [open ()] for reading on a closed handle whose file is there. *)
Lemma open_for_reading BUF_SIZE m F :
  2 <= BUF_SIZE ->
  length (buf (this m)) = BUF_SIZE ->
  fd (this m) = (-1)%Z ->
  posix.files (kernel_of m) !! _name (this m) = Some F ->
  nul_free F ->
  exists m',
    tempfile.open false m = Return tt m'
    /\ reading_inv BUF_SIZE m' F
    /\ frame m m'.
Proof.
  intros Hsize Hlen Hclosed Hfile Hnul.
  destruct m as [t p]. destruct t as [nm sfx ovr fd_ buf_ lvl].
  unfold kernel_of in *. cbn [this proc _name suffix overridden fd buf level] in *.
  subst fd_. unfold tempfile.open. mstep. cbn [Z.ltb Z.compare]. mstep.
  rewrite (check_file_present _ _ _ Hfile). cbn [negb andb]. mstep.
  set (fl := {| posix.O_RDWR := false; posix.O_CREAT := false;
                posix.O_TRUNC := false; posix.O_APPEND := false |}).
  destruct (posix_open_existing nm fl (os p) F Hfile)
    as (n & k' & Hopen & Hfd' & Hfiles' & Hsw').
  cbn [posix.O_TRUNC fl] in Hfiles'. rewrite insert_id in Hfiles' by assumption.
  erewrite bind_sys; [|exact Hopen]. mstep.
  replace (Z.of_nat n <? 0)%Z with false by (symmetry; apply Z.ltb_ge; lia).
  eexists. split; [reflexivity|]. split.
  - eexists. msimpl. split; [exact Hfd'|]. cbn [posix.of_path posix.of_pos].
    split; [assumption|]. split; [lia|].
    unfold posix.file_data. rewrite Hfiles', Hfile. cbn [default from_option id].
    rewrite take_0, drop_0. split; [reflexivity | assumption].
  - unfold frame. msimpl. repeat split; assumption.
Qed.

Lemma close_spec m :
  exists m',
    tempfile.close m = Return tt m'
    /\ fd (this m') = (-1)%Z
    /\ _name (this m') = _name (this m)
    /\ buf (this m') = buf (this m)
    /\ posix.files (kernel_of m') = posix.files (kernel_of m).
Proof.
  unfold tempfile.close. mstep.
  destruct (Z.eqb_spec (fd (this m)) (-1)) as [Hfd|Hfd]; cbn [negb].
  { exists m. repeat split. assumption. }
  mstep. erewrite bind_sys; [|apply surjective_pairing]. mstep.
  eexists. split; [reflexivity|]. msimpl. repeat split.
  unfold posix.close. destruct (posix.lookup_fd _ _); reflexivity.
Qed.

Lemma lines_with_separator pre (ss : list (list ascii)) :
  concat (map (fun s => s ++ pre ++ [LF]) ss)
  = concat (map (fun t => t ++ [LF]) (map (fun s => s ++ pre) ss)).
Proof.
  induction ss as [|s ss IH]; cbn; [reflexivity|].
  rewrite IH, <- !app_assoc. reflexivity.
Qed.

Lemma lines_nul_free ts :
  Forall line_text ts -> nul_free (concat (map (fun t => t ++ [LF]) ts)).
Proof.
  induction 1 as [|t ts Ht _ IH]; cbn; [constructor|].
  apply Forall_app. split; [|assumption].
  apply Forall_app. split.
  - eapply Forall_impl; [exact Ht|]. intros c [_ Hc]. exact Hc.
  - constructor; [discriminate | constructor].
Qed.

(** Claim C4.  Lines without line feed and without NUL, written with
    [write_lines] through a closed handle whose file is there and empty
    when [open] opens it for writing, by a kernel that completes every
    [::write], the separator being text without line feed and NUL followed
    by a line feed: after [close] and [open] for reading they come back
    from [read_line] one per call, each with the line separator it was
    written with, and the call after the last returns the empty line with
    nothing left in the buffer.  This holds for every size of the buffer
    (from 2 bytes on), so also for lines longer than it, and for every
    way the kernel cuts the file into short reads. *)
Theorem write_lines_read_line_roundtrip BUF_SIZE SEP pre ss m :
  2 <= BUF_SIZE ->
  SEP = pre ++ [LF] ->
  line_text pre ->
  Forall line_text ss ->
  length (buf (this m)) = BUF_SIZE ->
  fd (this m) = (-1)%Z ->
  posix.files (kernel_of m) !! _name (this m) = Some [] ->
  posix.short_writes (kernel_of m) = [] ->
  exists m',
    write_then_read BUF_SIZE SEP ss (S (length ss)) m
    = Return (map (fun s => s ++ SEP) ss ++ [[]]) m'
    /\ posix.files (kernel_of m') !! _name (this m')
       = Some (concat (map (fun s => s ++ SEP) ss))
    /\ level (this m') = 0.
Proof.
  intros Hsize -> Hpre Hss Hlen Hclosed Hfile Hsw.
  destruct (open_for_writing m Hclosed Hfile Hsw)
    as (m1 & Hopen1 & Hinv1 & Hname1 & Hbuf1).
  destruct (write_lines_spec (pre ++ [LF]) ss m1 [] Hinv1)
    as (m2 & Hwrite & Hinv2 & Hthis2).
  destruct (close_spec m2) as (m3 & Hclose & Hfd3 & Hname3 & Hbuf3 & Hfiles3).
  cbn [app] in Hinv2.
  destruct Hinv2 as (f & _ & _ & Hpath & Hfile2 & _).
  rewrite Hpath in Hfile2.
  set (ts := map (fun s => s ++ pre) ss).
  assert (Hts : Forall line_text ts).
  { subst ts. apply Forall_fmap. eapply Forall_impl; [exact Hss|].
    intros s Hs. cbn. apply Forall_app. split; assumption. }
  rewrite lines_with_separator in Hfile2. fold ts in Hfile2.
  assert (Hfile3 : posix.files (kernel_of m3) !! _name (this m3)
                   = Some (concat (map (fun t => t ++ [LF]) ts)))
    by (rewrite Hfiles3, Hname3; exact Hfile2).
  destruct (open_for_reading BUF_SIZE m3 _ Hsize
              ltac:(congruence) Hfd3 Hfile3 (lines_nul_free ts Hts))
    as (m4 & Hopen4 & Hinv4 & Hframe4).
  destruct (read_lines_spec BUF_SIZE ts m4 Hts Hinv4)
    as (m5 & Hread & Hinv5 & Hframe5).
  exists m5. split; [|split].
  - unfold write_then_read, bind.
    rewrite Hopen1, Hwrite, Hclose, Hopen4.
    replace (length ss) with (length ts) by (subst ts; apply length_map).
    rewrite Hread. f_equal. f_equal. subst ts.
    rewrite map_map. apply map_ext. intros s. rewrite <- app_assoc. reflexivity.
  - destruct Hframe4 as (Hn4 & _ & Hf4 & _). destruct Hframe5 as (Hn5 & _ & Hf5 & _).
    rewrite Hf5, Hf4, Hn5, Hn4, Hfile3, lines_with_separator. reflexivity.
  - destruct Hinv5 as (f5 & _ & Hlen5 & Hlev5 & HR5 & _).
    symmetry in HR5. apply app_eq_nil in HR5 as [Htake _].
    apply take_nil_inv in Htake as [?|Hnil]; [assumption|].
    rewrite Hnil in Hlen5. cbn in Hlen5. lia.
Qed.

Lemma write_lines_read_line_roundtrip_witness :
  Forall line_text text_lines
  /\ exists m',
       write_then_read 4 [LF] text_lines 4 (sample_machine 4 false false [] [1; 2; 7])
       = Return (map (fun s => s ++ [LF]) text_lines ++ [[]]) m'
       /\ posix.files (kernel_of m') !! _name (this m')
          = Some (concat (map (fun s => s ++ [LF]) text_lines))
       /\ level (this m') = 0.
Proof.
  assert (Htext : Forall line_text text_lines).
  { unfold text_lines, line_text. cbn [list_ascii_of_string].
    repeat first
      [ apply Forall_nil
      | apply Forall_cons; split; [|]
      | split; discriminate ]. }
  split; [exact Htext|].
  apply (write_lines_read_line_roundtrip 4 [LF] [] text_lines
           (sample_machine 4 false false [] [1; 2; 7]));
    [lia | reflexivity | constructor | exact Htext | reflexivity | reflexivity
    | reflexivity | reflexivity].
Defined.

(** The round trip as stated for every sequence of newline-free
    strings fails on a line with a NUL in it: [strchr] stops at the NUL,
    so [read_line] does not see the line feed behind it and returns both
    lines as one. *)
Lemma write_lines_read_line_nul_counterexample :
  Forall (fun s => LF ∉ s) nul_lines
  /\ returned_value
       (write_then_read 8 [LF] nul_lines 3 (sample_machine 8 false false [] []))
     = Some [ ["a"%char; NUL; "b"%char; LF; "c"%char; LF]; []; [] ]
  /\ returned_value
       (write_then_read 8 [LF] nul_lines 3 (sample_machine 8 false false [] []))
     <> Some (map (fun s => s ++ [LF]) nul_lines ++ [[]]).
Proof.
  split.
  - unfold nul_lines.
    apply Forall_cons; split.
    { rewrite !not_elem_of_cons. repeat split; try discriminate.
      apply not_elem_of_nil. }
    apply Forall_cons; split; [|constructor].
    rewrite !not_elem_of_cons. repeat split; try discriminate.
    apply not_elem_of_nil.
  - split; [vm_compute; reflexivity|].
    vm_compute. intros Heq. discriminate Heq.
Qed.

End read_line_facts.

(** ** More on the registry and the handle *)

Section handle_facts.
Import RldProcess.

Ltac hsimpl :=
  unfold kernel_of, set_kernel;
  cbn [this proc _name suffix overridden fd buf level set_this set_proc
       set_os with_buf with_level with_fd with_name
       with_overridden os fst snd keep_temporary_files temporaries].

Ltac hstep :=
  repeat first
    [ rewrite bind_bind | rewrite bind_member | rewrite bind_gets
    | rewrite bind_assign | rewrite bind_ret
    | rewrite bind_throw | rewrite bind_undefined ];
  hsimpl.





Lemma clean_up_from_spec : forall rest p,
  exists p',
    temporary_files.clean_up_from rest p = Return tt p'
    /\ temporaries p' = temporaries p
    /\ keep_temporary_files p' = keep_temporary_files p
    /\ forall path,
         posix.files (os p') !! path
         = if keep_temporary_files p || negb (unkept rest path)
           then posix.files (os p) !! path else None.
Proof.
  induction rest as [|tfi rest IH]; intros p.
  - exists p. split; [reflexivity|]. split; [reflexivity|]. split; [reflexivity|].
    intros path. cbn. rewrite orb_true_r. reflexivity.
  - destruct (temporary_files_unlink_files tfi p) as (p1 & Hun & Hk1 & Ht1 & Hf1).
    destruct (IH p1) as (p2 & Hrest & Ht2 & Hk2 & Hf2).
    exists p2. cbn [temporary_files.clean_up_from]. unfold bind. rewrite Hun.
    split; [exact Hrest|]. split; [congruence|]. split; [congruence|].
    intros path. rewrite Hf2, Hk1, Hf1. cbn [unkept existsb].
    fold (unkept rest path).
    destruct (keep_temporary_files p); cbn [orb].
    { rewrite orb_true_r. reflexivity. }
    rewrite !orb_false_r.
    destruct (String.eqb_spec (name tfi) path) as [Heq|Hne]; cbn [andb].
    + destruct (keep tfi); cbn [negb orb].
      * reflexivity.
      * subst path. rewrite lookup_delete_eq.
        destruct (negb (unkept rest (name tfi))); reflexivity.
    + cbn [orb]. destruct (keep tfi); [reflexivity|].
      rewrite lookup_delete_ne by assumption. reflexivity.
Qed.

(** Extra X2.  [temporaries_clean_up] leaves the registry as it is (no
    record is removed) and, unless [keep_temporary_files] is set, deletes
    exactly the files of the records that are not marked keep; every other
    file is as before. *)
Theorem temporaries_clean_up_files p :
  exists p',
    temporaries_clean_up p = Return tt p'
    /\ temporaries p' = temporaries p
    /\ keep_temporary_files p' = keep_temporary_files p
    /\ forall path,
         posix.files (os p') !! path
         = if keep_temporary_files p || negb (unkept (temporaries p) path)
           then posix.files (os p) !! path else None.
Proof.
  unfold temporaries_clean_up, temporary_files.clean_up, bind, gets.
  apply clean_up_from_spec.
Qed.

Lemma posix_open_result path fl k :
  ((posix.open path fl k).1 = (-1)%Z \/ (0 <= (posix.open path fl k).1)%Z).
Proof.
  unfold posix.open.
  destruct (posix.files k !! path), (posix.O_CREAT fl);
    try destruct (posix.create_errors k !! path); cbn; lia.
Qed.

(** A call of [open] that returns leaves the handle open. *)
Lemma open_returns_open writable m m' :
  tempfile.open writable m = Return tt m' -> (0 <= fd (this m'))%Z.
Proof.
  intros Hopen.
  revert Hopen. unfold tempfile.open. hstep.
  destruct (Z.ltb_spec (fd (this m)) 0) as [Hneg|Hpos].
  2:{ intros [= <-]. assumption. }
  hstep.
  destruct (writable && overridden (this m)).
  - hstep. rewrite bind_sys with (1 := surjective_pairing _). hstep.
    destruct (posix_open_result (_name (this m))
                {| posix.O_RDWR := writable; posix.O_CREAT := true;
                   posix.O_TRUNC := true; posix.O_APPEND := true |}
                (os (proc m))) as [Hr|Hr].
    + rewrite Hr. cbn [Z.ltb Z.compare]. unfold strerror_errno. hstep.
      discriminate.
    + destruct (Z.ltb_spec (posix.open (_name (this m))
                  {| posix.O_RDWR := writable; posix.O_CREAT := true;
                     posix.O_TRUNC := true; posix.O_APPEND := true |}
                  (os (proc m))).1 0); [lia|].
      intros [= <-]. exact Hr.
  - destruct (negb (path.check_file (_name (this m)) (os (proc m)))).
    { discriminate. }
    hstep. rewrite bind_sys with (1 := surjective_pairing _). hstep.
    destruct (posix_open_result (_name (this m))
                {| posix.O_RDWR := writable; posix.O_CREAT := false;
                   posix.O_TRUNC := false; posix.O_APPEND := false |}
                (os (proc m))) as [Hr|Hr].
    + rewrite Hr. cbn [Z.ltb Z.compare]. unfold strerror_errno. hstep.
      discriminate.
    + destruct (Z.ltb_spec (posix.open (_name (this m))
                  {| posix.O_RDWR := writable; posix.O_CREAT := false;
                     posix.O_TRUNC := false; posix.O_APPEND := false |}
                  (os (proc m))).1 0); [lia|].
      intros [= <-]. exact Hr. 
Qed.

(** Extra X3.  [open] is idempotent: once a call of [open] has
    returned, a further call, in either mode, returns at once and changes
    neither the handle nor the process. *)
Theorem tempfile_open_twice writable writable' m m' :
  tempfile.open writable m = Return tt m' ->
  tempfile.open writable' m' = Return tt m'.
Proof.
  intros Hopen. pose proof (open_returns_open _ _ _ Hopen) as Hfd.
  unfold tempfile.open. hstep.
  destruct (Z.ltb_spec (fd (this m')) 0); [lia | reflexivity].
Qed.

Lemma tempfile_open_twice_witness :
  exists m',
    tempfile.open true (sample_machine 8 false false [] []) = Return tt m'
    /\ tempfile.open false m' = Return tt m'.
Proof.
  eexists. split; [vm_compute; reflexivity|].
  apply (tempfile_open_twice true false (sample_machine 8 false false [] [])).
  vm_compute. reflexivity.
Defined.

(** Extra X4.  [close] always returns; after it the handle is closed,
    its descriptor is no longer open in the kernel, the files are as they
    were, and a second [close] changes nothing. *)
Theorem tempfile_close_closes m :
  exists m',
    tempfile.close m = Return tt m'
    /\ fd (this m') = (-1)%Z
    /\ posix.lookup_fd (fd (this m)) (kernel_of m') = None
    /\ posix.files (kernel_of m') = posix.files (kernel_of m)
    /\ tempfile.close m' = Return tt m'.
Proof.
  unfold tempfile.close. hstep.
  destruct (Z.eqb_spec (fd (this m)) (-1)) as [Hfd|Hfd]; cbn [negb].
  { exists m. split; [reflexivity|]. split; [assumption|].
    split; [rewrite Hfd; reflexivity|]. split; [reflexivity|].
    hstep. rewrite Hfd. reflexivity. }
  hstep. rewrite bind_sys with (1 := surjective_pairing _). hstep.
  eexists. split; [reflexivity|]. hsimpl. split; [reflexivity|].
  split; [|split; [|reflexivity]].
  - unfold posix.close, posix.lookup_fd.
    destruct (fd (this m) <? 0)%Z eqn:Hneg; [reflexivity|].
    destruct (posix.fdtable (os (proc m)) !! Z.to_nat (fd (this m))) eqn:Hlook;
      cbn; rewrite ?Hneg; [apply lookup_delete_eq | exact Hlook].
  - unfold posix.close. destruct (posix.lookup_fd _ _); reflexivity.
Qed.

(** Extra X5.  A closed handle whose file does not exist: [open] for
    reading, and [open] for writing unless the name was overridden, throws
    "Not found." and leaves handle and process untouched (no file is
    created).  For writing on an overridden name [open] has the kernel
    create the file: where the kernel can, the file is there, empty, and
    the handle is open on it; where it cannot, [open] throws the text of
    the kernel's error, the handle stays closed and no file is created. *)
Theorem tempfile_open_missing_file writable m :
  fd (this m) = (-1)%Z ->
  posix.files (kernel_of m) !! _name (this m) = None ->
  (writable && overridden (this m) = false ->
   tempfile.open writable m
   = Throw (rld_error "Not found." ("tempfile open:" +:+ _name (this m))) m)
  /\ (writable && overridden (this m) = true ->
      posix.create_errors (kernel_of m) !! _name (this m) = None ->
      exists m',
        tempfile.open writable m = Return tt m'
        /\ (0 <= fd (this m'))%Z
        /\ posix.files (kernel_of m')
           = <[_name (this m) := []]> (posix.files (kernel_of m)))
  /\ (forall e,
        writable && overridden (this m) = true ->
        posix.create_errors (kernel_of m) !! _name (this m) = Some e ->
        exists m',
          tempfile.open writable m
          = Throw (rld_error (posix.strerror e)
                     ("tempfile open:" +:+ _name (this m))) m'
          /\ fd (this m') = (-1)%Z
          /\ level (this m') = 0
          /\ posix.files (kernel_of m') = posix.files (kernel_of m)).
Proof.
  intros Hfd Hfile. unfold kernel_of in *.
  assert (Hcheck : path.check_file (_name (this m)) (os (proc m)) = false).
  { unfold path.check_file. apply bool_decide_eq_false_2.
    rewrite Hfile. intros [? ?]. discriminate. }
  split; [|split]; [intros Hmode | intros Hmode Hce | intros e Hmode Hce];
    unfold tempfile.open; hstep; rewrite Hfd;
    cbn [Z.ltb Z.compare]; hstep; rewrite Hmode, ?Hcheck; cbn [negb].
  - reflexivity.
  - hstep. rewrite bind_sys with (1 := surjective_pairing _). hstep.
    unfold posix.open. rewrite Hfile, Hce.
    cbn [posix.O_CREAT posix.O_TRUNC fst snd].
    replace (Z.of_nat (fresh (dom (posix.fdtable (os (proc m))))) <? 0)%Z
      with false by (symmetry; apply Z.ltb_ge; lia).
    eexists. split; [reflexivity|]. hsimpl. split; [lia | reflexivity].
  - hstep. rewrite bind_sys with (1 := surjective_pairing _). hstep.
    unfold posix.open. rewrite Hfile, Hce.
    cbn [posix.O_CREAT fst snd Z.ltb Z.compare].
    unfold strerror_errno. hstep.
    eexists. split; [reflexivity|]. hsimpl.
    split; [reflexivity|]. split; reflexivity.
Qed.

Lemma tempfile_open_missing_file_witness :
  tempfile.open false
    (set_this (with_name "/tmp/none.tmp" (sample_tempfile 8))
       (sample_machine 8 false false [] []))
  = Throw (rld_error "Not found." "tempfile open:/tmp/none.tmp")
      (set_this (with_name "/tmp/none.tmp" (sample_tempfile 8))
         (sample_machine 8 false false [] []))
  /\ (exists m',
        tempfile.open true
          (set_this (with_overridden true
                       (with_name "/tmp/none.tmp" (sample_tempfile 8)))
             (sample_machine 8 false false [] [])) = Return tt m'
        /\ (0 <= fd (this m'))%Z
        /\ posix.files (kernel_of m')
           = <["/tmp/none.tmp" := []]>
               (posix.files (kernel_of (sample_machine 8 false false [] []))))
  /\ (exists m',
        tempfile.open true (sample_no_create "/nodir/out.tmp" 13%Z)
        = Throw (rld_error "Permission denied" "tempfile open:/nodir/out.tmp") m'
        /\ fd (this m') = (-1)%Z
        /\ level (this m') = 0
        /\ posix.files (kernel_of m')
           = posix.files (kernel_of (sample_no_create "/nodir/out.tmp" 13%Z))).
Proof.
  split; [|split].
  - apply (proj1 (tempfile_open_missing_file false
             (set_this (with_name "/tmp/none.tmp" (sample_tempfile 8))
                (sample_machine 8 false false [] []))
             eq_refl eq_refl)).
    reflexivity.
  - apply (proj1 (proj2 (tempfile_open_missing_file true
             (set_this (with_overridden true
                          (with_name "/tmp/none.tmp" (sample_tempfile 8)))
                (sample_machine 8 false false [] []))
             eq_refl eq_refl)));
      reflexivity.
  - apply (proj2 (proj2 (tempfile_open_missing_file true
             (sample_no_create "/nodir/out.tmp" 13%Z) eq_refl eq_refl)) 13%Z);
      reflexivity.
Defined.

(** Extra X6.  A handle that [open] has opened cannot be overridden:
    [override] throws "Already open" and changes nothing, so the file
    behind an open descriptor is never deleted by it. *)
Theorem tempfile_override_after_open writable name_ m m' :
  tempfile.open writable m = Return tt m' ->
  tempfile.override name_ m'
  = Throw (rld_error "Already open" "tempfile override") m'.
Proof.
  intros Hopen. pose proof (open_returns_open _ _ _ Hopen) as Hfd.
  unfold tempfile.override. hstep.
  destruct (Z.leb_spec 0 (fd (this m'))); [reflexivity | lia].
Qed.

Lemma tempfile_override_after_open_witness :
  exists m',
    tempfile.open true (sample_machine 8 false false [] []) = Return tt m'
    /\ tempfile.override "mine" m'
       = Throw (rld_error "Already open" "tempfile override") m'.
Proof.
  eexists. split; [vm_compute; reflexivity|].
  apply (tempfile_override_after_open true "mine"
           (sample_machine 8 false false [] [])).
  vm_compute. reflexivity.
Defined.

(** Extra X7.  [override] on a closed handle deletes the file of the
    old name and binds the handle to the new base name plus the suffix;
    the registry keeps the record of the old name.  When the new name is
    not registered, destroying the handle afterwards removes no record
    and deletes no file: the overridden file stays on disk whatever the
    keep flags are. *)
Theorem tempfile_override_then_destroy name_ m :
  fd (this m) = (-1)%Z ->
  Forall (fun x => name x <> name_ +:+ suffix (this m)) (temporaries (proc m)) ->
  exists m1 m2,
    tempfile.override name_ m = Return tt m1
    /\ _name (this m1) = name_ +:+ suffix (this m)
    /\ overridden (this m1) = true
    /\ temporaries (proc m1) = temporaries (proc m)
    /\ posix.files (kernel_of m1)
       = delete (_name (this m)) (posix.files (kernel_of m))
    /\ tempfile.destroy m1 = Return tt m2
    /\ temporaries (proc m2) = temporaries (proc m)
    /\ posix.files (kernel_of m2) = posix.files (kernel_of m1).
Proof.
  intros Hfd Hnew.
  destruct (path_unlink_files (_name (this m)) (kernel_of m))
    as (k' & Hunlink & Hfiles & _).
  set (m1 := set_this
               (with_name (name_ +:+ suffix (this m))
                  (with_overridden true (this m)))
               (set_kernel k' m)).
  assert (Hover : tempfile.override name_ m = Return tt m1).
  { unfold tempfile.override. hstep. rewrite Hfd. cbn [Z.leb Z.compare].
    hstep. unfold bind at 1, zoom. unfold kernel_of in Hunlink.
    rewrite Hunlink. hstep. reflexivity. }
  destruct (close_keeps m1) as (m1' & Hclose & Hname & _ & Hkeep & Htemps & Hf1).
  exists m1. eexists. split; [exact Hover|].
  split; [reflexivity|]. split; [reflexivity|]. split; [reflexivity|].
  split; [exact Hfiles|].
  unfold tempfile.destroy, bind, member, gets, zoom. rewrite Hclose.
  unfold temporary_files.erase, bind, gets.
  rewrite erase_from_unregistered by (rewrite Htemps, Hname; exact Hnew).
  split; [reflexivity|]. unfold kernel_of in *. cbn [proc set_proc].
  split; [exact Htemps | exact Hf1].
Qed.

Lemma tempfile_override_then_destroy_witness :
  exists m1 m2,
    tempfile.override "/home/me/mine" (sample_machine 8 false false [] [])
    = Return tt m1
    /\ _name (this m1) = "/home/me/mine.tmp"
    /\ overridden (this m1) = true
    /\ temporaries (proc m1)
       = temporaries (proc (sample_machine 8 false false [] []))
    /\ posix.files (kernel_of m1)
       = delete sample_path
           (posix.files (kernel_of (sample_machine 8 false false [] [])))
    /\ tempfile.destroy m1 = Return tt m2
    /\ temporaries (proc m2)
       = temporaries (proc (sample_machine 8 false false [] []))
    /\ posix.files (kernel_of m2) = posix.files (kernel_of m1).
Proof.
  apply (tempfile_override_then_destroy "/home/me/mine"
           (sample_machine 8 false false [] []) eq_refl).
  constructor; [|constructor]. simpl. unfold sample_path. discriminate.
Defined.

Lemma lookup_fd_closed k : posix.lookup_fd (-1) k = None.
Proof. reflexivity. Qed.

(** Extra X8.  [write] on a closed handle: the empty string is written
    by doing nothing; any other string makes [::write] fail, and [write]
    throws the error of a bad file descriptor, the files untouched. *)
Theorem tempfile_write_closed_handle s m :
  fd (this m) = (-1)%Z ->
  tempfile.write [] m = Return tt m
  /\ (s <> [] ->
      tempfile.write s m
      = Throw (rld_error "Bad file descriptor"
                 ("tempfile write:" +:+ _name (this m)))
          (set_kernel (posix.set_errno posix.EBADF (kernel_of m)) m)).
Proof.
  intros Hfd. split; [reflexivity|]. intros Hs.
  destruct s as [|c s]; [congruence|].
  unfold tempfile.write. cbn [length tempfile.write_loop Nat.eqb negb].
  hstep. rewrite Hfd.
  rewrite bind_sys with (a := (-1)%Z)
                        (k := posix.set_errno posix.EBADF (os (proc m)))
    by reflexivity.
  cbn [Z.ltb Z.compare]. unfold strerror_errno. hstep. reflexivity.
Qed.

Lemma tempfile_write_closed_handle_witness :
  tempfile.write [] (sample_machine 8 false false [] [])
  = Return tt (sample_machine 8 false false [] [])
  /\ tempfile.write (list_ascii_of_string "abc") (sample_machine 8 false false [] [])
     = Throw (rld_error "Bad file descriptor" ("tempfile write:" +:+ sample_path))
         (set_kernel
            (posix.set_errno posix.EBADF
               (kernel_of (sample_machine 8 false false [] [])))
            (sample_machine 8 false false [] [])).
Proof.
  split.
  - apply (proj1 (tempfile_write_closed_handle []
                    (sample_machine 8 false false [] []) eq_refl)).
  - apply (proj2 (tempfile_write_closed_handle (list_ascii_of_string "abc")
                    (sample_machine 8 false false [] []) eq_refl)).
    discriminate.
Defined.

(** [::write] at the end of the file when a short write of [r] bytes
    is scheduled. *)
Lemma posix_write_scheduled fd_ data k f F r rest :
  posix.lookup_fd fd_ k = Some f ->
  posix.O_RDWR (posix.of_flags f) = true ->
  posix.files k !! posix.of_path f = Some F ->
  posix.of_pos f = length F ->
  posix.short_writes k = Z.of_nat r :: rest ->
  exists k',
    posix.write fd_ data k = (Z.of_nat (r `min` length data), k')
    /\ posix.lookup_fd fd_ k'
       = Some {| posix.of_path := posix.of_path f;
                 posix.of_flags := posix.of_flags f;
                 posix.of_pos := length (F ++ take r data) |}
    /\ posix.files k' = <[posix.of_path f := F ++ take r data]> (posix.files k)
    /\ posix.short_writes k' = rest.
Proof.
  intros Hfd Hrdwr Hfile Hpos Hsw. unfold posix.write.
  rewrite Hfd, Hrdwr, Hsw. cbn [negb head tail].
  replace (Z.of_nat r <? 0)%Z with false by (symmetry; apply Z.ltb_ge; lia).
  unfold posix.file_data. rewrite Hfile. cbn [default from_option id].
  assert (Hp : (if posix.O_APPEND (posix.of_flags f) then length F
                else posix.of_pos f) = length F)
    by (destruct (posix.O_APPEND _); congruence).
  rewrite Hp, Nat2Z.id. eexists. split; [reflexivity|].
  assert (Htake : take (r `min` length data) data = take r data).
  { destruct (Nat.le_ge_cases r (length data)).
    - rewrite Nat.min_l by assumption. reflexivity.
    - rewrite Nat.min_r by assumption. rewrite !take_ge by lia. reflexivity. }
  assert (Hov : posix.overwrite (length F) (take (r `min` length data) data) F
                = F ++ take r data).
  { unfold posix.overwrite. rewrite Htake.
    rewrite take_ge, drop_ge, Nat.sub_diag by lia.
    cbn. rewrite app_nil_r. reflexivity. }
  split; [|split; [cbn; rewrite Hov; reflexivity | reflexivity]].
  erewrite lookup_fd_insert by eassumption.
  rewrite length_app, length_take. reflexivity.
Qed.

Lemma writable_at_nil m F : writable_at m F [] <-> writing_inv m F.
Proof. reflexivity. Qed.

(** Extra X9.  A zero-length [::write]: [write] stops without an error
    and without the string; the file is as it was. *)
Theorem tempfile_write_zero_length s m F rest :
  writable_at m F (0%Z :: rest) ->
  s <> [] ->
  exists m',
    tempfile.write s m = Return tt m'
    /\ writable_at m' F rest
    /\ this m' = this m.
Proof.
  intros (f & Hfd & Hrdwr & Hpath & Hfile & Hpos & Hsw) Hs.
  destruct s as [|c s]; [congruence|]. set (data := c :: s).
  destruct (posix_write_scheduled (fd (this m)) data (kernel_of m) f F 0 rest
              Hfd Hrdwr Hfile Hpos Hsw) as (k' & Hwrite & Hfd' & Hfiles' & Hsw').
  unfold tempfile.write. change (length data) with (S (length s)).
  cbn [tempfile.write_loop Nat.eqb negb]. hstep.
  erewrite bind_sys;
    [|rewrite take_ge by (subst data; cbn [length]; lia); exact Hwrite].
  cbn [Nat.min Z.of_nat Z.ltb Z.eqb Z.compare].
  eexists. split; [reflexivity|]. split; [|reflexivity].
  rewrite take_0, app_nil_r in Hfd', Hfiles'.
  eexists. hsimpl. split; [exact Hfd'|].
  cbn [posix.of_flags posix.of_path posix.of_pos].
  split; [assumption|]. split; [assumption|].
  split; [rewrite Hfiles'; apply lookup_insert_eq|]. split; [reflexivity|assumption].
Qed.

(** Extra X10.  When the kernel takes every request whole, [write]
    appends exactly the bytes of the string to the file and leaves the
    handle as it is. *)
Theorem tempfile_write_appends s m F :
  writable_at m F [] ->
  exists m',
    tempfile.write s m = Return tt m'
    /\ writable_at m' (F ++ s) []
    /\ this m' = this m.
Proof. intros Hinv. apply write_spec. exact Hinv. Qed.


Ltac sample_writable :=
  eexists; split; [vm_compute; reflexivity|];
  split; [vm_compute; reflexivity|];
  split; [vm_compute; reflexivity|];
  split; [vm_compute; reflexivity|];
  split; vm_compute; reflexivity.

Lemma tempfile_write_zero_length_witness :
  writable_at (sample_writer [0%Z]) [] [0%Z]
  /\ exists m',
       tempfile.write (list_ascii_of_string "abc") (sample_writer [0%Z])
       = Return tt m'
       /\ writable_at m' [] []
       /\ this m' = this (sample_writer [0%Z]).
Proof.
  assert (Hw : writable_at (sample_writer [0%Z]) [] [0%Z]) by sample_writable.
  split; [exact Hw|].
  apply (tempfile_write_zero_length (list_ascii_of_string "abc")
           (sample_writer [0%Z]) [] [] Hw).
  discriminate.
Defined.

Lemma tempfile_write_appends_witness :
  writable_at (sample_writer []) [] []
  /\ exists m',
       tempfile.write (list_ascii_of_string "abc") (sample_writer [])
       = Return tt m'
       /\ writable_at m' ([] ++ list_ascii_of_string "abc") []
       /\ this m' = this (sample_writer []).
Proof.
  assert (Hw : writable_at (sample_writer []) [] []) by sample_writable.
  split; [exact Hw|].
  apply (tempfile_write_appends (list_ascii_of_string "abc")
           (sample_writer []) [] Hw).
Defined.


(** [::write] of a whole request on a descriptor open for writing:
    the data go to the offset of the descriptor, the end of the file under
    [O_APPEND], over what the file holds there. *)
Lemma posix_write_at fd_ data k f F pos :
  posix.lookup_fd fd_ k = Some f ->
  posix.O_RDWR (posix.of_flags f) = true ->
  posix.files k !! posix.of_path f = Some F ->
  (if posix.O_APPEND (posix.of_flags f) then length F else posix.of_pos f)
  = pos ->
  pos <= length F ->
  posix.short_writes k = [] ->
  exists k',
    posix.write fd_ data k = (Z.of_nat (length data), k')
    /\ posix.files k'
       = <[posix.of_path f := take pos F ++ data ++ drop (pos + length data) F]>
           (posix.files k).
Proof.
  intros Hfd Hrdwr Hfile Hpos Hle Hsw. unfold posix.write.
  rewrite Hfd, Hrdwr, Hsw. cbn [negb head tail].
  unfold posix.file_data. rewrite Hfile. cbn [default from_option id].
  rewrite Hpos. eexists. split; [reflexivity|].
  cbn [posix.files]. unfold posix.overwrite.
  rewrite (take_ge data (length data)) by lia.
  replace (pos - length F) with 0 by lia. reflexivity.
Qed.

(** Extra X12.  [write] on a handle open for writing, every request
    taken whole, puts the string at the offset of the descriptor (the end
    of the file under [O_APPEND]), over what the file holds there; [size]
    looks at the file by its path, so after the [write] it is the larger
    of the length before and the offset plus the length of the string.
    On a handle that is not open [size] is 0 whatever the file holds. *)
Theorem tempfile_size_after_write s m F pos :
  writable_from m F pos ->
  pos <= length F ->
  (exists m',
     tempfile.write s m = Return tt m'
     /\ posix.files (kernel_of m') !! _name (this m')
        = Some (take pos F ++ s ++ drop (pos + length s) F)
     /\ tempfile.size m'
        = Return (Nat.max (length F) (pos + length s)) m')
  /\ (forall c, fd (this c) = (-1)%Z -> tempfile.size c = Return 0 c).
Proof.
  intros (f & Hfd & Hrdwr & Hpath & Hfile & Hpos & Hsw) Hle. split.
  2:{ intros c Hc. unfold tempfile.size. hstep. rewrite Hc. reflexivity. }
  pose proof (lookup_fd_nonneg _ _ _ Hfd) as Hnonneg.
  assert (Hsize : forall m' G,
    fd (this m') = fd (this m) ->
    posix.files (kernel_of m') !! _name (this m') = Some G ->
    tempfile.size m' = Return (length G) m').
  { intros m' G Hfd' HG. unfold tempfile.size. hstep. rewrite Hfd'.
    destruct (Z.ltb_spec (fd (this m)) 0); [lia|]. hstep.
    unfold kernel_of in HG.
    rewrite bind_sys with (a := (0%Z, length G)) (k := os (proc m'))
      by (unfold posix.stat; rewrite HG; reflexivity).
    cbn [fst snd Z.eqb]. destruct m' as [t [ka tm k]]. reflexivity. }
  destruct s as [|c s].
  { exists m. split; [reflexivity|]. rewrite Hpath in Hfile.
    cbn [app length]. rewrite Nat.add_0_r, take_drop.
    split; [exact Hfile|].
    rewrite (Hsize m F eq_refl Hfile). f_equal. lia. }
  set (data := c :: s).
  destruct (posix_write_at (fd (this m)) data (kernel_of m) f F pos
              Hfd Hrdwr Hfile Hpos Hle Hsw) as (k' & Hwrite & Hfiles').
  unfold tempfile.write. change (length data) with (S (length s)) at 1 2.
  cbn [tempfile.write_loop Nat.eqb negb]. hstep.
  erewrite bind_sys;
    [|rewrite take_ge by (subst data; cbn [length]; lia); exact Hwrite].
  replace (Z.of_nat (length data) <? 0)%Z with false
    by (symmetry; apply Z.ltb_ge; lia).
  replace (Z.of_nat (length data) =? 0)%Z with false
    by (symmetry; apply Z.eqb_neq; subst data; cbn [length]; lia).
  rewrite Nat2Z.id. change (length data) with (S (length s)) at 1.
  rewrite Nat.sub_diag.
  cbn [tempfile.write_loop Nat.eqb negb]. eexists. split; [reflexivity|].
  match goal with |- ?A /\ _ => assert (HG : A) end.
  { hsimpl. rewrite Hfiles', <- Hpath. apply lookup_insert_eq. }
  split; [exact HG|].
  match goal with
  | |- tempfile.size ?M = _ =>
    rewrite (Hsize M _ ltac:(hsimpl; reflexivity) HG)
  end.
  f_equal. rewrite !length_app, length_take, length_drop. lia.
Qed.

Lemma tempfile_size_after_write_witness :
  writable_from (sample_rewriter (list_ascii_of_string "0123456789"))
    (list_ascii_of_string "0123456789") 0
  /\ (exists m',
        tempfile.write (list_ascii_of_string "XY")
          (sample_rewriter (list_ascii_of_string "0123456789"))
        = Return tt m'
        /\ posix.files (kernel_of m') !! _name (this m')
           = Some (list_ascii_of_string "XY23456789")
        /\ tempfile.size m' = Return 10 m')
  /\ tempfile.size (sample_machine 8 false false [] [])
     = Return 0 (sample_machine 8 false false [] []).
Proof.
  assert (Hw : writable_from
                 (sample_rewriter (list_ascii_of_string "0123456789"))
                 (list_ascii_of_string "0123456789") 0) by sample_writable.
  split; [exact Hw|]. split.
  - apply (proj1 (tempfile_size_after_write (list_ascii_of_string "XY")
                    (sample_rewriter (list_ascii_of_string "0123456789"))
                    (list_ascii_of_string "0123456789") 0 Hw
                    ltac:(simpl; lia))).
  - apply (proj2 (tempfile_size_after_write (list_ascii_of_string "XY")
                    (sample_rewriter (list_ascii_of_string "0123456789"))
                    (list_ascii_of_string "0123456789") 0 Hw
                    ltac:(simpl; lia))).
    reflexivity.
Defined.

End handle_facts.

(** ** Reading the file back *)

Section read_facts.
Import RldProcess.

Ltac rsimpl :=
  unfold kernel_of, set_kernel;
  cbn [this proc _name suffix overridden fd buf level set_this set_proc
       set_os with_buf with_level with_fd with_name
       with_overridden os fst snd keep_temporary_files temporaries].

Ltac rstep :=
  repeat first
    [ rewrite bind_bind | rewrite bind_member | rewrite bind_gets
    | rewrite bind_assign | rewrite bind_ret
    | rewrite bind_throw | rewrite bind_undefined ];
  rsimpl.

Lemma reading_inv_buffered BUF_SIZE m R :
  reading_inv BUF_SIZE m R -> buffered_inv BUF_SIZE m R.
Proof.
  intros (f & Hfd & Hlen & Hlev & HR & _). exists f. repeat split; assumption.
Qed.

Lemma buffered_inv_empty_level BUF_SIZE m :
  buffered_inv BUF_SIZE m [] -> level (this m) = 0.
Proof.
  intros (f & _ & Hlen & Hlev & HR).
  symmetry in HR. apply app_eq_nil in HR as [Htake _].
  apply take_nil_inv in Htake as [?|Hnil]; [assumption|].
  rewrite Hnil in Hlen. cbn in Hlen. lia.
Qed.

(** The loop of [read]: it appends all that is unread. *)
Lemma read_loop_spec BUF_SIZE : forall fuel m all f,
  0 < BUF_SIZE ->
  posix.lookup_fd (fd (this m)) (kernel_of m) = Some f ->
  length (buf (this m)) = BUF_SIZE ->
  length (drop (posix.of_pos f) (posix.file_data (posix.of_path f) (kernel_of m)))
  < fuel ->
  exists m' f',
    tempfile.read_loop BUF_SIZE fuel all m
    = Return (all ++ drop (posix.of_pos f)
                       (posix.file_data (posix.of_path f) (kernel_of m))) m'
    /\ posix.lookup_fd (fd (this m')) (kernel_of m') = Some f'
    /\ drop (posix.of_pos f') (posix.file_data (posix.of_path f') (kernel_of m')) = []
    /\ length (buf (this m')) = BUF_SIZE
    /\ level (this m') = level (this m)
    /\ frame m m'.
Proof.
  induction fuel as [|fuel IH]; intros m all f Hsize Hfd Hlen Hfuel; [lia|].
  destruct m as [t p]. destruct t as [nm sfx ovr fd_ buf_ lvl].
  unfold kernel_of in *. cbn [this proc _name suffix overridden fd buf level] in *.
  destruct (posix_read_open fd_ BUF_SIZE (os p) f Hfd Hsize)
    as (n & k' & Hread & Hn1 & Hn2 & Hn3 & Hfd' & Hfiles & Hsw).
  set (A := drop (posix.of_pos f) (posix.file_data (posix.of_path f) (os p))) in *.
  cbn [tempfile.read_loop]. rstep.
  erewrite bind_sys; [|rsimpl; rewrite Hread; reflexivity]. rstep.
  replace (Z.of_nat n <? 0)%Z with false by (symmetry; apply Z.ltb_ge; lia).
  assert (Hstore : store buf_ 0 (take n A) = take n A ++ drop n buf_).
  { unfold store. rewrite take_0, length_take, Nat.min_l by lia. reflexivity. }
  assert (Hstorelen : length (store buf_ 0 (take n A)) = BUF_SIZE).
  { rewrite Hstore, length_app, length_take, length_drop. lia. }
  assert (Hdrop : drop n A
          = drop (posix.of_pos f + n) (posix.file_data (posix.of_path f) k')).
  { unfold A. rewrite drop_drop, (file_data_files _ _ _ Hfiles). reflexivity. }
  destruct n as [|n'].
  - cbn [Z.of_nat Z.eqb]. rstep. eexists _, _. rewrite (Hn3 eq_refl), app_nil_r.
    split; [reflexivity|]. rsimpl. split; [exact Hfd'|].
    cbn [posix.of_path posix.of_pos].
    split; [rewrite <- Hdrop, (Hn3 eq_refl); reflexivity|].
    split; [exact Hstorelen|]. split; [reflexivity|].
    unfold frame. rsimpl. repeat split; assumption.
  - replace (Z.of_nat (S n') =? 0)%Z with false by (symmetry; apply Z.eqb_neq; lia).
    rstep. rewrite Nat2Z.id.
    set (m1 := set_this _ _).
    destruct (IH m1 (all ++ take (S n') (store buf_ 0 (take (S n') A)))
                {| posix.of_path := posix.of_path f;
                   posix.of_flags := posix.of_flags f;
                   posix.of_pos := posix.of_pos f + S n' |}
                Hsize) as (m2 & f2 & Hloop & Hfd2 & Hend & Hlen2 & Hlev2 & Hframe2).
    + subst m1. rsimpl. exact Hfd'.
    + subst m1. rsimpl. exact Hstorelen.
    + subst m1. rsimpl. cbn [posix.of_path posix.of_pos].
      rewrite <- Hdrop, length_drop. lia.
    + exists m2, f2. rewrite Hloop. subst m1. rsimpl.
      cbn [posix.of_path posix.of_pos] in *. rewrite <- Hdrop.
      rewrite Hstore, take_app_le, take_take, Nat.min_id
        by (rewrite length_take; lia).
      rewrite <- app_assoc, take_drop.
      split; [reflexivity|]. split; [exact Hfd2|]. split; [exact Hend|].
      split; [exact Hlen2|]. split; [exact Hlev2|].
      eapply frame_trans; [|exact Hframe2].
      unfold frame. rsimpl. repeat split; assumption.
Qed.

Lemma read_spec BUF_SIZE m R :
  buffered_inv BUF_SIZE m R ->
  exists m',
    tempfile.read BUF_SIZE m = Return R m'
    /\ buffered_inv BUF_SIZE m' []
    /\ frame m m'.
Proof.
  intros (f & Hfd & Hlen & Hlev & HR).
  pose proof (lookup_fd_nonneg _ _ _ Hfd) as Hnonneg.
  unfold tempfile.read. rstep.
  replace (fd (this m) =? -1)%Z with false by (symmetry; apply Z.eqb_neq; lia).
  cbn [negb]. rstep.
  replace (length (buf (this m)) <? level (this m))%nat with false
    by (symmetry; apply Nat.ltb_ge; lia).
  rstep.
  set (m0 := set_this (with_level 0 (this m)) m).
  destruct (read_loop_spec BUF_SIZE
              (S (unread (fd (this m)) (os (proc m0)))) m0
              (if negb (level (this m) =? 0)%nat
               then [] ++ take (level (this m)) (buf (this m)) else [])
              f ltac:(lia))
    as (m' & f' & Hloop & Hfd' & Hend & Hlen' & Hlev' & Hframe').
  - subst m0. rsimpl. exact Hfd.
  - subst m0. rsimpl. exact Hlen.
  - subst m0. unfold unread. rsimpl. unfold kernel_of in Hfd. rewrite Hfd. lia.
  - exists m'. subst m0. unfold kernel_of in *.
    cbn [this proc set_this with_level level buf fd] in *.
    rewrite Hloop. split.
    + f_equal. rewrite HR. f_equal.
      destruct (Nat.eqb_spec (level (this m)) 0) as [Hz|Hz]; cbn [negb app].
      * rewrite Hz, take_0. reflexivity.
      * reflexivity.
    + split.
      * exists f'. rewrite Hlev'. cbn [take app]. unfold kernel_of.
        split; [exact Hfd'|]. split; [exact Hlen'|]. split; [lia|].
        rewrite Hend. reflexivity.
      * eapply frame_trans; [|exact Hframe']. unfold frame. rsimpl.
        repeat split.
Qed.

Lemma first_line_parts R : (first_line R).1 ++ (first_line R).2 = R.
Proof.
  unfold first_line. destruct (lf_index R); cbn [fst snd].
  - apply take_drop.
  - apply app_nil_r.
Qed.

Lemma lf_index_None l : lf_index l = None <-> LF ∉ l.
Proof.
  induction l as [|c l IH]; cbn.
  - split; [intros _; apply not_elem_of_nil | reflexivity].
  - rewrite not_elem_of_cons. destruct (Ascii.eqb_spec c LF) as [->|Hne].
    + split; [discriminate | intros [? _]; congruence].
    + destruct (lf_index l); cbn.
      * split; [discriminate|]. intros [_ Hin]. apply IH in Hin. discriminate.
      * split; [|reflexivity]. intros _. split; [congruence|]. apply IH. reflexivity.
Qed.

Lemma lf_index_Some l : forall j,
  lf_index l = Some j -> take (S j) l = take j l ++ [LF] /\ LF ∉ take j l.
Proof.
  induction l as [|c l IH]; intros j; cbn; [discriminate|].
  destruct (Ascii.eqb_spec c LF) as [->|Hne].
  - intros [= <-]. cbn. split; [reflexivity | apply not_elem_of_nil].
  - destruct (lf_index l) as [i|]; [|discriminate]. intros [= <-].
    destruct (IH i eq_refl) as [Htake Hnot]. cbn. rewrite Htake.
    split; [reflexivity|]. apply not_elem_of_cons. split; [congruence | assumption].
Qed.

(** Extra X13.  [read_line] on an open handle whose pending bytes hold
    no NUL returns the next line: the bytes up to and including the first
    line feed, or, when there is no line feed left, all that is pending
    (the last line without its terminator, the empty line at the end of
    the file); what it does not return stays pending for the next call. *)
Theorem tempfile_read_line_next_line BUF_SIZE m R :
  reading_inv BUF_SIZE m R ->
  exists m' line rest,
    tempfile.read_line BUF_SIZE m = Return line m'
    /\ reading_inv BUF_SIZE m' rest
    /\ R = line ++ rest
    /\ ((exists t, line = t ++ [LF] /\ (LF ∉ t)) \/ ((LF ∉ R) /\ rest = [])).
Proof.
  intros Hinv.
  destruct (read_line_spec BUF_SIZE m R Hinv) as (m' & Hline & Hinv' & _).
  exists m', (first_line R).1, (first_line R).2.
  split; [exact Hline|]. split; [exact Hinv'|].
  split; [symmetry; apply first_line_parts|].
  unfold first_line. destruct (lf_index R) as [j|] eqn:Hj; cbn [fst snd].
  - left. exists (take j R). apply lf_index_Some. assumption.
  - right. split; [apply lf_index_None; assumption | reflexivity].
Qed.

(** Extra X14.  [read] returns all the handle still has to deliver,
    the bytes left in the buffer by [read_line] first and then the rest of
    the file, whatever the bytes are; afterwards nothing is pending and
    the buffer is empty. *)
Theorem tempfile_read_all BUF_SIZE m R :
  buffered_inv BUF_SIZE m R ->
  exists m',
    tempfile.read BUF_SIZE m = Return R m'
    /\ buffered_inv BUF_SIZE m' []
    /\ level (this m') = 0.
Proof.
  intros Hinv. destruct (read_spec BUF_SIZE m R Hinv) as (m' & Hread & Hinv' & _).
  exists m'. split; [exact Hread|]. split; [exact Hinv'|].
  eapply buffered_inv_empty_level. exact Hinv'.
Qed.

(** Extra X15.  [read_line] followed by [read]: the line and the
    remainder together are exactly what was pending, so no byte is lost
    or repeated between the buffered and the unbuffered reader. *)
Theorem tempfile_read_line_then_read BUF_SIZE m R :
  reading_inv BUF_SIZE m R ->
  exists m' line rest,
    read_line_then_read BUF_SIZE m = Return (line, rest) m'
    /\ line ++ rest = R
    /\ line = (first_line R).1.
Proof.
  intros Hinv.
  destruct (read_line_spec BUF_SIZE m R Hinv) as (m1 & Hline & Hinv1 & _).
  destruct (read_spec BUF_SIZE m1 _ (reading_inv_buffered _ _ _ Hinv1))
    as (m2 & Hread & _ & _).
  exists m2, (first_line R).1, (first_line R).2.
  unfold read_line_then_read, bind. rewrite Hline, Hread.
  split; [reflexivity|]. split; [apply first_line_parts | reflexivity].
Qed.

Ltac sample_nul_free :=
  unfold nul_free; cbn [list_ascii_of_string app];
  repeat first [apply Forall_cons; split; [discriminate|] | constructor].

Ltac sample_reading :=
  eexists; split; [vm_compute; reflexivity|];
  split; [reflexivity|];
  split; [vm_compute; lia|];
  split; [vm_compute; reflexivity|];
  unfold sample_text; sample_nul_free.

Lemma tempfile_read_line_next_line_witness :
  reading_inv 4 (sample_reader sample_text [2; 1]) sample_text
  /\ exists m' line rest,
       tempfile.read_line 4 (sample_reader sample_text [2; 1]) = Return line m'
       /\ reading_inv 4 m' rest
       /\ sample_text = line ++ rest
       /\ ((exists t, line = t ++ [LF] /\ (LF ∉ t))
           \/ ((LF ∉ sample_text) /\ rest = [])).
Proof.
  assert (Hr : reading_inv 4 (sample_reader sample_text [2; 1]) sample_text)
    by sample_reading.
  split; [exact Hr|].
  apply (tempfile_read_line_next_line 4 (sample_reader sample_text [2; 1])
           sample_text Hr).
Defined.

Lemma tempfile_read_all_witness :
  buffered_inv 4 (sample_reader sample_text []) sample_text
  /\ exists m',
       tempfile.read 4 (sample_reader sample_text []) = Return sample_text m'
       /\ buffered_inv 4 m' []
       /\ level (this m') = 0.
Proof.
  assert (Hr : buffered_inv 4 (sample_reader sample_text []) sample_text).
  { eexists. split; [vm_compute; reflexivity|]. split; [reflexivity|].
    split; [vm_compute; lia | vm_compute; reflexivity]. }
  split; [exact Hr|].
  apply (tempfile_read_all 4 (sample_reader sample_text []) sample_text Hr).
Defined.

Lemma tempfile_read_line_then_read_witness :
  reading_inv 4 (sample_reader sample_text [3]) sample_text
  /\ exists m' line rest,
       read_line_then_read 4 (sample_reader sample_text [3])
       = Return (line, rest) m'
       /\ line ++ rest = sample_text
       /\ line = (first_line sample_text).1.
Proof.
  assert (Hr : reading_inv 4 (sample_reader sample_text [3]) sample_text)
    by sample_reading.
  split; [exact Hr|].
  apply (tempfile_read_line_then_read 4 (sample_reader sample_text [3])
           sample_text Hr).
Defined.

End read_facts.

(** ** output *)

Section output_facts.
Import RldProcess.

Ltac osimpl :=
  unfold kernel_of, set_kernel;
  cbn [this proc _name suffix overridden fd buf level set_this set_proc
       set_os with_buf with_level with_fd with_name
       with_overridden os fst snd keep_temporary_files temporaries].

Ltac ostep :=
  repeat first
    [ rewrite bind_bind | rewrite bind_member | rewrite bind_gets
    | rewrite bind_assign | rewrite bind_ret
    | rewrite bind_throw | rewrite bind_undefined ];
  osimpl.

(** A call of [open] on a closed handle that returns has emptied the
    buffer. *)
Lemma open_resets_level writable m m' :
  (fd (this m) < 0)%Z ->
  tempfile.open writable m = Return tt m' -> level (this m') = 0.
Proof.
  intros Hneg. unfold tempfile.open. ostep.
  destruct (Z.ltb_spec (fd (this m)) 0) as [_|Hpos]; [|lia]. ostep.
  destruct (writable && overridden (this m)).
  - ostep. rewrite bind_sys with (1 := surjective_pairing _). ostep.
    destruct (_ <? 0)%Z.
    + unfold strerror_errno. ostep. discriminate.
    + intros [= <-]. reflexivity.
  - destruct (negb (path.check_file (_name (this m)) (os (proc m)))).
    { discriminate. }
    ostep. rewrite bind_sys with (1 := surjective_pairing _). ostep.
    destruct (_ <? 0)%Z.
    + unfold strerror_errno. ostep. discriminate.
    + intros [= <-]. reflexivity.
Qed.

Lemma bind_on_handle {A B} (c : M machine A) (f : A -> M (ostream * machine) B)
    o h a h' :
  c h = Return a h' ->
  bind (on_handle c) f (o, h) = f a (o, h').
Proof.
  intros Hc. unfold bind, on_handle, zoom. cbn [fst snd]. rewrite Hc. reflexivity.
Qed.

Lemma bind_put_to {St B} (x : ostream_item) (f : unit -> M (ostream * St) B) o h :
  bind (put_to x) f (o, h) = f tt (o ++ [x], h).
Proof. reflexivity. Qed.

Lemma first_line_progress c R0 :
  (first_line (c :: R0)).1 <> []
  /\ length (first_line (c :: R0)).2 < length (c :: R0).
Proof.
  unfold first_line. destruct (lf_index (c :: R0)) as [j|]; cbn [fst snd].
  - split; [discriminate|]. rewrite length_drop. cbn [length]. lia.
  - split; [discriminate|]. cbn [length]. lia.
Qed.

Lemma lines_of_fuel : forall f1 f2 R,
  length R <= f1 -> length R <= f2 -> lines_of f1 R = lines_of f2 R.
Proof.
  induction f1 as [|f1 IH]; intros f2 R H1 H2.
  - destruct R; [|cbn in H1; lia]. destruct f2; reflexivity.
  - destruct R as [|c R0]; [destruct f2; reflexivity|].
    destruct f2 as [|f2]; [cbn in H2; lia|].
    cbn [lines_of]. f_equal.
    pose proof (first_line_progress c R0) as [_ Hlt]. cbn [length] in *.
    apply IH; lia.
Qed.

Lemma concat_lines_of : forall fuel R,
  length R <= fuel -> concat (lines_of fuel R) = R.
Proof.
  induction fuel as [|fuel IH]; intros R Hlen.
  - destruct R; [reflexivity | cbn in Hlen; lia].
  - destruct R as [|c R0]; [reflexivity|].
    cbn [lines_of concat].
    pose proof (first_line_progress c R0) as [_ Hlt]. cbn [length] in *.
    rewrite IH by lia. apply first_line_parts.
Qed.

Lemma output_loop_spec BUF_SIZE prefix line_numbers : forall fuel m R o lc,
  reading_inv BUF_SIZE m R ->
  length R < fuel ->
  exists m',
    tempfile.output_loop BUF_SIZE fuel prefix line_numbers lc (o, m)
    = Return tt (o ++ render prefix line_numbers lc (lines_of (length R) R), m')
    /\ reading_inv BUF_SIZE m' []
    /\ frame m m'.
Proof.
  induction fuel as [|fuel IH]; intros m R o lc Hinv Hfuel; [lia|].
  destruct (read_line_spec BUF_SIZE m R Hinv) as (m1 & Hline & Hinv1 & Hframe1).
  cbn [tempfile.output_loop].
  rewrite (bind_on_handle _ _ _ _ _ _ Hline).
  rewrite (bind_on_handle (member level) _ _ _ (level (this m1)) m1 eq_refl).
  destruct R as [|c R0].
  - change (first_line []) with (@nil ascii, @nil ascii) in *. cbn [fst snd] in *.
    rewrite (buffered_inv_empty_level _ _ (reading_inv_buffered _ _ _ Hinv1)).
    cbn. rewrite app_nil_r. exists m1. split; [reflexivity|]. split; assumption.
  - destruct (first_line_progress c R0) as [Hne Hlt].
    set (line := (first_line (c :: R0)).1) in *.
    set (R' := (first_line (c :: R0)).2) in *.
    replace (length line =? 0)%nat with false
      by (symmetry; apply Nat.eqb_neq; destruct line; [congruence | discriminate]).
    cbn [andb].
    destruct (IH m1 R'
                (o ++ (if negb (length prefix =? 0)%nat then
                         [os_str prefix; os_str (list_ascii_of_string ": ")]
                       else [])
                   ++ (if line_numbers then
                         [os_int (lc + 1); os_str (list_ascii_of_string ": ")]
                       else [])
                   ++ [os_str line; os_flush])
                (lc + 1)%Z Hinv1 ltac:(cbn [length] in *; lia))
      as (m2 & Hloop & Hinv2 & Hframe2).
    exists m2. split; [|split; [assumption | eapply frame_trans; eassumption]].
    cbn [length lines_of]. fold line. fold R'. cbn [render].
    rewrite (lines_of_fuel (length R0) (length R') R')
      by (cbn [length] in *; lia).
    rewrite <- !app_assoc in Hloop. rewrite <- Hloop.
    destruct (negb (length prefix =? 0)%nat), line_numbers;
      rewrite ?bind_bind, ?bind_put_to, ?bind_ret;
      rewrite ?bind_bind, ?bind_put_to, ?bind_ret;
      rewrite ?bind_bind, ?bind_put_to, ?bind_ret;
      rewrite <- ?app_assoc; reflexivity.
Qed.

(** Extra X16.  [output] on a closed handle whose file holds text
    without NUL: it opens the file, inserts every line once and in order,
    each preceded by the prefix and ": " when the prefix is not empty and
    by its number, counted from 1, and ": " when line numbers are asked
    for, and followed by a flush, and closes the handle again; the lines
    put together are the file, and the files are as they were.  On a
    handle that is open [output] does nothing. *)
Theorem tempfile_output_lines BUF_SIZE prefix line_numbers o m F :
  2 <= BUF_SIZE ->
  length (buf (this m)) = BUF_SIZE ->
  fd (this m) = (-1)%Z ->
  posix.files (kernel_of m) !! _name (this m) = Some F ->
  nul_free F ->
  (exists m',
     tempfile.output BUF_SIZE prefix line_numbers (o, m)
     = Return tt (o ++ render prefix line_numbers 0 (lines_of (length F) F), m')
     /\ concat (lines_of (length F) F) = F
     /\ fd (this m') = (-1)%Z
     /\ posix.files (kernel_of m') = posix.files (kernel_of m))
  /\ (forall c, fd (this c) <> (-1)%Z ->
        tempfile.output BUF_SIZE prefix line_numbers (o, c) = Return tt (o, c)).
Proof.
  intros Hsize Hlen Hfd Hfile Hnul. split.
  - destruct (open_for_reading BUF_SIZE m F Hsize Hlen Hfd Hfile Hnul)
      as (m1 & Hopen & Hinv1 & Hframe1).
    assert (Hlev1 : level (this m1) = 0)
      by (apply (open_resets_level false m m1); [lia | exact Hopen]).
    assert (Hunread : unread (fd (this m1)) (kernel_of m1) = length F).
    { destruct Hinv1 as (f & Hf & _ & _ & HR & _). unfold unread.
      rewrite Hf. rewrite Hlev1, take_0 in HR. cbn [app] in HR.
      rewrite <- HR. reflexivity. }
    destruct (output_loop_spec BUF_SIZE prefix line_numbers (S (length F))
                m1 F o 0%Z Hinv1 ltac:(lia)) as (m2 & Hloop & Hinv2 & Hframe2).
    destruct (close_spec m2) as (m3 & Hclose & Hfd3 & _ & _ & Hfiles3).
    exists m3. unfold tempfile.output.
    rewrite (bind_on_handle (member fd) _ _ _ (fd (this m)) m eq_refl).
    rewrite Hfd. cbn [Z.eqb Pos.eqb]. unfold tempfile.open_default_writable.
    rewrite (bind_on_handle _ _ _ _ _ _ Hopen).
    rewrite (bind_on_handle
               (gets (fun h => unread (fd (this h)) (kernel_of h))) _ _ _
               (length F) m1) by (unfold gets; rewrite Hunread; reflexivity).
    unfold bind at 1. rewrite Hloop.
    unfold on_handle, zoom. cbn [fst snd]. rewrite Hclose.
    split; [reflexivity|]. split; [apply concat_lines_of; lia|].
    split; [assumption|].
    destruct Hframe1 as (_ & _ & Hf1 & _). destruct Hframe2 as (_ & _ & Hf2 & _).
    congruence.
  - intros c Hc. unfold tempfile.output.
    rewrite (bind_on_handle (member fd) _ _ _ (fd (this c)) c eq_refl).
    destruct (Z.eqb_spec (fd (this c)) (-1)); [contradiction | reflexivity].
Qed.

Lemma tempfile_output_lines_witness :
  nul_free sample_text
  /\ (exists m',
        tempfile.output 4 (list_ascii_of_string "log") true
          ([], sample_file_machine sample_text [1; 5])
        = Return tt
            ([] ++ render (list_ascii_of_string "log") true 0
                     (lines_of (length sample_text) sample_text), m')
        /\ concat (lines_of (length sample_text) sample_text) = sample_text
        /\ fd (this m') = (-1)%Z
        /\ posix.files (kernel_of m')
           = posix.files (kernel_of (sample_file_machine sample_text [1; 5])))
  /\ render (list_ascii_of_string "log") true 0
       (lines_of (length sample_text) sample_text)
     = [ os_str (list_ascii_of_string "log"); os_str (list_ascii_of_string ": ");
         os_int 1; os_str (list_ascii_of_string ": ");
         os_str (list_ascii_of_string "first line" ++ [LF]); os_flush;
         os_str (list_ascii_of_string "log"); os_str (list_ascii_of_string ": ");
         os_int 2; os_str (list_ascii_of_string ": ");
         os_str (list_ascii_of_string "last"); os_flush ].
Proof.
  assert (Hn : nul_free sample_text).
  { unfold sample_text, nul_free. cbn [list_ascii_of_string app].
    repeat first [apply Forall_cons; split; [discriminate|] | constructor]. }
  split; [exact Hn|]. split; [|vm_compute; reflexivity].
  apply (proj1 (tempfile_output_lines 4 (list_ascii_of_string "log") true []
                  (sample_file_machine sample_text [1; 5]) sample_text
                  ltac:(lia) eq_refl eq_refl eq_refl Hn)).
Defined.

End output_facts.

(** ** execute *)

Section execute_facts.
Import RldProcess.

Lemma echo_args_returns : forall args st,
  exists st', echo_args args st = Return tt st'.
Proof.
  induction args as [|a args IH]; intros [o u]; [eexists; reflexivity|].
  cbn [echo_args]. unfold cout. rewrite !bind_put_to. cbv beta. apply IH.
Qed.

Lemma execute_prelude_returns (P : platform) args st :
  exists st',
    (if verbose_trace P then
       cout (text "execute: ") ;;; echo_args args ;;; cout os_endl
     else ret tt) st = Return tt st'.
Proof.
  destruct st as [o u].
  destruct (verbose_trace P); [|eexists; reflexivity].
  unfold cout. rewrite bind_put_to. cbv beta. unfold bind at 1.
  match goal with
  | |- context [echo_args args ?x] =>
    destruct (echo_args_returns args x) as ([o1 u1] & ->)
  end.
  eexists. reflexivity.
Qed.

Lemma exit_status_byte S :
  (0 <= Z.shiftr (Z.land S 65280) 8 < 256)%Z.
Proof.
  rewrite Z.shiftr_land. change (Z.shiftr 65280 8) with (Z.ones 8).
  rewrite Z.land_ones by lia. apply Z.mod_pos_bound. lia.
Qed.

Lemma term_signal_byte S : (0 <= Z.land S 127 < 256)%Z.
Proof.
  change 127%Z with (Z.ones 7). rewrite Z.land_ones by lia.
  pose proof (Z.mod_pos_bound S (2 ^ 7) ltac:(lia)). lia.
Qed.

(** Extra X17.  [execute] with the wait macros the file itself
    defines, when [pex_one] reports no error: a status whose low byte is 0
    is a normal exit with the next byte as code; a low byte of 0x7f (a
    stopped child) is thrown as "unknown status returned", because the
    file defines [WIFSTOPPED] as [WIFEXITED], which was tested before; any
    other status is a signal with the low seven bits as code.  So the
    result is never of type stopped, and every code is between 0 and
    255. *)
Theorem execute_file_macros_status (P : platform) pname args_0 rest
    outname errname st :
  wait_h P = file_wait_macros ->
  serr (pex_one P args_0 (args_0 :: rest) pname outname errname) = None ->
  err (pex_one P args_0 (args_0 :: rest) pname outname errname) = 0%Z ->
  let S := s (pex_one P args_0 (args_0 :: rest) pname outname errname) in
  let run := execute P pname (args_0 :: rest) outname errname st in
  (Z.land S 255 = 0%Z ->
   returned_value run
   = Some {| type := normal; code := Z.shiftr (Z.land S 65280) 8 |})
  /\ (Z.land S 255 = 127%Z ->
      thrown run
      = Some (rld_error ("execute: " +:+ args_0) "unknown status returned"))
  /\ (Z.land S 255 <> 0%Z -> Z.land S 255 <> 127%Z ->
      returned_value run = Some {| type := signal; code := Z.land S 127 |})
  /\ (forall x, returned_value run = Some x ->
        type x <> stopped /\ (0 <= code x < 256)%Z).
Proof.
  intros HW Hserr Herr S run.
  assert (Hrun : exists st',
    run = if (Z.land S 255 =? 0)%Z then
            Return {| type := normal; code := Z.shiftr (Z.land S 65280) 8 |} st'
          else if (Z.land S 255 =? 127)%Z then
            Throw (rld_error ("execute: " +:+ args_0) "unknown status returned") st'
          else Return {| type := signal; code := Z.land S 127 |} st').
  { subst run. unfold execute.
    destruct (execute_prelude_returns P (args_0 :: rest) st) as ([o1 u1] & Hpre).
    unfold bind at 1. rewrite Hpre. rewrite Hserr, Herr. cbn [Z.eqb negb].
    rewrite HW. cbn [WIFEXITED WEXITSTATUS WIFSIGNALED WTERMSIG WIFSTOPPED
                     WSTOPSIG file_wait_macros].
    fold S. unfold cout.
    destruct (Z.eqb_spec (Z.land S 255) 0) as [Hz|Hz].
    - destruct (verbose_trace P); rewrite ?bind_bind, ?bind_put_to, ?bind_ret;
        rewrite ?bind_bind, ?bind_put_to, ?bind_ret; eexists; reflexivity.
    - cbn [negb andb].
      destruct (Z.eqb_spec (Z.land S 255) 127) as [Hs|Hs]; cbn [negb];
        destruct (verbose_trace P); rewrite ?bind_bind, ?bind_put_to, ?bind_ret;
        rewrite ?bind_bind, ?bind_put_to, ?bind_ret;
        rewrite ?bind_bind, ?bind_put_to, ?bind_ret; eexists; reflexivity. }
  destruct Hrun as (st' & Hrun). rewrite Hrun.
  split; [|split; [|split]].
  - intros Hz. rewrite Hz. reflexivity.
  - intros Hs. rewrite Hs. reflexivity.
  - intros Hz Hs.
    rewrite (proj2 (Z.eqb_neq _ _) Hz), (proj2 (Z.eqb_neq _ _) Hs). reflexivity.
  - intros x.
    destruct (Z.land S 255 =? 0)%Z.
    { intros [= <-]. cbn. split; [discriminate | apply exit_status_byte]. }
    destruct (Z.land S 255 =? 127)%Z; [discriminate|].
    intros [= <-]. cbn. split; [discriminate | apply term_signal_byte].
Qed.

Lemma execute_file_macros_status_witness :
  (returned_value (execute (sample_platform 0) "run" ["sim"; "-q"] "out" "err" ([], tt))
   = Some {| type := normal; code := 0 |})
  /\ (returned_value (execute (sample_platform 9) "run" ["sim"; "-q"] "out" "err" ([], tt))
      = Some {| type := signal; code := 9 |})
  /\ (thrown (execute (sample_platform 4991) "run" ["sim"; "-q"] "out" "err" ([], tt))
      = Some (rld_error "execute: sim" "unknown status returned")).
Proof.
  split; [|split].
  - apply (execute_file_macros_status (sample_platform 0) "run" "sim" ["-q"]
             "out" "err" ([], tt) eq_refl eq_refl eq_refl).
    reflexivity.
  - apply (execute_file_macros_status (sample_platform 9) "run" "sim" ["-q"]
             "out" "err" ([], tt) eq_refl eq_refl eq_refl);
      simpl; discriminate.
  - apply (execute_file_macros_status (sample_platform 4991) "run" "sim" ["-q"]
             "out" "err" ([], tt) eq_refl eq_refl eq_refl).
    reflexivity.
Defined.

(** Extra X18.  [execute] on a command string that is one unquoted
    word: [parse_command_line] yields no argument for it, and [execute]
    then takes [args[0]] of an empty container. *)
Theorem execute_command_single_word (P : platform) pname command outname errname st :
  plain_word command = true ->
  execute_command P pname command outname errname st = Undefined.
Proof.
  intros Hp. unfold execute_command.
  assert (Hparse : parse_command_line command [] = Return tt []).
  { unfold parse_command_line, parse_fuel, clear. cbn [parse_loop].
    destruct (0 <? String.length command)%nat; [|reflexivity].
    destruct (plain_word_at command 0 Hp) as [-> ->].
    apply parse_loop_plain_word; [assumption|]. unfold parse_measure. lia. }
  rewrite Hparse. unfold execute.
  destruct (execute_prelude_returns P [] st) as (st1 & Hpre).
  unfold bind at 1. rewrite Hpre. reflexivity.
Qed.

Lemma execute_command_single_word_witness :
  plain_word "simulator" = true
  /\ execute_command (sample_platform 0) "run" "simulator" "out" "err" ([], tt)
     = Undefined.
Proof.
  split; [reflexivity|].
  apply (execute_command_single_word (sample_platform 0) "run" "simulator"
           "out" "err" ([], tt)).
  reflexivity.
Defined.

End execute_facts.

(** ** More on the command-line parser *)

Section parse_more_facts.
Import RldProcess.

Lemma parse_loop_outcome fuel : forall command state start i args,
  start <= String.length command ->
  parse_measure command state i < fuel ->
  exists l,
    (parse_loop fuel command state start i args = Return tt (args ++ l)
     \/ parse_loop fuel command state start i args = Throw quote_error (args ++ l))
    /\ Forall (piece_of command) l.
Proof.
  induction fuel as [|fuel IH]; intros command state start i args Hstart Hm; [lia|].
  cbn [parse_loop].
  destruct (i <? String.length command)%nat eqn:Hi.
  2:{ exists []. rewrite app_nil_r. split; [left; reflexivity | constructor]. }
  apply Nat.ltb_lt in Hi. unfold parse_measure in *.
  assert (Hpush : forall state',
            parse_measure command state' (i + 1) < fuel ->
            exists l,
              (match substr command start (size_t_pred i) with
               | Some tok =>
                 parse_loop fuel command state' start (i + 1) (args ++ [tok])
               | None => Throw std_out_of_range args
               end = Return tt (args ++ l)
               \/ match substr command start (size_t_pred i) with
                  | Some tok =>
                    parse_loop fuel command state' start (i + 1) (args ++ [tok])
                  | None => Throw std_out_of_range args
                  end = Throw quote_error (args ++ l))
              /\ Forall (piece_of command) l).
  { intros state' Hm'. unfold substr.
    replace (String.length command <? start)%nat with false
      by (symmetry; apply Nat.ltb_ge; lia).
    destruct (IH command state' start (i + 1)
                (args ++ [substring start
                            (default (String.length command) (size_t_pred i))
                            command]) Hstart Hm') as (l & Hres & Hl).
    eexists (_ :: l). rewrite <- app_assoc in Hres. split; [exact Hres|].
    constructor; [|exact Hl]. eexists _, _. reflexivity. }
  destruct state.
  - destruct (Ascii.eqb _ quote); [apply IH; unfold parse_measure; lia|].
    destruct (isspace _); apply IH; unfold parse_measure; lia.
  - destruct (Ascii.eqb _ quote); [apply Hpush; unfold parse_measure; lia|].
    destruct (_ && _); apply IH; unfold parse_measure; lia.
  - destruct (Ascii.eqb _ quote).
    { exists []. rewrite app_nil_r. split; [right; reflexivity | constructor]. }
    destruct (_ && _); [apply IH; unfold parse_measure; lia|].
    destruct (isspace _); [apply Hpush; unfold parse_measure; lia|].
    apply IH; unfold parse_measure; lia.
Qed.

(** Extra X19.  [parse_command_line] ends on every command in one of
    two ways: it returns, or it throws "quote in token"; [substr] is never
    called past the end of the command.  Either way every argument in the
    container is a run of consecutive characters of the command. *)
Theorem parse_command_line_outcome command args :
  exists l,
    (parse_command_line command args = Return tt l
     \/ parse_command_line command args = Throw quote_error l)
    /\ Forall (piece_of command) l.
Proof.
  unfold parse_command_line, clear.
  destruct (parse_loop_outcome (parse_fuel command) command pstate_discard_space
              0 0 [] ltac:(lia) ltac:(unfold parse_measure, parse_fuel; lia))
    as (l & Hres & Hl).
  exists l. split; assumption.
Qed.

Lemma all_space_at s : forall i,
  all_space s = true -> i < String.length s ->
  Ascii.eqb (at_ s i) quote = false /\ isspace (at_ s i) = true.
Proof.
  induction s as [|c s IH]; intros i Hs Hi; [cbn in Hi; lia|].
  cbn in Hs. apply andb_true_iff in Hs as [Hc Hs].
  destruct i as [|i].
  - unfold at_. cbn. split; [|assumption].
    destruct (Ascii.eqb_spec c quote) as [->|]; [discriminate Hc | reflexivity].
  - apply (IH i Hs). cbn in Hi. lia.
Qed.

Lemma parse_loop_all_space fuel : forall command start i args,
  all_space command = true ->
  parse_measure command pstate_discard_space i < fuel ->
  parse_loop fuel command pstate_discard_space start i args = Return tt args.
Proof.
  induction fuel as [|fuel IH]; intros command start i args Hs Hm; [lia|].
  cbn [parse_loop].
  destruct (i <? String.length command)%nat eqn:Hi; [|reflexivity].
  apply Nat.ltb_lt in Hi. unfold parse_measure in *.
  destruct (all_space_at command i Hs Hi) as [-> ->].
  apply IH; [assumption | lia].
Qed.

(** Extra X20.  A command of white space only, the empty command
    included, has no argument. *)
Theorem parse_command_line_white_space command args :
  all_space command = true ->
  parse_command_line command args = Return tt [].
Proof.
  intros Hs. unfold parse_command_line, clear.
  apply parse_loop_all_space; [assumption|].
  unfold parse_measure, parse_fuel. lia.
Qed.

Lemma parse_command_line_white_space_witness :
  parse_command_line (String " " (String "009" " ")) ["old"] = Return tt [].
Proof.
  apply (parse_command_line_white_space (String " " (String "009" " ")) ["old"]).
  reflexivity.
Defined.

Lemma length_append w : forall t,
  String.length (w +:+ t) = String.length w + String.length t.
Proof.
  induction w as [|c w IH]; intros t; [reflexivity|].
  change (S (String.length (w +:+ t)) = S (String.length w) + String.length t).
  rewrite IH. reflexivity.
Qed.

Lemma at_append_l w t : forall i,
  i < String.length w -> at_ (w +:+ t) i = at_ w i.
Proof.
  induction w as [|c w IH]; intros i Hi; [cbn in Hi; lia|].
  destruct i as [|i]; [reflexivity|]. cbn in Hi.
  unfold at_ in *. cbn. apply IH. lia.
Qed.

Lemma at_append_r w t : forall i,
  at_ (w +:+ t) (String.length w + i) = at_ t i.
Proof.
  induction w as [|c w IH]; intros i; [reflexivity|].
  unfold at_ in *. cbn. apply IH.
Qed.

Lemma at_append_end w t : at_ (w +:+ t) (String.length w) = at_ t 0.
Proof.
  rewrite <- (at_append_r w t 0). f_equal. lia.
Qed.

Lemma substring_0_append w t :
  substring 0 (String.length w) (w +:+ t) = w.
Proof.
  induction w as [|c w IH]; [destruct t; reflexivity|].
  change (String c (substring 0 (String.length w) (w +:+ t)) = String c w).
  rewrite IH. reflexivity.
Qed.

Lemma substring_0_append_le w t : forall n,
  n <= String.length w -> substring 0 n (w +:+ t) = substring 0 n w.
Proof.
  induction w as [|c w IH]; intros n Hn.
  - cbn in Hn. assert (n = 0) as -> by lia. destruct t; reflexivity.
  - destruct n as [|n]; [reflexivity|]. cbn in Hn.
    change (String c (substring 0 n (w +:+ t)) = String c (substring 0 n w)).
    rewrite IH by lia. reflexivity.
Qed.

Lemma word_chars_at w : forall i,
  word_chars w = true -> i < String.length w ->
  Ascii.eqb (at_ w i) quote = false
  /\ isspace (at_ w i) = false
  /\ Ascii.eqb (at_ w i) escape = false.
Proof.
  induction w as [|c w IH]; intros i Hw Hi; [cbn in Hi; lia|].
  cbn in Hw. apply andb_true_iff in Hw as [Hw Hrest].
  apply andb_true_iff in Hw as [Hw He]. apply andb_true_iff in Hw as [Hq Hs].
  apply negb_true_iff in Hq, Hs, He.
  destruct i as [|i]; [repeat split; assumption|].
  apply (IH i Hrest). cbn in Hi. lia.
Qed.

Lemma quoted_chars_at w : forall i,
  quoted_chars w = true -> i < String.length w ->
  Ascii.eqb (at_ w i) quote = false /\ Ascii.eqb (at_ w i) escape = false.
Proof.
  induction w as [|c w IH]; intros i Hw Hi; [cbn in Hi; lia|].
  cbn in Hw. apply andb_true_iff in Hw as [Hw Hrest].
  apply andb_true_iff in Hw as [Hq He]. apply negb_true_iff in Hq, He.
  destruct i as [|i]; [split; assumption|].
  apply (IH i Hrest). cbn in Hi. lia.
Qed.

(** The scan of an unquoted word: the loop runs to its end without
    touching the container. *)
Lemma parse_raw_scan w rest :
  word_chars w = true ->
  forall n i fuel start args,
    i + n = String.length w ->
    parse_loop (n + fuel) (w +:+ rest) pstate_accumulate_raw start i args
    = parse_loop fuel (w +:+ rest) pstate_accumulate_raw start
        (String.length w) args.
Proof.
  intros Hw. induction n as [|n IH]; intros i fuel start args Hi.
  - replace i with (String.length w) by lia. reflexivity.
  - cbn [Nat.add parse_loop].
    replace (i <? String.length (w +:+ rest))%nat with true
      by (symmetry; apply Nat.ltb_lt; rewrite length_append; lia).
    rewrite (at_append_l w rest i) by lia.
    destruct (word_chars_at w i Hw ltac:(lia)) as (-> & -> & ->).
    cbn [andb]. apply IH. lia.
Qed.

(** The scan between quotes. *)
Lemma parse_quoted_scan pre w rest :
  quoted_chars w = true ->
  forall n i fuel start args,
    i + n = String.length w ->
    parse_loop (n + fuel) (pre +:+ (w +:+ rest)) pstate_accumulate_quoted start
      (String.length pre + i) args
    = parse_loop fuel (pre +:+ (w +:+ rest)) pstate_accumulate_quoted start
        (String.length pre + String.length w) args.
Proof.
  intros Hw. induction n as [|n IH]; intros i fuel start args Hi.
  - replace i with (String.length w) by lia. reflexivity.
  - cbn [Nat.add parse_loop].
    replace (String.length pre + i <? String.length (pre +:+ (w +:+ rest)))%nat
      with true
      by (symmetry; apply Nat.ltb_lt; rewrite !length_append; lia).
    rewrite (at_append_r pre (w +:+ rest) i), (at_append_l w rest i) by lia.
    destruct (quoted_chars_at w i Hw ltac:(lia)) as (-> & ->).
    cbn [andb]. replace (String.length pre + i + 1)
      with (String.length pre + (i + 1)) by lia.
    apply IH. lia.
Qed.

(** Extra X21.  An unescaped quote in an unquoted token: for a command
    that starts with a word (no quote, white space or backslash in it)
    directly followed by a quote, [parse_command_line] throws "quote in
    token" and the container is empty. *)
Theorem parse_command_line_quote_in_token w rest args :
  word_chars w = true ->
  w <> "" ->
  parse_command_line (w +:+ String quote rest) args = Throw quote_error [].
Proof.
  intros Hw Hne. unfold parse_command_line, clear, parse_fuel.
  set (command := w +:+ String quote rest).
  assert (Hlen : String.length command
                 = String.length w + S (String.length rest))
    by (subst command; rewrite length_append; reflexivity).
  assert (Hpos : 0 < String.length w) by (destruct w; [congruence | cbn; lia]).
  cbn [parse_loop].
  replace (0 <? String.length command)%nat with true
    by (symmetry; apply Nat.ltb_lt; lia).
  subst command. rewrite (at_append_l w _ 0) by lia.
  destruct (word_chars_at w 0 Hw Hpos) as (-> & -> & _).
  rewrite Hlen.
  replace (2 * (String.length w + S (String.length rest)) + 1)
    with (String.length w + S (String.length w + 2 * String.length rest + 2))
    by lia.
  rewrite (parse_raw_scan w (String quote rest) Hw (String.length w) 0)
    by reflexivity.
  cbn [parse_loop].
  replace (String.length w <? String.length (w +:+ String quote rest))%nat
    with true by (symmetry; apply Nat.ltb_lt; rewrite length_append; cbn; lia).
  rewrite at_append_end. reflexivity.
Qed.

Lemma parse_command_line_quote_in_token_witness :
  parse_command_line ("a" +:+ String quote "b") ["old"] = Throw quote_error [].
Proof.
  apply (parse_command_line_quote_in_token "a" "b" ["old"]).
  - reflexivity.
  - discriminate.
Defined.

(** Extra X22.  A command that is one quoted token, nothing before the
    opening quote and nothing after the closing one, the text between the
    quotes without quote and backslash: the single argument is that text,
    white space included. *)
Theorem parse_command_line_quoted_token w args :
  quoted_chars w = true ->
  parse_command_line (String quote (w +:+ String quote "")) args
  = Return tt [w].
Proof.
  intros Hw. unfold parse_command_line, clear, parse_fuel.
  change (String quote (w +:+ String quote ""))
    with (String quote "" +:+ (w +:+ String quote "")).
  set (command := String quote "" +:+ (w +:+ String quote "")).
  assert (Hlen : String.length command = String.length w + 2)
    by (subst command; rewrite !length_append; cbn; lia).
  cbn [parse_loop].
  replace (0 <? String.length command)%nat with true
    by (symmetry; apply Nat.ltb_lt; lia).
  change (Ascii.eqb (at_ command 0) quote) with true. cbv iota.
  rewrite Hlen.
  replace (2 * (String.length w + 2) + 1)
    with (String.length w + (String.length w + 5)) by lia.
  change (0 + 1) with (String.length (String quote "") + 0).
  subst command.
  rewrite (parse_quoted_scan (String quote "") w (String quote "") Hw
             (String.length w) 0) by reflexivity.
  replace (String.length w + 5) with (S (S (String.length w + 3))) by lia.
  cbn [parse_loop].
  replace (String.length (String quote "") + String.length w
           <? String.length (String quote "" +:+ (w +:+ String quote "")))%nat
    with true
    by (symmetry; apply Nat.ltb_lt; rewrite !length_append; cbn; lia).
  rewrite at_append_r, at_append_end.
  change (Ascii.eqb (at_ (String quote "") 0) quote) with true. cbv iota.
  unfold substr.
  replace (String.length (String quote "" +:+ (w +:+ String quote ""))
           <? String.length (String quote "") + 0)%nat with false
    by reflexivity.
  cbn [String.length Nat.add size_t_pred default from_option id app].
  change (String quote "" +:+ (w +:+ String quote ""))
    with (String quote (w +:+ String quote "")).
  cbn [substring]. rewrite substring_0_append.
  cbn [parse_loop].
  match goal with
  | |- (if (?a <? ?b)%nat then _ else _) = _ =>
    replace (a <? b)%nat with false; [reflexivity|]
  end.
  symmetry. apply Nat.ltb_ge.
  change (String quote (w +:+ String quote ""))
    with (String quote "" +:+ (w +:+ String quote "")).
  rewrite Hlen. lia.
Qed.

Lemma parse_command_line_quoted_token_witness :
  parse_command_line (String quote ("baz qux" +:+ String quote "")) ["old"]
  = Return tt ["baz qux"].
Proof.
  apply (parse_command_line_quoted_token "baz qux" ["old"]). reflexivity.
Defined.

(** Extra X23.  An unquoted word at the start of the command, ended by
    one white-space character that ends the command: [substr] is given
    the end position [i - 1] as the length, so the argument is the word
    without its last character. *)
Theorem parse_command_line_first_word w sp args :
  word_chars w = true ->
  w <> "" ->
  isspace sp = true ->
  parse_command_line (w +:+ String sp "") args
  = Return tt [substring 0 (String.length w - 1) w].
Proof.
  intros Hw Hne Hsp. unfold parse_command_line, clear, parse_fuel.
  assert (Hlen : String.length (w +:+ String sp "") = String.length w + 1)
    by (rewrite length_append; reflexivity).
  assert (Hpos : 0 < String.length w) by (destruct w; [congruence | cbn; lia]).
  assert (Hq : Ascii.eqb sp quote = false).
  { destruct (Ascii.eqb_spec sp quote) as [->|]; [discriminate Hsp | reflexivity]. }
  assert (He : Ascii.eqb sp escape = false).
  { destruct (Ascii.eqb_spec sp escape) as [->|]; [discriminate Hsp | reflexivity]. }
  cbn [parse_loop].
  replace (0 <? String.length (w +:+ String sp ""))%nat with true
    by (symmetry; apply Nat.ltb_lt; lia).
  rewrite (at_append_l w _ 0) by lia.
  destruct (word_chars_at w 0 Hw Hpos) as (-> & -> & _).
  rewrite Hlen.
  replace (2 * (String.length w + 1) + 1)
    with (String.length w + S (S (String.length w + 1))) by lia.
  rewrite (parse_raw_scan w (String sp "") Hw (String.length w) 0)
    by reflexivity.
  cbn [parse_loop].
  replace (String.length w <? String.length (w +:+ String sp ""))%nat
    with true by (symmetry; apply Nat.ltb_lt; lia).
  rewrite at_append_end.
  change (at_ (String sp "") 0) with sp. rewrite Hq, He, Hsp. cbn [andb].
  unfold substr.
  replace (String.length (w +:+ String sp "") <? 0)%nat with false
    by reflexivity.
  destruct (String.length w) as [|n] eqn:Hn; [lia|].
  cbn [size_t_pred default from_option id app].
  rewrite substring_0_append_le by lia.
  replace (S n + 1 <? String.length (w +:+ String sp ""))%nat with false
    by (symmetry; apply Nat.ltb_ge; lia).
  replace (S n - 1) with n by lia. reflexivity.
Qed.

Lemma parse_command_line_first_word_witness :
  parse_command_line ("foo" +:+ String " " "") ["old"] = Return tt ["fo"].
Proof.
  apply (parse_command_line_first_word "foo" " " ["old"]).
  - reflexivity.
  - discriminate.
  - reflexivity.
Defined.

End parse_more_facts.

Section writer_more_facts.
Import TraceWriterQEMU.

Variable H : qemu_traces_h.
Variable env : environment.

(** The loop returns [true] exactly when every record has a [case] and
    every [fwrite] it makes returns 1. *)
Lemma write_entries_true_iff file taken notTaken : forall set k,
  (write_entries H env file taken notTaken k set).1 = returned true
  <-> (forall j, k <= j < k + length set -> fwrite_status env j = 1%Z)
      /\ Forall (fun itr => recognized H (TraceList.exitReason itr) = true) set.
Proof.
  induction set as [|itr rest IH]; intros k; cbn [write_entries].
  - split; [|reflexivity]. intros _. split; [|constructor].
    intros j Hj. cbn in Hj. lia.
  - destruct (entry_op H taken notTaken (TraceList.exitReason itr))
      as [o|] eqn:Hop.
    + assert (Hrec : recognized H (TraceList.exitReason itr) = true).
      { destruct (recognized H (TraceList.exitReason itr)) eqn:Hr;
          [reflexivity|].
        apply (entry_op_None H taken notTaken) in Hr. congruence. }
      destruct (Z.eqb_spec (fwrite_status env k) 1) as [Hst|Hst].
      * specialize (IH (S k)).
        destruct (write_entries H env file taken notTaken (S k) rest)
          as [r evs].
        cbn [fst] in *. rewrite IH. cbn [length]. split.
        -- intros [Hw Hall]. split; [|constructor; assumption].
           intros j Hj. destruct (Nat.eq_dec j k) as [->|];
             [assumption | apply Hw; lia].
        -- intros [Hw Hall]. apply Forall_cons in Hall as [_ Hall].
           split; [|assumption]. intros j Hj. apply Hw. lia.
      * cbn [fst]. split; [discriminate|]. intros [Hw _].
        exfalso. apply Hst, Hw. cbn [length]. lia.
    + apply entry_op_None in Hop. cbn [fst]. split; [discriminate|].
      intros [_ Hall]. apply Forall_cons in Hall as [Hrec _]. congruence.
Qed.

(** Extra X24.  [writeFile] returns [true] exactly when the record list
    is not empty, [fopen] succeeds, every [fwrite] (the header's and one
    per record) returns 1, and every record's exit reason is one of the
    three the [switch] has a [case] for. *)
Theorem writeFile_true_iff file log :
  (writeFile H env file log).1 = returned true
  <-> log <> []
      /\ fopen_ok env file = true
      /\ (forall j, j <= length log -> fwrite_status env j = 1%Z)
      /\ Forall (fun itr => recognized H (TraceList.exitReason itr) = true) log.
Proof.
  unfold writeFile. destruct log as [|itr rest].
  { cbn. split; [discriminate|]. intros [Hne _]. congruence. }
  destruct (fopen_ok env file); cbn [negb].
  2:{ cbn. split; [discriminate|]. intros (_ & Hf & _). discriminate. }
  destruct (Z.eqb_spec (fwrite_status env 0) 1) as [Hst|Hst]; cbn [negb].
  2:{ cbn [fst]. split; [discriminate|]. intros (_ & _ & Hw & _).
      exfalso. apply Hst, Hw. lia. }
  pose proof (write_entries_true_iff file (uint8_t (qemuTakenBit env))
                (uint8_t (qemuNotTakenBit env)) (itr :: rest) 1) as Hloop.
  destruct (write_entries H env file _ _ 1 (itr :: rest)) as [r evs].
  cbn [fst] in *. rewrite Hloop. split.
  - intros [Hw Hall]. split; [discriminate|]. split; [reflexivity|].
    split; [|assumption]. intros j Hj.
    destruct j as [|j]; [assumption | apply Hw; lia].
  - intros (_ & _ & Hw & Hall). split; [|assumption].
    intros j Hj. apply Hw. lia.
Qed.

Lemma write_entries_fclose_iff file taken notTaken : forall set k,
  existsb closes_file (write_entries H env file taken notTaken k set).2 = true
  <-> (write_entries H env file taken notTaken k set).1 = returned true.
Proof.
  induction set as [|itr rest IH]; intros k; cbn [write_entries].
  - cbn. split; reflexivity.
  - destruct (entry_op H taken notTaken (TraceList.exitReason itr)) as [o|].
    2:{ cbn. split; discriminate. }
    destruct (fwrite_status env k =? 1)%Z.
    + specialize (IH (S k)).
      destruct (write_entries H env file taken notTaken (S k) rest)
        as [r evs].
      cbn [fst snd] in *. rewrite <- IH.
      destruct (Verbose env); cbn; reflexivity.
    + destruct (Verbose env); cbn; split; discriminate.
Qed.

(** Extra X25.  [writeFile] calls [fclose] exactly when it returns
    [true]: on every other way out, also those after [fopen] has
    succeeded (a failed [fwrite] of the header or of an entry, an
    unknown exit reason), the stream is not closed. *)
Theorem writeFile_fclose_iff file log :
  existsb closes_file (writeFile H env file log).2 = true
  <-> (writeFile H env file log).1 = returned true.
Proof.
  unfold writeFile. destruct log as [|itr rest].
  { cbn. split; discriminate. }
  destruct (fopen_ok env file); cbn [negb].
  2:{ cbn. split; discriminate. }
  destruct (fwrite_status env 0 =? 1)%Z; cbn [negb].
  2:{ cbn. split; discriminate. }
  pose proof (write_entries_fclose_iff file (uint8_t (qemuTakenBit env))
                (uint8_t (qemuNotTakenBit env)) (itr :: rest) 1) as Hloop.
  destruct (write_entries H env file _ _ 1 (itr :: rest)) as [r evs].
  cbn [fst snd] in *. rewrite <- Hloop.
  destruct (Verbose env); cbn; reflexivity.
Qed.

Lemma write_entries_Verbose b file taken notTaken : forall set k,
  (write_entries H (with_Verbose b env) file taken notTaken k set).1
  = (write_entries H env file taken notTaken k set).1
  /\ List.filter file_event
       (write_entries H (with_Verbose b env) file taken notTaken k set).2
     = List.filter file_event
         (write_entries H env file taken notTaken k set).2.
Proof.
  induction set as [|itr rest IH]; intros k; cbn [write_entries].
  - split; reflexivity.
  - destruct (entry_op H taken notTaken (TraceList.exitReason itr)) as [o|];
      [|split; reflexivity].
    cbn [with_Verbose fwrite_status Verbose].
    destruct (fwrite_status env k =? 1)%Z.
    + specialize (IH (S k)).
      destruct (write_entries H (with_Verbose b env) file taken notTaken
                  (S k) rest) as [r1 evs1].
      destruct (write_entries H env file taken notTaken (S k) rest)
        as [r2 evs2].
      cbn [fst snd] in *. destruct IH as [-> IH]. split; [reflexivity|].
      destruct b, (Verbose env); cbn; rewrite IH; reflexivity.
    + split; [reflexivity|]. destruct b, (Verbose env); reflexivity.
Qed.

(** Extra X26.  [Verbose] changes nothing but the messages on stderr:
    with it set or not, [writeFile] ends the same way and makes the same
    calls on the trace file, with the same data, in the same order. *)
Theorem writeFile_Verbose_only_traces b file log :
  (writeFile H (with_Verbose b env) file log).1 = (writeFile H env file log).1
  /\ List.filter file_event (writeFile H (with_Verbose b env) file log).2
     = List.filter file_event (writeFile H env file log).2.
Proof.
  unfold writeFile. destruct log as [|itr rest]; [split; reflexivity|].
  cbn [with_Verbose fopen_ok fwrite_status Verbose qemuTakenBit qemuNotTakenBit].
  destruct (fopen_ok env file); cbn [negb]; [|split; reflexivity].
  destruct (fwrite_status env 0 =? 1)%Z; cbn [negb]; [|split; reflexivity].
  pose proof (write_entries_Verbose b file (uint8_t (qemuTakenBit env))
                (uint8_t (qemuNotTakenBit env)) (itr :: rest) 1) as Hloop.
  destruct (write_entries H (with_Verbose b env) file _ _ 1 (itr :: rest))
    as [r1 evs1].
  destruct (write_entries H env file _ _ 1 (itr :: rest)) as [r2 evs2].
  cbn [fst snd] in *. destruct Hloop as [-> Hloop]. split; [reflexivity|].
  destruct b, (Verbose env); cbn; rewrite Hloop; reflexivity.
Qed.

End writer_more_facts.
